(** * Revisery: the reminder session of [ReminderScreen.tsx]

    A shallow embedding of the React component [ReminderScreen]: its state
    hooks become one record, every handler becomes a computation in a small
    state-and-exception monad over the session state, the Reward Ledger and
    the trace of calls that left the component.

    Conventions of the embedding.
    - A handler reads the values of the render it was created in (its
      closure) and queues updates.  Handlers run one at a time and a render
      happens between two of them, so a handler receives the current state as
      its snapshot [s]; value updates are computed from [s], functional
      updates ([setX(prev => ...)]) from the state at the time they apply.
    - A JavaScript [number] that only ever counts or indexes is a [nat]; an
      answer index, which comes from outside, is a [Z].
    - [undefined]/[null] are [None]; truthiness of a string is [truthy].
    - [await f(...)] on a ledger function either resolves or rejects
      ([Reply]); a rejection that no [try] catches ends the handler and keeps
      the updates queued so far.
    - [console.log] lines carry no behaviour and are left out;
      [console.warn] and [console.error] are trace events.  The emoji of
      the alert titles are left out of the strings. *)

From stdpp Require Import gmap strings list fin_maps pretty.

Open Scope string_scope.
Open Scope list_scope.
Open Scope nat_scope.

(** ** Data model *)

Inductive Difficulty := easy | medium | hard.

Record Task := {
  difficulty : Difficulty;
  question : string;
  options : list string;
  correctAnswer : Z;
  explanation_text : string
}.

Record Theory := { content : string; keyPoints : list string }.

Record ReminderResponse := { theory : Theory; tasks : list Task }.

Record Lesson := {
  subject : string;
  topic : option string;
  homework : option string;
  date : string
}.

Record Props := {
  selectedSubjects : list string;
  lessons : list Lesson;
  username : option string;
  onCoinsUpdated : bool   (* whether the optional callback was passed *)
}.

Inductive Page := theory1 | theory2 | task | explanation | completion.

#[global] Instance Page_eq_dec : EqDecision Page.
Proof. solve_decision. Defined.

Record State := {
  currentSubjectIndex : nat;
  currentTaskIndex : nat;
  selectedAnswer : option Z;
  currentPage : Page;
  reminders : gmap string ReminderResponse;
  isLoading : bool;
  error : option string;
  totalCoinsEarned : nat;
  correctAnswers : nat;
  totalQuestions : nat;
  subjectCorrectAnswers : gmap string nat;
  subjectTotalQuestions : gmap string nat;
  awardedQuestions : gset string;
  awardedBonuses : gset string;
  canClaimCompletionBonus : bool;
  hasClaimedBonus : bool
}.

(** The [useState] initial values. *)
Definition initialState : State := {|
  currentSubjectIndex := 0;
  currentTaskIndex := 0;
  selectedAnswer := None;
  currentPage := theory1;
  reminders := ∅;
  isLoading := true;
  error := None;
  totalCoinsEarned := 0;
  correctAnswers := 0;
  totalQuestions := 0;
  subjectCorrectAnswers := ∅;
  subjectTotalQuestions := ∅;
  awardedQuestions := ∅;
  awardedBonuses := ∅;
  canClaimCompletionBonus := false;
  hasClaimedBonus := false
|}.

(** One updater per hook; each takes the function form [prev => next]. *)
Definition updCurrentSubjectIndex (f : nat → nat) (s : State) : State :=
  {| currentSubjectIndex := f (currentSubjectIndex s);
     currentTaskIndex := currentTaskIndex s; selectedAnswer := selectedAnswer s;
     currentPage := currentPage s; reminders := reminders s;
     isLoading := isLoading s; error := error s;
     totalCoinsEarned := totalCoinsEarned s; correctAnswers := correctAnswers s;
     totalQuestions := totalQuestions s;
     subjectCorrectAnswers := subjectCorrectAnswers s;
     subjectTotalQuestions := subjectTotalQuestions s;
     awardedQuestions := awardedQuestions s; awardedBonuses := awardedBonuses s;
     canClaimCompletionBonus := canClaimCompletionBonus s;
     hasClaimedBonus := hasClaimedBonus s |}.

Definition updCurrentTaskIndex (f : nat → nat) (s : State) : State :=
  {| currentSubjectIndex := currentSubjectIndex s;
     currentTaskIndex := f (currentTaskIndex s); selectedAnswer := selectedAnswer s;
     currentPage := currentPage s; reminders := reminders s;
     isLoading := isLoading s; error := error s;
     totalCoinsEarned := totalCoinsEarned s; correctAnswers := correctAnswers s;
     totalQuestions := totalQuestions s;
     subjectCorrectAnswers := subjectCorrectAnswers s;
     subjectTotalQuestions := subjectTotalQuestions s;
     awardedQuestions := awardedQuestions s; awardedBonuses := awardedBonuses s;
     canClaimCompletionBonus := canClaimCompletionBonus s;
     hasClaimedBonus := hasClaimedBonus s |}.

Definition updSelectedAnswer (f : option Z → option Z) (s : State) : State :=
  {| currentSubjectIndex := currentSubjectIndex s;
     currentTaskIndex := currentTaskIndex s; selectedAnswer := f (selectedAnswer s);
     currentPage := currentPage s; reminders := reminders s;
     isLoading := isLoading s; error := error s;
     totalCoinsEarned := totalCoinsEarned s; correctAnswers := correctAnswers s;
     totalQuestions := totalQuestions s;
     subjectCorrectAnswers := subjectCorrectAnswers s;
     subjectTotalQuestions := subjectTotalQuestions s;
     awardedQuestions := awardedQuestions s; awardedBonuses := awardedBonuses s;
     canClaimCompletionBonus := canClaimCompletionBonus s;
     hasClaimedBonus := hasClaimedBonus s |}.

Definition updCurrentPage (f : Page → Page) (s : State) : State :=
  {| currentSubjectIndex := currentSubjectIndex s;
     currentTaskIndex := currentTaskIndex s; selectedAnswer := selectedAnswer s;
     currentPage := f (currentPage s); reminders := reminders s;
     isLoading := isLoading s; error := error s;
     totalCoinsEarned := totalCoinsEarned s; correctAnswers := correctAnswers s;
     totalQuestions := totalQuestions s;
     subjectCorrectAnswers := subjectCorrectAnswers s;
     subjectTotalQuestions := subjectTotalQuestions s;
     awardedQuestions := awardedQuestions s; awardedBonuses := awardedBonuses s;
     canClaimCompletionBonus := canClaimCompletionBonus s;
     hasClaimedBonus := hasClaimedBonus s |}.

Definition updReminders
    (f : gmap string ReminderResponse → gmap string ReminderResponse)
    (s : State) : State :=
  {| currentSubjectIndex := currentSubjectIndex s;
     currentTaskIndex := currentTaskIndex s; selectedAnswer := selectedAnswer s;
     currentPage := currentPage s; reminders := f (reminders s);
     isLoading := isLoading s; error := error s;
     totalCoinsEarned := totalCoinsEarned s; correctAnswers := correctAnswers s;
     totalQuestions := totalQuestions s;
     subjectCorrectAnswers := subjectCorrectAnswers s;
     subjectTotalQuestions := subjectTotalQuestions s;
     awardedQuestions := awardedQuestions s; awardedBonuses := awardedBonuses s;
     canClaimCompletionBonus := canClaimCompletionBonus s;
     hasClaimedBonus := hasClaimedBonus s |}.

Definition updIsLoading (f : bool → bool) (s : State) : State :=
  {| currentSubjectIndex := currentSubjectIndex s;
     currentTaskIndex := currentTaskIndex s; selectedAnswer := selectedAnswer s;
     currentPage := currentPage s; reminders := reminders s;
     isLoading := f (isLoading s); error := error s;
     totalCoinsEarned := totalCoinsEarned s; correctAnswers := correctAnswers s;
     totalQuestions := totalQuestions s;
     subjectCorrectAnswers := subjectCorrectAnswers s;
     subjectTotalQuestions := subjectTotalQuestions s;
     awardedQuestions := awardedQuestions s; awardedBonuses := awardedBonuses s;
     canClaimCompletionBonus := canClaimCompletionBonus s;
     hasClaimedBonus := hasClaimedBonus s |}.

Definition updError (f : option string → option string) (s : State) : State :=
  {| currentSubjectIndex := currentSubjectIndex s;
     currentTaskIndex := currentTaskIndex s; selectedAnswer := selectedAnswer s;
     currentPage := currentPage s; reminders := reminders s;
     isLoading := isLoading s; error := f (error s);
     totalCoinsEarned := totalCoinsEarned s; correctAnswers := correctAnswers s;
     totalQuestions := totalQuestions s;
     subjectCorrectAnswers := subjectCorrectAnswers s;
     subjectTotalQuestions := subjectTotalQuestions s;
     awardedQuestions := awardedQuestions s; awardedBonuses := awardedBonuses s;
     canClaimCompletionBonus := canClaimCompletionBonus s;
     hasClaimedBonus := hasClaimedBonus s |}.

Definition updTotalCoinsEarned (f : nat → nat) (s : State) : State :=
  {| currentSubjectIndex := currentSubjectIndex s;
     currentTaskIndex := currentTaskIndex s; selectedAnswer := selectedAnswer s;
     currentPage := currentPage s; reminders := reminders s;
     isLoading := isLoading s; error := error s;
     totalCoinsEarned := f (totalCoinsEarned s); correctAnswers := correctAnswers s;
     totalQuestions := totalQuestions s;
     subjectCorrectAnswers := subjectCorrectAnswers s;
     subjectTotalQuestions := subjectTotalQuestions s;
     awardedQuestions := awardedQuestions s; awardedBonuses := awardedBonuses s;
     canClaimCompletionBonus := canClaimCompletionBonus s;
     hasClaimedBonus := hasClaimedBonus s |}.

Definition updCorrectAnswers (f : nat → nat) (s : State) : State :=
  {| currentSubjectIndex := currentSubjectIndex s;
     currentTaskIndex := currentTaskIndex s; selectedAnswer := selectedAnswer s;
     currentPage := currentPage s; reminders := reminders s;
     isLoading := isLoading s; error := error s;
     totalCoinsEarned := totalCoinsEarned s; correctAnswers := f (correctAnswers s);
     totalQuestions := totalQuestions s;
     subjectCorrectAnswers := subjectCorrectAnswers s;
     subjectTotalQuestions := subjectTotalQuestions s;
     awardedQuestions := awardedQuestions s; awardedBonuses := awardedBonuses s;
     canClaimCompletionBonus := canClaimCompletionBonus s;
     hasClaimedBonus := hasClaimedBonus s |}.

Definition updTotalQuestions (f : nat → nat) (s : State) : State :=
  {| currentSubjectIndex := currentSubjectIndex s;
     currentTaskIndex := currentTaskIndex s; selectedAnswer := selectedAnswer s;
     currentPage := currentPage s; reminders := reminders s;
     isLoading := isLoading s; error := error s;
     totalCoinsEarned := totalCoinsEarned s; correctAnswers := correctAnswers s;
     totalQuestions := f (totalQuestions s);
     subjectCorrectAnswers := subjectCorrectAnswers s;
     subjectTotalQuestions := subjectTotalQuestions s;
     awardedQuestions := awardedQuestions s; awardedBonuses := awardedBonuses s;
     canClaimCompletionBonus := canClaimCompletionBonus s;
     hasClaimedBonus := hasClaimedBonus s |}.

Definition updSubjectCorrectAnswers
    (f : gmap string nat → gmap string nat) (s : State) : State :=
  {| currentSubjectIndex := currentSubjectIndex s;
     currentTaskIndex := currentTaskIndex s; selectedAnswer := selectedAnswer s;
     currentPage := currentPage s; reminders := reminders s;
     isLoading := isLoading s; error := error s;
     totalCoinsEarned := totalCoinsEarned s; correctAnswers := correctAnswers s;
     totalQuestions := totalQuestions s;
     subjectCorrectAnswers := f (subjectCorrectAnswers s);
     subjectTotalQuestions := subjectTotalQuestions s;
     awardedQuestions := awardedQuestions s; awardedBonuses := awardedBonuses s;
     canClaimCompletionBonus := canClaimCompletionBonus s;
     hasClaimedBonus := hasClaimedBonus s |}.

Definition updSubjectTotalQuestions
    (f : gmap string nat → gmap string nat) (s : State) : State :=
  {| currentSubjectIndex := currentSubjectIndex s;
     currentTaskIndex := currentTaskIndex s; selectedAnswer := selectedAnswer s;
     currentPage := currentPage s; reminders := reminders s;
     isLoading := isLoading s; error := error s;
     totalCoinsEarned := totalCoinsEarned s; correctAnswers := correctAnswers s;
     totalQuestions := totalQuestions s;
     subjectCorrectAnswers := subjectCorrectAnswers s;
     subjectTotalQuestions := f (subjectTotalQuestions s);
     awardedQuestions := awardedQuestions s; awardedBonuses := awardedBonuses s;
     canClaimCompletionBonus := canClaimCompletionBonus s;
     hasClaimedBonus := hasClaimedBonus s |}.

Definition updAwardedQuestions (f : gset string → gset string) (s : State) : State :=
  {| currentSubjectIndex := currentSubjectIndex s;
     currentTaskIndex := currentTaskIndex s; selectedAnswer := selectedAnswer s;
     currentPage := currentPage s; reminders := reminders s;
     isLoading := isLoading s; error := error s;
     totalCoinsEarned := totalCoinsEarned s; correctAnswers := correctAnswers s;
     totalQuestions := totalQuestions s;
     subjectCorrectAnswers := subjectCorrectAnswers s;
     subjectTotalQuestions := subjectTotalQuestions s;
     awardedQuestions := f (awardedQuestions s); awardedBonuses := awardedBonuses s;
     canClaimCompletionBonus := canClaimCompletionBonus s;
     hasClaimedBonus := hasClaimedBonus s |}.

Definition updAwardedBonuses (f : gset string → gset string) (s : State) : State :=
  {| currentSubjectIndex := currentSubjectIndex s;
     currentTaskIndex := currentTaskIndex s; selectedAnswer := selectedAnswer s;
     currentPage := currentPage s; reminders := reminders s;
     isLoading := isLoading s; error := error s;
     totalCoinsEarned := totalCoinsEarned s; correctAnswers := correctAnswers s;
     totalQuestions := totalQuestions s;
     subjectCorrectAnswers := subjectCorrectAnswers s;
     subjectTotalQuestions := subjectTotalQuestions s;
     awardedQuestions := awardedQuestions s; awardedBonuses := f (awardedBonuses s);
     canClaimCompletionBonus := canClaimCompletionBonus s;
     hasClaimedBonus := hasClaimedBonus s |}.

Definition updCanClaimCompletionBonus (f : bool → bool) (s : State) : State :=
  {| currentSubjectIndex := currentSubjectIndex s;
     currentTaskIndex := currentTaskIndex s; selectedAnswer := selectedAnswer s;
     currentPage := currentPage s; reminders := reminders s;
     isLoading := isLoading s; error := error s;
     totalCoinsEarned := totalCoinsEarned s; correctAnswers := correctAnswers s;
     totalQuestions := totalQuestions s;
     subjectCorrectAnswers := subjectCorrectAnswers s;
     subjectTotalQuestions := subjectTotalQuestions s;
     awardedQuestions := awardedQuestions s; awardedBonuses := awardedBonuses s;
     canClaimCompletionBonus := f (canClaimCompletionBonus s);
     hasClaimedBonus := hasClaimedBonus s |}.

Definition updHasClaimedBonus (f : bool → bool) (s : State) : State :=
  {| currentSubjectIndex := currentSubjectIndex s;
     currentTaskIndex := currentTaskIndex s; selectedAnswer := selectedAnswer s;
     currentPage := currentPage s; reminders := reminders s;
     isLoading := isLoading s; error := error s;
     totalCoinsEarned := totalCoinsEarned s; correctAnswers := correctAnswers s;
     totalQuestions := totalQuestions s;
     subjectCorrectAnswers := subjectCorrectAnswers s;
     subjectTotalQuestions := subjectTotalQuestions s;
     awardedQuestions := awardedQuestions s; awardedBonuses := awardedBonuses s;
     canClaimCompletionBonus := canClaimCompletionBonus s;
     hasClaimedBonus := f (hasClaimedBonus s) |}.

(** ** JavaScript values *)

(** [Boolean(s)] for a string: only the empty string is falsy. *)
Definition truthy (s : string) : Prop := s ≠ EmptyString.

#[global] Instance truthy_dec s : Decision (truthy s).
Proof. unfold truthy. apply _. Defined.

(** A [string | undefined] used as a condition. *)
Definition whenTruthy (o : option string) : option string :=
  match o with
  | Some s => if decide (truthy s) then Some s else None
  | None => None
  end.

(** [x || d] for an optional string. *)
Definition orElse (o : option string) (d : string) : string :=
  match whenTruthy o with Some s => s | None => d end.

(** [new Set(xs)] keeps the first occurrence of every element, in insertion
    order; [Array.from] reads it back in that order. *)
Definition Set_add (acc : list string) (x : string) : list string :=
  if decide (x ∈ acc) then acc else acc ++ [x].

Definition Array_from_Set (xs : list string) : list string :=
  foldl Set_add [] xs.

(** ** Subject-set resolution (lines 42-53) *)

Definition allUniqueSubjects (ls : list Lesson) : list string :=
  filter truthy (Array_from_Set (subject <$> ls)).

Definition subjectsToDisplay (p : Props) : list string :=
  if decide (0 < length (selectedSubjects p))
  then filter (λ s, s ∈ allUniqueSubjects (lessons p)) (selectedSubjects p)
  else allUniqueSubjects (lessons p).

(** The resolution as the specification words it: the selection filtered to
    the subjects of the lesson set, or else the subjects of the lessons with
    duplicates removed, first occurrence first. *)
Fixpoint firstOccurrences (xs : list string) : list string :=
  match xs with
  | [] => []
  | x :: rest => x :: filter (λ y, y ≠ x) (firstOccurrences rest)
  end.

Definition resolveSubjects_spec (selected : list string) (ls : list Lesson)
    : list string :=
  match selected with
  | [] => firstOccurrences (subject <$> ls)
  | _ => filter (λ s, s ∈ subject <$> ls) selected
  end.

(** ** Values derived at render (lines 55-57) *)

Definition currentSubject (p : Props) (s : State) : option string :=
  subjectsToDisplay p !! currentSubjectIndex s.

Definition currentReminder (p : Props) (s : State) : option ReminderResponse :=
  match whenTruthy (currentSubject p s) with
  | Some subj => reminders s !! subj
  | None => None
  end.

Definition currentTask (p : Props) (s : State) : option Task :=
  match currentReminder p s with
  | Some r => tasks r !! currentTaskIndex s
  | None => None
  end.

(** [currentReminder?.tasks.length || 0] *)
Definition currentTaskCount (p : Props) (s : State) : nat :=
  match currentReminder p s with
  | Some r => length (tasks r)
  | None => 0
  end.

(** The signed-in user: [username] when it is a non-empty string. *)
Definition signedIn (p : Props) : option string := whenTruthy (username p).

(** The template literal
    [`${currentSubject}-${currentTaskIndex}-${currentTask.question}`]. *)
Definition questionKey (subj : string) (taskIndex : nat) (q : string) : string :=
  subj +:+ "-" +:+ pretty taskIndex +:+ "-" +:+ q.

(** [`perfect-${currentSubject}`] *)
Definition perfectScoreBonusKey (subj : string) : string := "perfect-" +:+ subj.

(** ** The collaborators *)

(** The result of awaiting a promise. *)
Inductive Reply (A : Type) :=
| Resolved (a : A)
| Rejected.
Arguments Resolved {A} a.
Arguments Rejected {A}.

(** What [claimCompletionBonus] resolves to, as the screen reads it. *)
Record ClaimResult := {
  success : bool;
  coins : option nat;
  message : option string
}.

(** The Reward Ledger of [utils/database], as the screen calls it.  The
    module is not part of the sources; the screen's handlers are parametric
    in any implementation of these five calls. *)
Class RewardLedger (L : Type) := {
  addCoins : string → nat → L → Reply nat * L;
  markSubjectCompleted : string → string → L → Reply unit * L;
  areAllDailyTasksCompleted : string → nat → L → Reply bool * L;
  hasClaimedCompletionBonusToday : string → L → Reply bool * L;
  claimCompletionBonus : string → L → Reply ClaimResult * L
}.

(** What [generateRemindersForSubjects] settles to; a rejection carries the
    [message] of the error, if it has one. *)
Inductive FetchOutcome :=
| FetchResolved (rs : gmap string ReminderResponse)
| FetchRejected (msg : option string).

Record LessonSummary := {
  ls_subject : string;
  ls_topic : string;
  ls_homework : string;
  ls_date : string
}.

Definition ContentProvider : Type :=
  list string → list LessonSummary → FetchOutcome.

(** ** Calls that leave the component *)

(** Which award an [addCoins] call belongs to. *)
Inductive AwardFor :=
| ForQuestion (key : string)
| ForPerfectScore (bonusKey : string).

Inductive Event :=
| CallFetch (subjects : list string)
| CallAddCoins (user : string) (delta : nat) (why : AwardFor) (r : Reply nat)
| CallMarkSubjectCompleted (user subj : string) (r : Reply unit)
| CallAreAllDailyTasksCompleted (user : string) (expected : nat) (r : Reply bool)
| CallHasClaimedCompletionBonusToday (user : string) (r : Reply bool)
| CallClaimCompletionBonus (user : string) (r : Reply ClaimResult)
| NotifyCoinsUpdated (total : nat)
| ConsoleWarn (text : string)
| ConsoleError (text : string)
| AlertShown (title body : string)
| Closed.

(** ** The monad of handlers *)

Record World (L : Type) := {
  st : State;
  ledger : L;
  trace : list Event
}.
Arguments st {L} _.
Arguments ledger {L} _.
Arguments trace {L} _.

(** A handler returns ([Some]) or throws ([None]); the world it leaves is
    kept either way. *)
Definition M (L A : Type) : Type := World L → option A * World L.

#[global] Instance M_ret L : MRet (M L) := λ A a w, (Some a, w).

#[global] Instance M_bind L : MBind (M L) := λ A B k m w,
  match m w with
  | (Some a, w') => k a w'
  | (None, w') => (None, w')
  end.

(** [try { body } catch { handler }] *)
Definition try_catch {L A} (body : M L A) (handler : M L A) : M L A := λ w,
  match body w with
  | (Some a, w') => (Some a, w')
  | (None, w') => handler w'
  end.

Definition update {L} (f : State → State) : M L unit := λ w,
  (Some tt, {| st := f (st w); ledger := ledger w; trace := trace w |}).

Definition emit {L} (e : Event) : M L unit := λ w,
  (Some tt, {| st := st w; ledger := ledger w; trace := trace w ++ [e] |}).

(** [await call], recorded in the trace with its reply. *)
Definition await {L A} (call : L → Reply A * L) (record : Reply A → Event)
    : M L A := λ w,
  let '(r, l') := call (ledger w) in
  let w' := {| st := st w; ledger := l'; trace := trace w ++ [record r] |} in
  match r with
  | Resolved a => (Some a, w')
  | Rejected => (None, w')
  end.

Definition when {L} (b : bool) (m : M L unit) : M L unit :=
  if b then m else mret tt.

(** The setters of the hooks. *)
Definition setCurrentSubjectIndex {L} (v : nat) : M L unit :=
  update (updCurrentSubjectIndex (λ _, v)).
Definition setCurrentTaskIndex {L} (v : nat) : M L unit :=
  update (updCurrentTaskIndex (λ _, v)).
Definition setSelectedAnswer {L} (v : option Z) : M L unit :=
  update (updSelectedAnswer (λ _, v)).
Definition setCurrentPage {L} (v : Page) : M L unit :=
  update (updCurrentPage (λ _, v)).
Definition setReminders {L} (v : gmap string ReminderResponse) : M L unit :=
  update (updReminders (λ _, v)).
Definition setIsLoading {L} (v : bool) : M L unit :=
  update (updIsLoading (λ _, v)).
Definition setError {L} (v : option string) : M L unit :=
  update (updError (λ _, v)).
Definition setTotalCoinsEarned {L} (f : nat → nat) : M L unit :=
  update (updTotalCoinsEarned f).
Definition setCorrectAnswers {L} (f : nat → nat) : M L unit :=
  update (updCorrectAnswers f).
Definition setTotalQuestions {L} (f : nat → nat) : M L unit :=
  update (updTotalQuestions f).
Definition setSubjectCorrectAnswers {L} (v : gmap string nat) : M L unit :=
  update (updSubjectCorrectAnswers (λ _, v)).
Definition setSubjectTotalQuestions {L} (v : gmap string nat) : M L unit :=
  update (updSubjectTotalQuestions (λ _, v)).
Definition setAwardedQuestions {L} (f : gset string → gset string) : M L unit :=
  update (updAwardedQuestions f).
Definition setAwardedBonuses {L} (f : gset string → gset string) : M L unit :=
  update (updAwardedBonuses f).
Definition setCanClaimCompletionBonus {L} (v : bool) : M L unit :=
  update (updCanClaimCompletionBonus (λ _, v)).
Definition setHasClaimedBonus {L} (v : bool) : M L unit :=
  update (updHasClaimedBonus (λ _, v)).

(** ** The handlers of the screen *)

Section Handlers.
Context {L : Type} `{!RewardLedger L}.
Variable p : Props.
Variable generateRemindersForSubjects : ContentProvider.

Definition noSubjectsMessage : string := "No subjects available for reminders".

Definition fetchFailedMessage : string :=
  "Failed to generate reminders. Make sure your Google Gemini API key is configured.".

(** [loadReminders] (lines 73-104).  The [finally] clause runs on every
    path out of the [try], the early [return] included. *)
Definition loadReminders : M L unit :=
  setIsLoading true;;
  setError None;;
  (let allUnique :=
     filter truthy (Array_from_Set (subject <$> lessons p)) in
   let subjectsToRemind :=
     if decide (0 < length (selectedSubjects p))
     then filter (λ s, s ∈ allUnique) (selectedSubjects p)
     else allUnique in
   if decide (length subjectsToRemind = 0) then
     setError (Some noSubjectsMessage);;
     setIsLoading false
   else
     let subjectLessons :=
       (λ l, {| ls_subject := subject l;
                ls_topic := orElse (topic l) EmptyString;
                ls_homework := orElse (homework l) EmptyString;
                ls_date := date l |}) <$> lessons p in
     emit (CallFetch subjectsToRemind);;
     match generateRemindersForSubjects subjectsToRemind subjectLessons with
     | FetchResolved generatedReminders => setReminders generatedReminders
     | FetchRejected msg =>
         emit (ConsoleError "Error loading reminders:");;
         setError (Some (orElse msg fetchFailedMessage))
     end);;
  setIsLoading false.

(** The effect on [selectedSubjects, lessons] (lines 59-71). *)
Definition startSession : M L unit :=
  setTotalCoinsEarned (λ _, 0);;
  setCorrectAnswers (λ _, 0);;
  setTotalQuestions (λ _, 0);;
  setSubjectCorrectAnswers ∅;;
  setSubjectTotalQuestions ∅;;
  setAwardedQuestions (λ _, ∅);;
  setAwardedBonuses (λ _, ∅);;
  setCanClaimCompletionBonus false;;
  setHasClaimedBonus false;;
  loadReminders.

Definition coinsFor (isCorrect : bool) : nat := if isCorrect then 10 else 5.

(** [awardCoins] (lines 106-137), with the render's state [s]. *)
Definition awardCoins (s : State) (isCorrect : bool) (key : string) : M L unit :=
  match signedIn p with
  | None => mret tt
  | Some user =>
      if decide (key ∈ awardedQuestions s) then
        emit (ConsoleWarn "Coins already awarded for this question, skipping...")
      else
        let coinsToAward := coinsFor isCorrect in
        setTotalCoinsEarned (λ prev, prev + coinsToAward);;
        setAwardedQuestions (λ prev, prev ∪ {[key]});;
        try_catch
          (newCoins ← await (addCoins user coinsToAward)
                            (CallAddCoins user coinsToAward (ForQuestion key));
           when (onCoinsUpdated p) (emit (NotifyCoinsUpdated newCoins)))
          (emit (ConsoleError "Error awarding coins:"))
  end.

(** [handleAnswerSelect] (lines 139-168). *)
Definition handleAnswerSelect (s : State) (answerIndex : Z) : M L unit :=
  match selectedAnswer s, currentTask p s, whenTruthy (currentSubject p s) with
  | None, Some tk, Some subj =>
      let key := questionKey subj (currentTaskIndex s) (question tk) in
      setSelectedAnswer (Some answerIndex);;
      let isCorrect := bool_decide (answerIndex = correctAnswer tk) in
      awardCoins s isCorrect key;;
      when isCorrect (setCorrectAnswers (λ prev, prev + 1));;
      setTotalQuestions (λ prev, prev + 1);;
      let currentSubjectCorrect := default 0 (subjectCorrectAnswers s !! subj) in
      let currentSubjectTotal := default 0 (subjectTotalQuestions s !! subj) in
      when isCorrect
        (setSubjectCorrectAnswers
           (<[subj := currentSubjectCorrect + 1]> (subjectCorrectAnswers s)));;
      setSubjectTotalQuestions
        (<[subj := currentSubjectTotal + 1]> (subjectTotalQuestions s));;
      setCurrentPage explanation
  | _, _, _ => mret tt
  end.

(** [currentTaskIndex < (currentReminder?.tasks.length || 0) - 1] *)
Definition moreTasksRemain (s : State) : bool :=
  bool_decide (Z.of_nat (currentTaskIndex s)
               < Z.of_nat (currentTaskCount p s) - 1)%Z.

(** [currentSubjectIndex < subjectsToDisplay.length - 1] *)
Definition moreSubjectsRemain (s : State) : bool :=
  bool_decide (Z.of_nat (currentSubjectIndex s)
               < Z.of_nat (length (subjectsToDisplay p)) - 1)%Z.

(** The condition of the perfect-score bonus (line 195). *)
Definition perfectScore (s : State) (subj : string) : bool :=
  bool_decide (default 0 (subjectTotalQuestions s !! subj) = 3)
  && bool_decide (default 0 (subjectCorrectAnswers s !! subj) = 3)
  && bool_decide (length ∘ tasks <$> currentReminder p s = Some 3)
  && bool_decide (perfectScoreBonusKey subj ∉ awardedBonuses s).

(** Lines 186-205: the side effects of finishing a subject. *)
Definition subjectDone (s : State) : M L unit :=
  match whenTruthy (currentSubject p s), signedIn p with
  | Some subj, Some user =>
      await (markSubjectCompleted user subj)
            (CallMarkSubjectCompleted user subj);;
      if perfectScore s subj then
        setAwardedBonuses (λ prev, prev ∪ {[perfectScoreBonusKey subj]});;
        newCoins ← await (addCoins user 20)
                         (CallAddCoins user 20
                            (ForPerfectScore (perfectScoreBonusKey subj)));
        setTotalCoinsEarned (λ prev, prev + 20);;
        when (onCoinsUpdated p) (emit (NotifyCoinsUpdated newCoins))
      else mret tt
  | _, _ => mret tt
  end.

(** Lines 213-227: the last subject is done. *)
Definition sessionDone : M L unit :=
  match signedIn p with
  | Some user =>
      if decide (0 < length (subjectsToDisplay p)) then
        allCompleted ←
          await (areAllDailyTasksCompleted user (length (subjectsToDisplay p)))
                (CallAreAllDailyTasksCompleted user
                   (length (subjectsToDisplay p)));
        if (allCompleted : bool) then
          alreadyClaimed ←
            await (hasClaimedCompletionBonusToday user)
                  (CallHasClaimedCompletionBonusToday user);
          setCanClaimCompletionBonus (negb alreadyClaimed)
        else setCanClaimCompletionBonus false
      else mret tt
  | None => mret tt
  end;;
  setCurrentPage completion.

(** [handleNext] (lines 170-230). *)
Definition handleNext (s : State) : M L unit :=
  match currentPage s with
  | theory1 => setCurrentPage theory2
  | theory2 =>
      setCurrentTaskIndex 0;;
      setSelectedAnswer None;;
      setCurrentPage task
  | explanation =>
      if moreTasksRemain s then
        setCurrentTaskIndex (currentTaskIndex s + 1);;
        setSelectedAnswer None;;
        setCurrentPage task
      else
        subjectDone s;;
        if moreSubjectsRemain s then
          setCurrentSubjectIndex (currentSubjectIndex s + 1);;
          setCurrentTaskIndex 0;;
          setSelectedAnswer None;;
          setCurrentPage theory1
        else sessionDone
  | task | completion => mret tt
  end.

(** [handleBack] (lines 232-252). *)
Definition handleBack (s : State) : M L unit :=
  if decide (currentPage s = task ∧ 0 < currentTaskIndex s) then
    setCurrentTaskIndex (currentTaskIndex s - 1);;
    setSelectedAnswer None;;
    setCurrentPage explanation
  else if decide (currentPage s = explanation) then
    setCurrentPage task;;
    setSelectedAnswer None
  else if decide (currentPage s = theory2) then
    setCurrentPage theory1
  else if decide (currentPage s = theory1 ∧ 0 < currentSubjectIndex s) then
    setCurrentSubjectIndex (currentSubjectIndex s - 1);;
    let prevReminder :=
      subjectsToDisplay p !! (currentSubjectIndex s - 1)
        ≫= λ subj, reminders s !! subj in
    match prevReminder with
    | Some r =>
        if decide (0 < length (tasks r)) then
          setCurrentTaskIndex (length (tasks r) - 1);;
          setCurrentPage explanation
        else setCurrentPage theory2
    | None => setCurrentPage theory2
    end
  else mret tt.

(** The [onPress] of the claim button (lines 355-375). *)
Definition handleClaim : M L unit :=
  match signedIn p with
  | None => mret tt
  | Some user =>
      try_catch
        (result ← await (claimCompletionBonus user)
                        (CallClaimCompletionBonus user);
         match success result, coins result with
         | true, Some total =>
             setHasClaimedBonus true;;
             setTotalCoinsEarned (λ prev, prev + 100);;
             setCanClaimCompletionBonus false;;
             when (onCoinsUpdated p) (emit (NotifyCoinsUpdated total));;
             emit (AlertShown "Bonus Claimed!"
                     "You received 100 coins for completing all daily tasks!")
         | _, _ =>
             emit (AlertShown "Error"
                     (orElse (message result) "Failed to claim bonus"))
         end)
        (emit (ConsoleError "Error claiming bonus:");;
         emit (AlertShown "Error" "Failed to claim bonus"))
  end.

(** *** What the screen renders (lines 254-543) *)

Inductive View :=
| LoadingView
| ErrorView (msg : string)
| NoReminderView
| PageView (page : Page).

Definition view (s : State) : View :=
  if isLoading s then LoadingView
  else match whenTruthy (error s) with
       | Some msg => ErrorView msg
       | None =>
           match currentReminder p s with
           | None => NoReminderView
           | Some _ => PageView (currentPage s)
           end
       end.

Inductive Button :=
| CloseButton
| OptionButton (index : nat)
| NextButton
| BackButton
| ClaimButton.

(** Whether the button is on the screen and not disabled. *)
Definition pressable (s : State) (b : Button) : bool :=
  match view s, b with
  | LoadingView, _ => false
  | (ErrorView _ | NoReminderView), CloseButton => true
  | (ErrorView _ | NoReminderView), _ => false
  | PageView _, CloseButton => true
  | PageView pg, OptionButton i =>
      bool_decide (pg = task)
      && match currentTask p s with
         | Some tk => bool_decide (i < length (options tk))
         | None => false
         end
      && bool_decide (selectedAnswer s = None)
  | PageView pg, NextButton =>
      bool_decide (pg ≠ completion) && bool_decide (pg ≠ task)
  | PageView pg, BackButton =>
      bool_decide (pg ≠ completion)
      && (bool_decide (pg = theory2) || bool_decide (pg = explanation))
  | PageView pg, ClaimButton =>
      bool_decide (pg = completion)
      && canClaimCompletionBonus s && negb (hasClaimedBonus s)
  end.

(** A press runs the handler of the button with the state of the render. *)
Definition press (b : Button) : M L unit := λ w,
  let s := st w in
  if pressable s b then
    match b with
    | CloseButton => emit Closed w
    | OptionButton i => handleAnswerSelect s (Z.of_nat i) w
    | NextButton => handleNext s w
    | BackButton => handleBack s w
    | ClaimButton => handleClaim w
    end
  else (Some tt, w).

(** *** The entry points of the session controller *)

Definition submitAnswer (optionIndex : nat) : M L unit :=
  press (OptionButton optionIndex).

(** A handler invoked directly, whatever the screen shows. *)
Inductive Action :=
| Answer (answerIndex : Z)
| Next
| Back
| Claim.

Definition invoke (a : Action) : M L unit := λ w,
  match a with
  | Answer i => handleAnswerSelect (st w) i w
  | Next => handleNext (st w) w
  | Back => handleBack (st w) w
  | Claim => handleClaim w
  end.

(** Handlers run one after the other; a handler that threw leaves the
    world it reached. *)
Definition after {A} (m : M L A) (w : World L) : World L := (m w).2.

Definition invokeAll (acts : list Action) (w : World L) : World L :=
  foldl (λ w a, after (invoke a) w) w acts.

Definition pressAll (bs : list Button) (w : World L) : World L :=
  foldl (λ w b, after (press b) w) w bs.

(** The world when the component mounts, and once the effect has run. *)
Definition mounted (l : L) : World L :=
  {| st := initialState; ledger := l; trace := [] |}.

Definition started (l : L) : World L := after startSession (mounted l).

End Handlers.

#[global] Instance Action_eq_dec : EqDecision Action.
Proof. solve_decision. Defined.

(** ** Observations on a world *)

(** Where the session is. *)
Definition position (s : State) : nat * nat * option Z * Page :=
  (currentSubjectIndex s, currentTaskIndex s, selectedAnswer s, currentPage s).

(** The counters of the session. *)
Definition counters (s : State)
    : nat * nat * gmap string nat * gmap string nat :=
  (correctAnswers s, totalQuestions s,
   subjectCorrectAnswers s, subjectTotalQuestions s).

(** The coin side of the session. *)
Definition rewards (s : State) : nat * gset string * gset string * bool * bool :=
  (totalCoinsEarned s, awardedQuestions s, awardedBonuses s,
   canClaimCompletionBonus s, hasClaimedBonus s).

(** What the fetch left. *)
Definition loaded (s : State)
    : gmap string ReminderResponse * bool * option string :=
  (reminders s, isLoading s, error s).

(** The events a computation added to the trace. *)
Definition emitted {L A} (m : M L A) (w : World L) : list Event :=
  drop (length (trace w)) (trace (m w).2).


Definition isQuestionAward (key : string) (e : Event) : bool :=
  match e with
  | CallAddCoins _ _ (ForQuestion k) _ => bool_decide (k = key)
  | _ => false
  end.

Definition isPerfectScoreAward (bonusKey : string) (e : Event) : bool :=
  match e with
  | CallAddCoins _ _ (ForPerfectScore k) _ => bool_decide (k = bonusKey)
  | _ => false
  end.

Definition isAddCoins (e : Event) : bool :=
  match e with CallAddCoins _ _ _ _ => true | _ => false end.

Definition isFetch (e : Event) : bool :=
  match e with CallFetch _ => true | _ => false end.

Definition isClaimCall (e : Event) : bool :=
  match e with CallClaimCompletionBonus _ _ => true | _ => false end.

(** A claim that the ledger granted. *)
Definition isGrantedClaim (user : string) (e : Event) : bool :=
  match e with
  | CallClaimCompletionBonus u (Resolved r) =>
      bool_decide (u = user) && success r && bool_decide (is_Some (coins r))
  | _ => false
  end.

(** A ledger call that rejected. *)
Definition isRejectedCall (e : Event) : bool :=
  match e with
  | CallAddCoins _ _ _ Rejected
  | CallMarkSubjectCompleted _ _ Rejected
  | CallAreAllDailyTasksCompleted _ _ Rejected
  | CallHasClaimedCompletionBonusToday _ Rejected
  | CallClaimCompletionBonus _ Rejected => true
  | _ => false
  end.

Definition count (f : Event → bool) (tr : list Event) : nat :=
  length (filter (λ e, f e = true) tr).
Arguments count : simpl never.

(** ** A Reward Ledger to run the screen against *)

(** Modelled from the spec: the Reward Ledger (the [utils/database] module
    is not among the sources).  Section 4.3 gives its contract: [addCoins]
    returns the new total; [markSubjectCompleted] is idempotent;
    [areAllDailyTasksCompleted] compares the subjects completed with the
    expected count; [claimCompletionBonus] grants the +100 bonus and marks the
    day's bonus as claimed, and succeeds once per calendar day whatever the
    client believes.  One value of [DayLedger] is the ledger during one
    calendar day. *)
Record DayLedger := {
  balance : gmap string nat;
  completedToday : gmap string (gset string);
  claimedToday : gset string
}.

Definition emptyLedger : DayLedger :=
  {| balance := ∅; completedToday := ∅; claimedToday := ∅ |}.

Definition coinsOf (user : string) (l : DayLedger) : nat :=
  default 0 (balance l !! user).

Definition completedBy (user : string) (l : DayLedger) : gset string :=
  default ∅ (completedToday l !! user).

Definition ledger_addCoins (user : string) (delta : nat) (l : DayLedger)
    : Reply nat * DayLedger :=
  let total := coinsOf user l + delta in
  (Resolved total,
   {| balance := <[user := total]> (balance l);
      completedToday := completedToday l;
      claimedToday := claimedToday l |}).

Definition ledger_markSubjectCompleted (user subj : string) (l : DayLedger)
    : Reply unit * DayLedger :=
  (Resolved tt,
   {| balance := balance l;
      completedToday := <[user := completedBy user l ∪ {[subj]}]> (completedToday l);
      claimedToday := claimedToday l |}).

Definition ledger_areAllDailyTasksCompleted (user : string) (expected : nat)
    (l : DayLedger) : Reply bool * DayLedger :=
  (Resolved (bool_decide (expected ≤ size (completedBy user l))), l).

Definition ledger_hasClaimedCompletionBonusToday (user : string) (l : DayLedger)
    : Reply bool * DayLedger :=
  (Resolved (bool_decide (user ∈ claimedToday l)), l).

Definition ledger_claimCompletionBonus (user : string) (l : DayLedger)
    : Reply ClaimResult * DayLedger :=
  if decide (user ∈ claimedToday l) then
    (Resolved {| success := false; coins := None;
                 message := Some "Bonus already claimed today" |}, l)
  else
    let total := coinsOf user l + 100 in
    (Resolved {| success := true; coins := Some total; message := None |},
     {| balance := <[user := total]> (balance l);
        completedToday := completedToday l;
        claimedToday := claimedToday l ∪ {[user]} |}).

#[global] Instance DayLedger_RewardLedger : RewardLedger DayLedger := {|
  addCoins := ledger_addCoins;
  markSubjectCompleted := ledger_markSubjectCompleted;
  areAllDailyTasksCompleted := ledger_areAllDailyTasksCompleted;
  hasClaimedCompletionBonusToday := ledger_hasClaimedCompletionBonusToday;
  claimCompletionBonus := ledger_claimCompletionBonus
|}.

(** A ledger that cannot be reached: every call rejects. *)
Inductive Offline := offline.

#[global] Instance Offline_RewardLedger : RewardLedger Offline := {|
  addCoins := λ _ _ l, (Rejected, l);
  markSubjectCompleted := λ _ _ l, (Rejected, l);
  areAllDailyTasksCompleted := λ _ _ l, (Rejected, l);
  hasClaimedCompletionBonusToday := λ _ l, (Rejected, l);
  claimCompletionBonus := λ _ l, (Rejected, l)
|}.

(** ** A session to run *)

Definition mkTask (q : string) (right : Z) : Task :=
  {| difficulty := easy; question := q; options := ["a"; "b"; "c"; "d"];
     correctAnswer := right; explanation_text := "because" |}.

Definition mkReminder (ts : list Task) : ReminderResponse :=
  {| theory := {| content := "one two three"; keyPoints := ["k"] |};
     tasks := ts |}.

Definition mkLesson (subj : string) : Lesson :=
  {| subject := subj; topic := None; homework := Some "p. 12"; date := "Mon" |}.

Definition demoLessons : list Lesson :=
  [mkLesson "A"; mkLesson "B"; mkLesson "A"; mkLesson "C"].

Definition demoReminders : gmap string ReminderResponse :=
  <["A" := mkReminder [mkTask "q1" 1; mkTask "q2" 0; mkTask "q3" 2]]>
  (<["B" := mkReminder [mkTask "r1" 1; mkTask "r2" 1; mkTask "r3" 1]]>
  (<["C" := mkReminder [mkTask "s1" 3]]> ∅)).

Definition demoProvider : ContentProvider := λ _ _, FetchResolved demoReminders.

Definition failingProvider : ContentProvider :=
  λ _ _, FetchRejected (Some "Network request failed").

Definition demoProps : Props :=
  {| selectedSubjects := []; lessons := demoLessons;
     username := Some "juris"; onCoinsUpdated := true |}.

(** The same session with nobody signed in. *)
Definition guestProps : Props :=
  {| selectedSubjects := []; lessons := demoLessons;
     username := None; onCoinsUpdated := true |}.

Definition demoStart : World DayLedger :=
  started demoProps demoProvider emptyLedger.

(** The lessons that name a subject: [filter(s => s)] drops the others. *)
Definition namedLessons (ls : list Lesson) : list Lesson :=
  filter (λ l, truthy (subject l)) ls.

(** A lesson list with an unnamed lesson in it. *)
Definition unnamedProps : Props :=
  {| selectedSubjects := []; lessons := [mkLesson EmptyString; mkLesson "A"];
     username := Some "juris"; onCoinsUpdated := false |}.

(** The number of tasks of the subject at [subjectIndex]; none when the
    subject or its reminder is missing. *)
Definition taskCountOf (p : Props) (s : State) (subjectIndex : nat) : nat :=
  match subjectsToDisplay p !! subjectIndex ≫= λ subj, reminders s !! subj with
  | Some r => length (tasks r)
  | None => 0
  end.

(** The award as C2 words it: a submission that is accepted awards 10 coins
    when the answer is right and 5 when it is wrong. *)
Definition awardsOnAcceptance `{!RewardLedger L} (p : Props) (w : World L)
    (i : nat) : Prop :=
  pressable p (st w) (OptionButton i) = true →
  ∃ tk, currentTask p (st w) = Some tk
        ∧ totalCoinsEarned (st (after (submitAnswer p i) w))
          = totalCoinsEarned (st w)
            + coinsFor (bool_decide (Z.of_nat i = correctAnswer tk)).

(** The first question of the demo session was answered (rightly) and the
    user went back to it. *)
Definition afterRetreat : World DayLedger :=
  pressAll demoProps
    [NextButton; NextButton; OptionButton 1; BackButton] demoStart.

(** The first task of the demo session. *)
Definition onFirstTask : World DayLedger :=
  pressAll demoProps [NextButton; NextButton] demoStart.

(** The demo session with the ledger out of reach, on its first task. *)
Definition offlineOnTask : World Offline :=
  pressAll demoProps [NextButton; NextButton]
    (started demoProps demoProvider offline).

(** Subject "A" of the demo session answered 3/3 and left. *)
Definition perfectRun : World DayLedger :=
  pressAll demoProps
    [NextButton; NextButton; OptionButton 1; NextButton; OptionButton 0;
     NextButton; OptionButton 2; NextButton] demoStart.

(** The same, with the first question submitted twice. *)
Definition retakenRun : World DayLedger :=
  pressAll demoProps
    [NextButton; NextButton; OptionButton 1; BackButton; OptionButton 1;
     NextButton; OptionButton 0; NextButton; OptionButton 2; NextButton]
    demoStart.

(** Every question award in the trace is recorded in [awardedQuestions],
    and no key has more than one. *)
Definition questionsAccounted {L} (w : World L) : Prop :=
  ∀ key,
    count (isQuestionAward key) (trace w) ≤ 1
    ∧ (key ∉ awardedQuestions (st w) → count (isQuestionAward key) (trace w) = 0).

(** The same for the perfect-score bonuses and [awardedBonuses]. *)
Definition bonusesAccounted {L} (w : World L) : Prop :=
  ∀ bonusKey,
    count (isPerfectScoreAward bonusKey) (trace w) ≤ 1
    ∧ (bonusKey ∉ awardedBonuses (st w)
       → count (isPerfectScoreAward bonusKey) (trace w) = 0).

(** What one handler adds to the trace and to the guard sets. *)
Definition stepSummary {L} (w w' : World L) : Prop :=
  ∃ evs,
    trace w' = trace w ++ evs
    ∧ awardedQuestions (st w) ⊆ awardedQuestions (st w')
    ∧ awardedBonuses (st w) ⊆ awardedBonuses (st w')
    ∧ (∀ key,
         (count (isQuestionAward key) evs ≤ 1)
         ∧ (0 < count (isQuestionAward key) evs →
            (key ∉ awardedQuestions (st w)) ∧ (key ∈ awardedQuestions (st w'))))
    ∧ (∀ bonusKey,
         (count (isPerfectScoreAward bonusKey) evs ≤ 1)
         ∧ (0 < count (isPerfectScoreAward bonusKey) evs →
            (bonusKey ∉ awardedBonuses (st w))
            ∧ (bonusKey ∈ awardedBonuses (st w')))).


(** The last explanation of subject "A" in the demo session, all three
    answers right. *)
Definition lastExplanation : World DayLedger :=
  pressAll demoProps
    [NextButton; NextButton; OptionButton 1; NextButton; OptionButton 0;
     NextButton; OptionButton 2] demoStart.


(** The lesson summaries [loadReminders] sends with the subjects. *)
Definition subjectLessons (p : Props) : list LessonSummary :=
  (λ l, {| ls_subject := subject l;
           ls_topic := orElse (topic l) EmptyString;
           ls_homework := orElse (homework l) EmptyString;
           ls_date := date l |}) <$> lessons p.

(** The demo session when the fetch fails. *)
Definition failedStart : World DayLedger :=
  started demoProps failingProvider emptyLedger.

(** The claim flag is never raised for a session without a user or without
    subjects. *)
Definition flagSound {L} (p : Props) (w : World L) : Prop :=
  signedIn p = None ∨ length (subjectsToDisplay p) = 0 →
  canClaimCompletionBonus (st w) = false.

(** What one handler does to the day's claims, for one user. *)
Definition claimSummary (user : string) (w w' : World DayLedger) : Prop :=
  ∃ evs,
    trace w' = trace w ++ evs
    ∧ claimedToday (ledger w) ⊆ claimedToday (ledger w')
    ∧ (count (isGrantedClaim user) evs ≤ 1)
    ∧ (0 < count (isGrantedClaim user) evs →
       (user ∉ claimedToday (ledger w)) ∧ (user ∈ claimedToday (ledger w'))).

(** The sessions of one calendar day, one after the other on the same
    ledger: each is a screen mounted with its props and provider, and the
    handlers invoked on it.  The result is the day's trace and the ledger at
    the end of the day. *)
Fixpoint runDay (sessions : list (Props * ContentProvider * list Action))
    (l : DayLedger) (tr : list Event) : list Event * DayLedger :=
  match sessions with
  | [] => (tr, l)
  | (p, provider, acts) :: rest =>
      let w := invokeAll p acts (started p provider l) in
      runDay rest (ledger w) (tr ++ trace w)
  end.

(** The demo session on its completion page, every subject done. *)
Definition demoCompleted : World DayLedger :=
  pressAll demoProps
    [NextButton; NextButton; OptionButton 1; NextButton; OptionButton 0;
     NextButton; OptionButton 2; NextButton;
     NextButton; NextButton; OptionButton 1; NextButton; OptionButton 1;
     NextButton; OptionButton 1; NextButton;
     NextButton; NextButton; OptionButton 3; NextButton] demoStart.

(** Its last explanation, one press before. *)
Definition demoFinalExplanation : World DayLedger :=
  pressAll demoProps
    [NextButton; NextButton; OptionButton 1; NextButton; OptionButton 0;
     NextButton; OptionButton 2; NextButton;
     NextButton; NextButton; OptionButton 1; NextButton; OptionButton 1;
     NextButton; OptionButton 1; NextButton;
     NextButton; NextButton; OptionButton 3] demoStart.

(** The claim button pressed twice on the completion page of the demo
    session, and a second session of the same day run to its completion
    page with the claim handler invoked again. *)
Definition demoActs : list Action :=
  [Next; Next; Answer 1; Next; Answer 0; Next; Answer 2; Next;
   Next; Next; Answer 1; Next; Answer 1; Next; Answer 1; Next;
   Next; Next; Answer 3; Next; Claim; Claim].

Definition demoDay : list (Props * ContentProvider * list Action) :=
  [(demoProps, demoProvider, demoActs); (demoProps, demoProvider, demoActs)].

(** ** The home page ([HomePage.tsx]) *)

(** [self.indexOf(x)]: the index of the first occurrence, or -1. *)
Fixpoint indexOf (x : string) (self : list string) : Z :=
  match self with
  | [] => -1
  | y :: rest =>
      if decide (y = x) then 0
      else let i := indexOf x rest in
           if decide (i = -1)%Z then (-1)%Z else (i + 1)%Z
  end.

(** [xs.filter((x, index) => f(x, index))], the indices counted from
    [index]. *)
Fixpoint filterFrom (index : nat) (f : string → nat → bool) (xs : list string)
    : list string :=
  match xs with
  | [] => []
  | x :: rest =>
      if f x index then x :: filterFrom (S index) f rest
      else filterFrom (S index) f rest
  end.

(** [getUniqueSubjects] (lines 138-143). *)
Definition getUniqueSubjects (tomorrowLessons : list Lesson) : list string :=
  let self := subject <$> tomorrowLessons in
  filterFrom 0 (λ subj index, bool_decide (indexOf subj self = Z.of_nat index))
    self.

(** A [Set<string>] is the list of its elements in insertion order;
    [delete] takes the element out. *)
Definition Set_delete (acc : list string) (x : string) : list string :=
  filter (λ y, y ≠ x) acc.

(** [toggleSubjectSelection] (lines 153-161). *)
Definition toggleSubjectSelection (selectedSubjects : list string)
    (subj : string) : list string :=
  let newSelected := selectedSubjects in
  if decide (subj ∈ newSelected) then Set_delete newSelected subj
  else Set_add newSelected subj.

(** [handleReminderButton] (lines 164-177): the subjects handed to
    [onShowReminder], or nothing when there is no subject or the optional
    callback was not passed. *)
Definition handleReminderButton (onShowReminder : bool)
    (selectedSubjects : list string) (tomorrowLessons : list Lesson)
    : option (list string) :=
  let subjectsToRemind :=
    if decide (0 < length selectedSubjects) then selectedSubjects
    else getUniqueSubjects tomorrowLessons in
  if decide (length subjectsToRemind = 0) then None
  else if onShowReminder then Some subjectsToRemind
  else None.

(** The props [App] opens the reminder screen with (lines 1045-1069 and
    1099-1113 of [ReminderScreen.tsx], where [App.tsx] follows the screen):
    the subjects the home page handed over, all the lessons of the user, the
    user name and, always, the coin callback. *)
Definition reminderProps (allLessons : list Lesson) (userName : string)
    (subjects : list string) : Props :=
  {| selectedSubjects := subjects; lessons := allLessons;
     username := Some userName; onCoinsUpdated := true |}.

(** The daily progress (lines 146-150). *)
Definition completedCount (completedTasks : list string)
    (tomorrowLessons : list Lesson) : nat :=
  length (filter (λ t, t ∈ getUniqueSubjects tomorrowLessons) completedTasks).

Definition totalTasks (tomorrowLessons : list Lesson) : nat :=
  length (getUniqueSubjects tomorrowLessons).

Definition isAllCompleted (completedTasks : list string)
    (tomorrowLessons : list Lesson) : bool :=
  bool_decide (0 < totalTasks tomorrowLessons)
  && bool_decide (totalTasks tomorrowLessons
                  ≤ completedCount completedTasks tomorrowLessons).

(** ** What the reminder screen renders besides its buttons *)

(** The separator of [content.split(' ')] and [join(' ')]. *)
Definition space : Ascii.ascii :=
  Ascii.Ascii false false false false false true false false.

(** [content.split(' ')]: the pieces between the spaces, the empty ones
    included; the empty string gives one empty piece. *)
Fixpoint splitOnSpace (s : string) : list string :=
  match s with
  | EmptyString => [EmptyString]
  | String c rest =>
      if decide (c = space) then EmptyString :: splitOnSpace rest
      else match splitOnSpace rest with
           | word :: words => String c word :: words
           | [] => [String c EmptyString]
           end
  end.

(** [words.join(' ')] *)
Fixpoint joinWithSpace (words : list string) : string :=
  match words with
  | [] => EmptyString
  | word :: rest =>
      match rest with
      | [] => word
      | _ :: _ => word +:+ String space (joinWithSpace rest)
      end
  end.

(** The two theory pages (lines 299-304). *)
Definition theoryWords (theoryContent : string) : list string :=
  splitOnSpace theoryContent.

(** [Math.ceil(theoryWords.length / 2)] *)
Definition midPoint (theoryContent : string) : nat :=
  (length (theoryWords theoryContent) + 1) / 2.

Definition theoryPage1 (theoryContent : string) : string :=
  joinWithSpace (take (midPoint theoryContent) (theoryWords theoryContent)).

Definition theoryPage2 (theoryContent : string) : string :=
  joinWithSpace (drop (midPoint theoryContent) (theoryWords theoryContent)).

(** Lines 306-307: the verdict and the coins of the explanation page. *)
Definition isCorrectShown (p : Props) (s : State) : bool :=
  match selectedAnswer s, currentTask p s with
  | Some a, Some tk => bool_decide (a = correctAnswer tk)
  | _, _ => false
  end.

Definition coinsForThisAnswer (p : Props) (s : State) : nat :=
  if isCorrectShown p s then 10
  else match selectedAnswer s with Some _ => 5 | None => 0 end.

(** The text of the Next button (lines 527-536): "Next", "Next Question",
    "Next Subject", "Finish" or nothing. *)
Inductive NextText :=
| TextNext
| TextNextQuestion
| TextNextSubject
| TextFinish
| TextNone.

Definition nextButtonText (p : Props) (s : State) : NextText :=
  match currentPage s with
  | theory1 | theory2 => TextNext
  | explanation =>
      if moreTasksRemain p s then TextNextQuestion
      else if moreSubjectsRemain p s then TextNextSubject
      else TextFinish
  | _ => TextNone
  end.


(** ** Observations for the invariants of a session *)

(** The coins an event stands for on the session's counter: the amount of a
    question award as soon as it is issued, the amount of a perfect-score
    award and the 100 of a claim once the ledger has resolved them. *)
Definition earned (e : Event) : nat :=
  match e with
  | CallAddCoins _ delta (ForQuestion _) _ => delta
  | CallAddCoins _ delta (ForPerfectScore _) (Resolved _) => delta
  | CallClaimCompletionBonus _ (Resolved r) =>
      match success r, coins r with
      | true, Some _ => 100
      | _, _ => 0
      end
  | _ => 0
  end.

Definition earnedIn (tr : list Event) : nat :=
  foldr (λ e acc, earned e + acc) 0 tr.

(** The sum of the values of a counter map. *)
Definition sumValues (m : gmap string nat) : nat :=
  map_fold (λ _ v acc, v + acc) 0 m.

(** The position is within the subjects and the tasks. *)
Definition wellPlaced (p : Props) (s : State) : Prop :=
  (currentSubjectIndex s = 0
   ∨ currentSubjectIndex s < length (subjectsToDisplay p))
  ∧ (currentTaskIndex s = 0 ∨ currentTaskIndex s < currentTaskCount p s)
  ∧ (currentPage s = theory1 ∨ currentPage s = theory2
     → currentTaskIndex s = 0)
  ∧ (currentPage s = explanation → is_Some (currentTask p s)).

(** The counters agree with each other. *)
Definition wellCounted (p : Props) (s : State) : Prop :=
  correctAnswers s ≤ totalQuestions s
  ∧ (∀ subj, default 0 (subjectCorrectAnswers s !! subj)
             ≤ default 0 (subjectTotalQuestions s !! subj))
  ∧ totalQuestions s = sumValues (subjectTotalQuestions s)
  ∧ correctAnswers s = sumValues (subjectCorrectAnswers s)
  ∧ (∀ subj, is_Some (subjectTotalQuestions s !! subj)
             → subj ∈ subjectsToDisplay p).

(** Whether a character occurs in a string. *)
Fixpoint hasChar (c : Ascii.ascii) (s : string) : bool :=
  match s with
  | EmptyString => false
  | String d rest => bool_decide (d = c) || hasChar c rest
  end.

(** A session whose first subject came back without tasks. *)
Definition emptyTasksProvider : ContentProvider :=
  λ _ _, FetchResolved (<["A" := mkReminder []]> demoReminders).

(** The separator of the question keys. *)
Definition hyphen : Ascii.ascii :=
  Ascii.Ascii true false true true false true false false.


(** The coins of the session are those of the events of the trace. *)
Definition coinsAccounted {L} (w : World L) : Prop :=
  totalCoinsEarned (st w) = earnedIn (trace w).


(** ** Subject-set resolution *)

Lemma foldl_Set_add (xs acc : list string) :
  foldl Set_add acc xs = acc ++ filter (λ y, y ∉ acc) (firstOccurrences xs).
Proof.
  revert acc. induction xs as [|x rest IH]; intros acc; simpl.
  - by rewrite filter_nil, app_nil_r.
  - rewrite IH. unfold Set_add. destruct (decide (x ∈ acc)) as [Hin|Hout].
    + rewrite filter_cons_False by (intros H; by apply H).
      f_equal. rewrite list_filter_filter. apply list_filter_iff.
      intros y. split; [|tauto]. intros Hy. split; [done|]. by intros ->.
    + rewrite filter_cons_True by done.
      rewrite <- app_assoc. simpl. do 2 f_equal.
      rewrite list_filter_filter. apply list_filter_iff.
      intros y. rewrite elem_of_app, list_elem_of_singleton. tauto.
Qed.

Lemma Array_from_Set_firstOccurrences (xs : list string) :
  Array_from_Set xs = firstOccurrences xs.
Proof.
  unfold Array_from_Set. rewrite foldl_Set_add. simpl.
  induction (firstOccurrences xs) as [|y l IH]; [done|].
  rewrite filter_cons_True by apply not_elem_of_nil. by f_equal.
Qed.

Lemma firstOccurrences_filter (P : string → Prop) `{!∀ x, Decision (P x)}
    (xs : list string) :
  filter P (firstOccurrences xs) = firstOccurrences (filter P xs).
Proof.
  induction xs as [|x rest IH]; [done|]. simpl.
  destruct (decide (P x)) as [Hx|Hx].
  - rewrite !filter_cons_True by done. simpl. f_equal.
    rewrite <- IH. rewrite !list_filter_filter. apply list_filter_iff. intros y. tauto.
  - rewrite !filter_cons_False by done. rewrite <- IH.
    rewrite list_filter_filter. apply list_filter_iff.
    intros y. split; [tauto|]. intros Hy. split; [done|]. by intros ->.
Qed.

Lemma elem_of_firstOccurrences (x : string) (xs : list string) :
  x ∈ firstOccurrences xs ↔ x ∈ xs.
Proof.
  induction xs as [|y rest IH]; [done|]. simpl.
  rewrite !elem_of_cons, list_elem_of_filter, IH.
  destruct (decide (x = y)); tauto.
Qed.

Lemma allUniqueSubjects_firstOccurrences (ls : list Lesson) :
  allUniqueSubjects ls = firstOccurrences (subject <$> namedLessons ls).
Proof.
  unfold allUniqueSubjects, namedLessons.
  rewrite Array_from_Set_firstOccurrences, firstOccurrences_filter.
  f_equal. induction ls as [|l rest IH]; [done|]. simpl.
  destruct (decide (truthy (subject l))) as [H|H].
  - rewrite !filter_cons_True by done. simpl. by f_equal.
  - by rewrite !filter_cons_False by done.
Qed.

(** C6 (amended).  For every selection and lesson list the subjects on
    display are the resolution the specification describes, taken over the
    lessons that name a subject: the selection filtered to the subjects of
    those lessons when it is not empty, and otherwise their subjects with
    duplicates removed, first occurrence first.  In particular lessons with
    the subjects [a; b; a; c] (pairwise different, none empty) and an empty
    selection resolve to [a; b; c]. *)
Theorem subjectsToDisplay_resolution :
  (∀ p : Props,
     subjectsToDisplay p
     = resolveSubjects_spec (selectedSubjects p) (namedLessons (lessons p)))
  ∧ (∀ (a b c : string) (user : option string) (cb : bool),
       truthy a → truthy b → truthy c → a ≠ b → a ≠ c → b ≠ c →
       subjectsToDisplay
         {| selectedSubjects := [];
            lessons := mkLesson <$> [a; b; a; c];
            username := user; onCoinsUpdated := cb |}
       = [a; b; c]).
Proof.
  assert (Hall : ∀ p : Props,
     subjectsToDisplay p
     = resolveSubjects_spec (selectedSubjects p) (namedLessons (lessons p))).
  { intros p. unfold subjectsToDisplay, resolveSubjects_spec.
    rewrite allUniqueSubjects_firstOccurrences.
    destruct (selectedSubjects p) as [|s0 sel] eqn:Hsel.
    - done.
    - destruct (decide (0 < length (s0 :: sel))) as [_|Hlen];
        [|simpl in Hlen; lia].
      apply list_filter_iff. intros s. apply elem_of_firstOccurrences. }
  split; [exact Hall|].
  intros a b c user cb Ha Hb Hc Hab Hac Hbc. rewrite Hall.
  unfold resolveSubjects_spec, namedLessons, truthy in *. cbn.
  repeat (case_decide; try done; cbn); congruence.
Qed.

(** The scenario of the specification: subjects [A; B; A; C], nothing
    selected. *)
Lemma subjectsToDisplay_resolution_witness :
  subjectsToDisplay demoProps = ["A"; "B"; "C"].
Proof.
  apply (proj2 subjectsToDisplay_resolution "A" "B" "C" (Some "juris") true);
    unfold truthy; discriminate.
Defined.

(** C6 as stated fails when a lesson has an empty subject: the screen drops
    it ([filter(s => s)]), the full deduplicated list keeps it. *)
Lemma subjectsToDisplay_drops_unnamed :
  subjectsToDisplay unnamedProps
  ≠ resolveSubjects_spec (selectedSubjects unnamedProps) (lessons unnamedProps).
Proof. vm_compute. discriminate. Qed.

(** ** Running a handler *)

Lemma emitted_app {L A} (m : M L A) (w : World L) (evs : list Event) :
  trace (m w).2 = trace w ++ evs → emitted m w = evs.
Proof. unfold emitted. intros ->. apply drop_app_length. Qed.

Lemma count_app (f : Event → bool) (l k : list Event) :
  count f (l ++ k) = count f l + count f k.
Proof. unfold count. by rewrite filter_app, length_app. Qed.

Lemma count_nil (f : Event → bool) : count f [] = 0.
Proof. done. Qed.

Lemma count_cons (f : Event → bool) (e : Event) (l : list Event) :
  count f (e :: l) = (if f e then 1 else 0) + count f l.
Proof.
  unfold count. destruct (f e) eqn:He.
  - by rewrite filter_cons_True.
  - rewrite filter_cons_False; [done|]. by rewrite He.
Qed.

(** Unfolds the monad. *)
Ltac unfold_M :=
  unfold after, invoke, press, submitAnswer, handleNext, handleBack,
    handleAnswerSelect, handleClaim, awardCoins, subjectDone, sessionDone,
    setCurrentSubjectIndex, setCurrentTaskIndex, setSelectedAnswer,
    setCurrentPage, setReminders, setIsLoading, setError, setTotalCoinsEarned,
    setCorrectAnswers, setTotalQuestions, setSubjectCorrectAnswers,
    setSubjectTotalQuestions, setAwardedQuestions, setAwardedBonuses,
    setCanClaimCompletionBonus, setHasClaimedBonus,
    when, try_catch, await, update, emit, mbind, M_bind, mret, M_ret in *.

(** Case analysis on the next decision of the goal. *)
Ltac split_decide :=
  match goal with
  | |- context [decide ?P] =>
      let Hd := fresh "Hd" in destruct (decide P) as [Hd|Hd]
  end.

(** ** [handleBack] *)

(** C7.  [handleBack] never throws, calls nothing and touches no
    accumulator.  It moves the session in four cases only: on a task after
    the first, to the explanation of the task before with the answer
    cleared; on an explanation, to its task with the answer cleared; on the
    second theory page, to the first; on the first theory page of a subject
    after the first, to the explanation of the last task of the subject
    before, or to the second theory page of that subject when it has no
    task.  Everywhere else (first theory page of the first subject, first
    task, completion) the position stays as it is. *)
Theorem handleBack_transitions `{!RewardLedger L} (p : Props) (w : World L) :
  let s := st w in
  let out := invoke p Back w in
  out.1 = Some tt
  ∧ ledger out.2 = ledger w ∧ trace out.2 = trace w
  ∧ counters (st out.2) = counters s
  ∧ rewards (st out.2) = rewards s
  ∧ loaded (st out.2) = loaded s
  ∧ position (st out.2) =
      match currentPage s with
      | task =>
          if decide (0 < currentTaskIndex s)
          then (currentSubjectIndex s, currentTaskIndex s - 1, None, explanation)
          else position s
      | explanation =>
          (currentSubjectIndex s, currentTaskIndex s, None, task)
      | theory2 =>
          (currentSubjectIndex s, currentTaskIndex s, selectedAnswer s, theory1)
      | theory1 =>
          if decide (0 < currentSubjectIndex s) then
            match taskCountOf p s (currentSubjectIndex s - 1) with
            | S lastTask =>
                (currentSubjectIndex s - 1, lastTask, selectedAnswer s, explanation)
            | 0 =>
                (currentSubjectIndex s - 1, currentTaskIndex s,
                 selectedAnswer s, theory2)
            end
          else position s
      | completion => position s
      end.
Proof.
  destruct w as [s l tr]. cbn zeta. unfold invoke, handleBack, taskCountOf. cbn [st].
  destruct (currentPage s) eqn:Hpage;
    repeat split_decide; try solve [exfalso; intuition (discriminate || lia)];
    try (destruct (subjectsToDisplay p !! (currentSubjectIndex s - 1)
                     ≫= λ subj, reminders s !! subj) as [r|] eqn:Hprev;
         [destruct (tasks r) as [|tk0 rest] eqn:Htasks; cbn [length]|]);
    repeat split_decide; try solve [exfalso; intuition (discriminate || lia)];
    unfold_M; cbn; rewrite ?Hpage, ?Nat.sub_0_r; done.
Qed.

(** The demo session on the explanation of its first question: going back
    shows the question again, unanswered. *)
Lemma handleBack_transitions_witness :
  position (st (invoke demoProps Back
                  (after (submitAnswer demoProps 1) onFirstTask)).2)
  = (0, 0, None, task).
Proof.
  destruct (handleBack_transitions demoProps
              (after (submitAnswer demoProps 1) onFirstTask))
    as (_ & _ & _ & _ & _ & _ & Hpos).
  rewrite Hpos.
  assert (Hpage : currentPage (st (after (submitAnswer demoProps 1) onFirstTask))
                  = explanation) by (vm_compute; reflexivity).
  assert (Hti : currentTaskIndex (st (after (submitAnswer demoProps 1) onFirstTask))
                = 0) by (vm_compute; reflexivity).
  assert (Hsi : currentSubjectIndex (st (after (submitAnswer demoProps 1) onFirstTask))
                = 0) by (vm_compute; reflexivity).
  rewrite Hpage, Hti, Hsi. reflexivity.
Defined.

(** ** [handleNext] *)

Lemma moreTasksRemain_nat (p : Props) (s : State) :
  moreTasksRemain p s
  = bool_decide (currentTaskIndex s + 1 < currentTaskCount p s).
Proof. unfold moreTasksRemain. apply bool_decide_ext. lia. Qed.

Lemma moreSubjectsRemain_nat (p : Props) (s : State) :
  moreSubjectsRemain p s
  = bool_decide (currentSubjectIndex s + 1 < length (subjectsToDisplay p)).
Proof. unfold moreSubjectsRemain. apply bool_decide_ext. lia. Qed.

(** Case analysis on the reply of the next ledger call of the goal. *)
Ltac split_call :=
  let r := fresh "reply" in
  let l' := fresh "l" in
  let Hc := fresh "Hcall" in
  match goal with
  | |- context [addCoins ?u ?d ?l] =>
      destruct (addCoins u d l) as [[r|] l'] eqn:Hc
  | |- context [markSubjectCompleted ?u ?x ?l] =>
      destruct (markSubjectCompleted u x l) as [[[]|] l'] eqn:Hc
  | |- context [areAllDailyTasksCompleted ?u ?n ?l] =>
      destruct (areAllDailyTasksCompleted u n l) as [[[|]|] l'] eqn:Hc
  | |- context [hasClaimedCompletionBonusToday ?u ?l] =>
      destruct (hasClaimedCompletionBonusToday u l) as [[[|]|] l'] eqn:Hc
  | |- context [claimCompletionBonus ?u ?l] =>
      destruct (claimCompletionBonus u l) as [[r|] l'] eqn:Hc
  end.

(** The events of a run whose trace has been computed. *)
Ltac calc_emitted :=
  unfold emitted; cbn [trace snd fst];
  rewrite <- ?app_assoc; rewrite ?drop_app_length, ?drop_all; cbn [app].



(** ** [handleAnswerSelect] *)

(** The four observations determine the state. *)
Lemma State_ext (s1 s2 : State) :
  position s1 = position s2 → counters s1 = counters s2 →
  rewards s1 = rewards s2 → loaded s1 = loaded s2 → s1 = s2.
Proof.
  destruct s1, s2. unfold position, counters, rewards, loaded. cbn.
  intros [= -> -> -> ->] [= -> -> -> ->] [= -> -> -> -> ->] [= -> -> ->]. done.
Qed.

Lemma currentTask_subject (p : Props) (s : State) (tk : Task) :
  currentTask p s = Some tk →
  ∃ subj, whenTruthy (currentSubject p s) = Some subj
          ∧ currentSubject p s = Some subj.
Proof.
  unfold currentTask, currentReminder, whenTruthy.
  destruct (currentSubject p s) as [subj|]; [|done].
  destruct (decide (truthy subj)); [|done]. eauto.
Qed.

(** A submission the handler's guard lets through. *)
Lemma handleAnswerSelect_accepted `{!RewardLedger L} (p : Props) (w : World L)
    (i : Z) (tk : Task) (subj : string) :
  selectedAnswer (st w) = None →
  currentTask p (st w) = Some tk →
  whenTruthy (currentSubject p (st w)) = Some subj →
  let s := st w in
  let isCorrect := bool_decide (i = correctAnswer tk) in
  let key := questionKey subj (currentTaskIndex s) (question tk) in
  let out := handleAnswerSelect p s i w in
  out.1 = Some tt
  ∧ position (st out.2)
    = (currentSubjectIndex s, currentTaskIndex s, Some i, explanation)
  ∧ counters (st out.2)
    = (correctAnswers s + (if isCorrect then 1 else 0),
       totalQuestions s + 1,
       (if isCorrect
        then <[subj := default 0 (subjectCorrectAnswers s !! subj) + 1]>
               (subjectCorrectAnswers s)
        else subjectCorrectAnswers s),
       <[subj := default 0 (subjectTotalQuestions s !! subj) + 1]>
         (subjectTotalQuestions s))
  ∧ loaded (st out.2) = loaded s
  ∧ match signedIn p with
    | Some user =>
        if decide (key ∈ awardedQuestions s) then
          rewards (st out.2) = rewards s ∧ ledger out.2 = ledger w
          ∧ trace out.2
            = trace w
              ++ [ConsoleWarn "Coins already awarded for this question, skipping..."]
        else
          let call := addCoins user (coinsFor isCorrect) (ledger w) in
          rewards (st out.2)
          = (totalCoinsEarned s + coinsFor isCorrect,
             awardedQuestions s ∪ {[key]}, awardedBonuses s,
             canClaimCompletionBonus s, hasClaimedBonus s)
          ∧ ledger out.2 = call.2
          ∧ trace out.2
            = trace w
              ++ CallAddCoins user (coinsFor isCorrect) (ForQuestion key) call.1
                 :: match call.1 with
                    | Resolved newCoins =>
                        if onCoinsUpdated p
                        then [NotifyCoinsUpdated newCoins] else []
                    | Rejected => [ConsoleError "Error awarding coins:"]
                    end
    | None =>
        rewards (st out.2) = rewards s ∧ ledger out.2 = ledger w
        ∧ trace out.2 = trace w
    end.
Proof.
  destruct w as [s l tr]. cbn [st]. intros Hans Htask Hsubj. cbn zeta.
  unfold handleAnswerSelect, awardCoins. rewrite Hans, Htask, Hsubj.
  destruct (bool_decide (i = correctAnswer tk));
    (destruct (signedIn p) as [user|];
     [destruct (decide (questionKey subj (currentTaskIndex s) (question tk)
                        ∈ awardedQuestions s));
      [|destruct (onCoinsUpdated p); unfold_M; cbn; split_call; cbn;
        rewrite <- ?app_assoc]|]);
    unfold_M; cbn; rewrite ?app_nil_r, ?Nat.add_0_r; done.
Qed.

(** A submission the handler's guard stops. *)
Lemma handleAnswerSelect_ignored `{!RewardLedger L} (p : Props) (w : World L)
    (i : Z) :
  selectedAnswer (st w) ≠ None ∨ currentTask p (st w) = None →
  handleAnswerSelect p (st w) i w = (Some tt, w).
Proof.
  unfold handleAnswerSelect. intros [Hans|Htask].
  - destruct (selectedAnswer (st w)); [|done]. done.
  - rewrite Htask. by destruct (selectedAnswer (st w)).
Qed.

(** What makes an option pressable. *)
Lemma pressable_option (p : Props) (s : State) (i : nat) :
  pressable p s (OptionButton i) = true ↔
  view p s = PageView task ∧ selectedAnswer s = None
  ∧ ∃ tk, currentTask p s = Some tk ∧ i < length (options tk).
Proof.
  unfold pressable. destruct (view p s) as [| | |pg]; try (split; [done|]; by intros [? _]).
  destruct (currentTask p s) as [tk|].
  - rewrite !andb_true_iff, !bool_decide_eq_true. split.
    + intros [[-> Hi] Hans]. eauto.
    + intros ([= ->] & Hans & tk' & [= <-] & Hi). done.
  - rewrite andb_false_r. cbn. split; [done|]. by intros (_ & _ & tk & ? & _).
Qed.

Lemma view_page (p : Props) (s : State) (pg : Page) :
  view p s = PageView pg ↔
  isLoading s = false ∧ whenTruthy (error s) = None
  ∧ is_Some (currentReminder p s) ∧ currentPage s = pg.
Proof.
  unfold view. destruct (isLoading s); [split; [done|by intros [? _]]|].
  destruct (whenTruthy (error s)); [split; [done|by intros (_ & ? & _)]|].
  destruct (currentReminder p s).
  - split; [intros [= <-]; eauto|]. by intros (_ & _ & _ & ->).
  - split; [done|]. intros (_ & _ & [? ?] & _). done.
Qed.

(** C2 (amended).  A submission is a press on an option, and an option can
    be pressed only on the task page while no answer is recorded: in any
    other state the press is ignored and nothing changes.  An accepted
    submission of option [i] never throws; it records [i], takes the answer
    for right exactly when [i] is the task's correct option, adds one to the
    global and the per-subject totals, and to the global and per-subject
    correct counts when the answer is right, and shows the explanation.  It
    awards 10 coins for a right answer and 5 for a wrong one when a user is
    signed in and the question key has not been awarded before: then one
    [addCoins] call is issued and the session's coins grow by that amount.
    Otherwise it awards nothing. *)
Theorem submitAnswer_effect `{!RewardLedger L} (p : Props) (w : World L)
    (i : nat) :
  let s := st w in
  let out := submitAnswer p i w in
  out.1 = Some tt
  ∧ (currentPage s ≠ task ∨ selectedAnswer s ≠ None → out.2 = w)
  ∧ if pressable p s (OptionButton i) then
      view p s = PageView task ∧ selectedAnswer s = None
      ∧ ∃ tk subj,
          currentTask p s = Some tk ∧ currentSubject p s = Some subj
          ∧ let isCorrect := bool_decide (Z.of_nat i = correctAnswer tk) in
            let key := questionKey subj (currentTaskIndex s) (question tk) in
            let awarding :=
              bool_decide (is_Some (signedIn p) ∧ key ∉ awardedQuestions s) in
            position (st out.2)
            = (currentSubjectIndex s, currentTaskIndex s,
               Some (Z.of_nat i), explanation)
            ∧ counters (st out.2)
              = (correctAnswers s + (if isCorrect then 1 else 0),
                 totalQuestions s + 1,
                 (if isCorrect
                  then <[subj := default 0 (subjectCorrectAnswers s !! subj) + 1]>
                         (subjectCorrectAnswers s)
                  else subjectCorrectAnswers s),
                 <[subj := default 0 (subjectTotalQuestions s !! subj) + 1]>
                   (subjectTotalQuestions s))
            ∧ rewards (st out.2)
              = (if awarding
                 then (totalCoinsEarned s + coinsFor isCorrect,
                       awardedQuestions s ∪ {[key]}, awardedBonuses s,
                       canClaimCompletionBonus s, hasClaimedBonus s)
                 else rewards s)
            ∧ count isAddCoins (emitted (submitAnswer p i) w)
              = (if awarding then 1 else 0)
            ∧ (∀ user, signedIn p = Some user → awarding = true →
               head (emitted (submitAnswer p i) w)
               = Some (CallAddCoins user (coinsFor isCorrect) (ForQuestion key)
                         (addCoins user (coinsFor isCorrect) (ledger w)).1))
    else out.2 = w.
Proof.
  cbn zeta. unfold submitAnswer, press, emitted.
  destruct (pressable p (st w) (OptionButton i)) eqn:Hpress.
  - apply pressable_option in Hpress as (Hview & Hans & tk & Htask & Hi).
    destruct (currentTask_subject _ _ _ Htask) as (subj & Hsubj & Hcur).
    pose proof (handleAnswerSelect_accepted p w (Z.of_nat i) tk subj
                  Hans Htask Hsubj) as (Hret & Hpos & Hcnt & _ & Hrew).
    cbn zeta in Hret, Hpos, Hcnt, Hrew.
    split; [done|]. split.
    { apply view_page in Hview as (_ & _ & _ & Hpage). intros [?|?]; done. }
    split; [done|]. split; [done|]. exists tk, subj.
    split; [done|]. split; [done|]. cbn zeta.
    split; [done|]. split; [done|].
    destruct (signedIn p) as [user|].
    + set (key := questionKey subj (currentTaskIndex (st w)) (question tk)) in *.
      destruct (decide (key ∈ awardedQuestions (st w))) as [Hin|Hout].
      * destruct Hrew as (Hrew & _ & Htr).
        rewrite bool_decide_eq_false_2 by (intros [_ ?]; done).
        rewrite Htr, drop_app_length. done.
      * cbn zeta in Hrew. destruct Hrew as (Hrew & _ & Htr).
        rewrite bool_decide_eq_true_2 by eauto.
        rewrite Htr, drop_app_length. split; [done|]. split.
        -- rewrite count_cons. cbn.
           destruct (addCoins user _ (ledger w)).1; [destruct (onCoinsUpdated p)|];
             done.
        -- intros user' [= <-] _. done.
    + destruct Hrew as (Hrew & _ & Htr).
      rewrite bool_decide_eq_false_2 by (intros [[? ?] _]; done).
      rewrite Htr, drop_all. done.
  - split; [done|]. split; done.
Qed.

(** The demo session on its first task: option 1 is right, the user is
    signed in and the question is fresh, so 10 coins are awarded. *)
Lemma submitAnswer_effect_witness :
  totalCoinsEarned (st (after (submitAnswer demoProps 1) onFirstTask)) = 10
  ∧ currentPage (st (after (submitAnswer demoProps 1) onFirstTask)) = explanation
  ∧ after (submitAnswer demoProps 1)
      (after (submitAnswer demoProps 1) onFirstTask)
    = after (submitAnswer demoProps 1) onFirstTask.
Proof.
  pose proof (submitAnswer_effect demoProps onFirstTask 1) as (_ & _ & H).
  pose proof (submitAnswer_effect demoProps
                (after (submitAnswer demoProps 1) onFirstTask) 1) as (_ & H2 & _).
  split; [|split].
  - change (pressable demoProps (st onFirstTask) (OptionButton 1))
      with true in H.
    destruct H as (_ & _ & tk & subj & Htk & Hsubj & _ & _ & Hrew & _).
    vm_compute in Htk, Hsubj. injection Htk as <-. injection Hsubj as <-.
    apply (f_equal (λ r, r.1.1.1.1)) in Hrew. exact Hrew.
  - vm_compute. reflexivity.
  - apply H2. left. vm_compute. discriminate.
Defined.

(** C2 as stated fails on a second submission: after going back to the
    question the press is accepted and the answer is right, yet no coins
    are awarded, the question key being in [awardedQuestions] already. *)
Lemma resubmission_awards_nothing :
  ¬ awardsOnAcceptance demoProps afterRetreat 1.
Proof.
  intros H. destruct (H eq_refl) as (tk & Htk & Hcoins).
  vm_compute in Htk. injection Htk as <-.
  vm_compute in Hcoins. discriminate.
Qed.

(** ** Failure of the award, and a second submission *)

Lemma position_inv (s : State) (a b : nat) (c : option Z) (d : Page) :
  position s = (a, b, c, d) →
  currentSubjectIndex s = a ∧ currentTaskIndex s = b
  ∧ selectedAnswer s = c ∧ currentPage s = d.
Proof. unfold position. by intros [= -> -> -> ->]. Qed.

Lemma loaded_inv (s1 s2 : State) :
  loaded s1 = loaded s2 →
  reminders s1 = reminders s2 ∧ isLoading s1 = isLoading s2
  ∧ error s1 = error s2.
Proof. unfold loaded. by intros [= -> -> ->]. Qed.

(** What the render derives depends on the indices and the reminders only. *)
Lemma derived_ext (p : Props) (s1 s2 : State) :
  currentSubjectIndex s1 = currentSubjectIndex s2 →
  currentTaskIndex s1 = currentTaskIndex s2 →
  reminders s1 = reminders s2 →
  currentSubject p s1 = currentSubject p s2
  ∧ currentReminder p s1 = currentReminder p s2
  ∧ currentTask p s1 = currentTask p s2.
Proof.
  unfold currentTask, currentReminder, currentSubject.
  by intros -> -> ->.
Qed.

Lemma handleBack_explanation `{!RewardLedger L} (p : Props) (w : World L) :
  currentPage (st w) = explanation →
  handleBack p (st w) w
  = (Some tt,
     {| st := updSelectedAnswer (λ _, None)
                (updCurrentPage (λ _, task) (st w));
        ledger := ledger w; trace := trace w |}).
Proof.
  intros Hpage. unfold handleBack.
  rewrite decide_False by (rewrite Hpage; intros [? _]; done).
  rewrite decide_True by done. by unfold_M.
Qed.

(** C9.  When the [addCoins] call of an accepted submission rejects, the
    handler still returns: the rejection is written to the console and
    nothing else is shown (no alert, no error view; the explanation page
    comes up as usual).  The session's coins keep the increment made before
    the call, and the state the handler leaves is the one any other ledger
    would have led to: nothing is rolled back. *)
Theorem awardFailure_is_logged `{!RewardLedger L} (p : Props) (w : World L)
    (i : nat) (user : string) (tk : Task) (subj : string) :
  pressable p (st w) (OptionButton i) = true →
  currentTask p (st w) = Some tk →
  currentSubject p (st w) = Some subj →
  signedIn p = Some user →
  let key := questionKey subj (currentTaskIndex (st w)) (question tk) in
  let amount := coinsFor (bool_decide (Z.of_nat i = correctAnswer tk)) in
  key ∉ awardedQuestions (st w) →
  (addCoins user amount (ledger w)).1 = Rejected →
  let out := submitAnswer p i w in
  out.1 = Some tt
  ∧ emitted (submitAnswer p i) w
    = [CallAddCoins user amount (ForQuestion key) Rejected;
       ConsoleError "Error awarding coins:"]
  ∧ totalCoinsEarned (st out.2) = totalCoinsEarned (st w) + amount
  ∧ error (st out.2) = error (st w)
  ∧ view p (st out.2) = PageView explanation
  ∧ ∀ (L' : Type) (R' : RewardLedger L') (w' : World L'),
      st w' = st w → st (after (submitAnswer p i) w') = st out.2.
Proof.
  intros Hpress Htask Hcur Huser key amount Hfresh Hrej. cbn zeta.
  pose proof Hpress as Hpress'.
  apply pressable_option in Hpress' as (Hview & Hans & _).
  assert (Hsubj : whenTruthy (currentSubject p (st w)) = Some subj).
  { destruct (currentTask_subject _ _ _ Htask) as (subj' & Hs & Hc). congruence. }
  pose proof (handleAnswerSelect_accepted p w (Z.of_nat i) tk subj
                Hans Htask Hsubj) as (Hret & Hpos & Hcnt & Hload & Hrew).
  cbn zeta in Hret, Hpos, Hcnt, Hload, Hrew.
  rewrite Huser, decide_False in Hrew by done. cbn zeta in Hrew.
  fold key amount in Hrew. rewrite Hrej in Hrew.
  destruct Hrew as (Hrew & Hled & Htr).
  assert (Hout : submitAnswer p i w = handleAnswerSelect p (st w) (Z.of_nat i) w).
  { unfold submitAnswer, press. by rewrite Hpress. }
  rewrite Hout. unfold emitted. rewrite Hout, Htr, drop_app_length.
  apply position_inv in Hpos as (Hsi & Hti & Hsel & Hpage).
  apply loaded_inv in Hload as (Hrem & Hloading & Herr).
  split; [done|]. split; [done|].
  split; [by apply (f_equal (λ r, r.1.1.1.1)) in Hrew|].
  split; [done|]. split.
  { apply view_page in Hview as (Hl & He & Hr & _). apply view_page.
    destruct (derived_ext p _ _ Hsi Hti Hrem) as (_ & Hrem' & _).
    rewrite Hloading, Herr, Hrem'. done. }
  intros L' R' w' Hst.
  assert (Hout' : submitAnswer p i w'
                  = handleAnswerSelect p (st w') (Z.of_nat i) w').
  { unfold submitAnswer, press. by rewrite Hst, Hpress. }
  unfold after. rewrite Hout'.
  rewrite <- Hst in Hans, Htask, Hsubj.
  pose proof (handleAnswerSelect_accepted p w' (Z.of_nat i) tk subj
                Hans Htask Hsubj) as (_ & Hpos' & Hcnt' & Hload' & Hrew').
  cbn zeta in Hpos', Hcnt', Hload', Hrew'.
  set (out' := handleAnswerSelect p (st w') (Z.of_nat i) w') in *.
  rewrite Huser, Hst, decide_False in Hrew' by done. cbn zeta in Hrew'.
  destruct Hrew' as (Hrew' & _ & _).
  rewrite Hst in Hpos', Hcnt', Hload'.
  apply State_ext; [rewrite Hpos'|rewrite Hcnt'|rewrite Hrew'|rewrite Hload'];
    symmetry.
  - unfold position. by rewrite Hsi, Hti, Hsel, Hpage.
  - done.
  - done.
  - unfold loaded. by rewrite Hrem, Hloading, Herr.
Qed.

(** The demo session with the ledger out of reach: the first answer is
    right, the call rejects, and the 10 coins stay on the counter. *)
Lemma awardFailure_is_logged_witness :
  (submitAnswer demoProps 1 offlineOnTask).1 = Some tt
  ∧ emitted (submitAnswer demoProps 1) offlineOnTask
    = [CallAddCoins "juris" 10 (ForQuestion "A-0-q1") Rejected;
       ConsoleError "Error awarding coins:"]
  ∧ totalCoinsEarned (st (submitAnswer demoProps 1 offlineOnTask).2) = 10.
Proof.
  assert (Hpress : pressable demoProps (st offlineOnTask) (OptionButton 1) = true)
    by (vm_compute; reflexivity).
  assert (Htask : currentTask demoProps (st offlineOnTask) = Some (mkTask "q1" 1))
    by (vm_compute; reflexivity).
  assert (Hsubj : currentSubject demoProps (st offlineOnTask) = Some "A")
    by (vm_compute; reflexivity).
  assert (Huser : signedIn demoProps = Some "juris") by (vm_compute; reflexivity).
  assert (Hfresh : questionKey "A" (currentTaskIndex (st offlineOnTask))
                     (question (mkTask "q1" 1))
                   ∉ awardedQuestions (st offlineOnTask)).
  { apply (bool_decide_unpack _). vm_compute. exact I. }
  assert (Hrej : (addCoins "juris"
                    (coinsFor (bool_decide (Z.of_nat 1
                                            = correctAnswer (mkTask "q1" 1))))
                    (ledger offlineOnTask)).1 = Rejected) by reflexivity.
  destruct (awardFailure_is_logged demoProps offlineOnTask 1 "juris"
              (mkTask "q1" 1) "A" Hpress Htask Hsubj Huser Hfresh Hrej)
    as (Hret & Hev & Hcoins & _).
  split; [exact Hret|]. split; [exact Hev|]. exact Hcoins.
Defined.

(** C10.  Going back from an explanation to its task clears the answer, so
    the same task can be submitted again: the second submission is accepted
    and the global and per-subject totals and correct counts are counted up
    a second time, while no [addCoins] call is issued and the session's
    coins stay as they were (with a user signed in the question key is in
    [awardedQuestions] already).  In the demo session, where subject "A" has
    three tasks, answering all three rightly earns the perfect-score bonus;
    with the first question submitted twice the per-subject total is 4, above
    the three tasks, and the bonus is not granted. *)
Theorem resubmission_after_retreat :
  (∀ `{!RewardLedger L} (p : Props) (w : World L) (i j : nat)
     (tk : Task) (subj : string),
     pressable p (st w) (OptionButton i) = true →
     currentTask p (st w) = Some tk →
     currentSubject p (st w) = Some subj →
     j < length (options tk) →
     let w1 := after (submitAnswer p i) w in
     let w2 := after (press p BackButton) w1 in
     let w3 := after (submitAnswer p j) w2 in
     let right (k : nat) :=
       if bool_decide (Z.of_nat k = correctAnswer tk) then 1 else 0 in
     let key := questionKey subj (currentTaskIndex (st w)) (question tk) in
     position (st w2)
     = (currentSubjectIndex (st w), currentTaskIndex (st w), None, task)
     ∧ pressable p (st w2) (OptionButton j) = true
     ∧ totalQuestions (st w3) = totalQuestions (st w) + 2
     ∧ correctAnswers (st w3) = correctAnswers (st w) + right i + right j
     ∧ default 0 (subjectTotalQuestions (st w3) !! subj)
       = default 0 (subjectTotalQuestions (st w) !! subj) + 2
     ∧ default 0 (subjectCorrectAnswers (st w3) !! subj)
       = default 0 (subjectCorrectAnswers (st w) !! subj) + right i + right j
     ∧ (is_Some (signedIn p) → key ∈ awardedQuestions (st w2))
     ∧ count isAddCoins (emitted (submitAnswer p j) w2) = 0
     ∧ totalCoinsEarned (st w3) = totalCoinsEarned (st w1))
  ∧ (taskCountOf demoProps (st demoStart) 0 = 3
     ∧ subjectTotalQuestions (st perfectRun) !! "A" = Some 3
     ∧ subjectCorrectAnswers (st perfectRun) !! "A" = Some 3
     ∧ count (isPerfectScoreAward (perfectScoreBonusKey "A")) (trace perfectRun) = 1
     ∧ subjectTotalQuestions (st retakenRun) !! "A" = Some 4
     ∧ subjectCorrectAnswers (st retakenRun) !! "A" = Some 4
     ∧ count (isPerfectScoreAward (perfectScoreBonusKey "A")) (trace retakenRun) = 0
     ∧ count isAddCoins (trace retakenRun) = 3).
Proof.
  split; [|by vm_compute].
  intros L R p w i j tk subj Hpress Htask Hcur Hj. cbn zeta.
  pose proof Hpress as Hpress'.
  apply pressable_option in Hpress' as (Hview & Hans & _).
  assert (Hsubj : whenTruthy (currentSubject p (st w)) = Some subj).
  { destruct (currentTask_subject _ _ _ Htask) as (subj' & Hs & Hc). congruence. }
  (* first submission *)
  assert (Hout1 : submitAnswer p i w = handleAnswerSelect p (st w) (Z.of_nat i) w).
  { unfold submitAnswer, press. by rewrite Hpress. }
  pose proof (handleAnswerSelect_accepted p w (Z.of_nat i) tk subj
                Hans Htask Hsubj) as (_ & Hpos1 & Hcnt1 & Hload1 & Hrew1).
  cbn zeta in Hpos1, Hcnt1, Hload1, Hrew1.
  unfold after, emitted. rewrite Hout1.
  set (w1 := (handleAnswerSelect p (st w) (Z.of_nat i) w).2) in *.
  apply position_inv in Hpos1 as (Hsi1 & Hti1 & Hsel1 & Hpage1).
  apply loaded_inv in Hload1 as (Hrem1 & Hloading1 & Herr1).
  destruct (derived_ext p _ _ Hsi1 Hti1 Hrem1) as (Hcur1 & Hrmd1 & Htask1).
  apply view_page in Hview as (Hl & He & Hr & Hpage).
  (* going back *)
  assert (Hback : press p BackButton w1
                  = (Some tt,
                     {| st := updSelectedAnswer (λ _, None)
                                (updCurrentPage (λ _, task) (st w1));
                        ledger := ledger w1; trace := trace w1 |})).
  { unfold press.
    assert (Hv : view p (st w1) = PageView explanation).
    { apply view_page. by rewrite Hloading1, Herr1, Hrmd1. }
    unfold pressable. rewrite Hv. cbn.
    by apply handleBack_explanation. }
  rewrite Hback. cbn [snd].
  set (w2 := {| st := updSelectedAnswer (λ _, None)
                        (updCurrentPage (λ _, task) (st w1));
                ledger := ledger w1; trace := trace w1 |}) in *.
  assert (Hsi2 : currentSubjectIndex (st w2) = currentSubjectIndex (st w))
    by (cbn; done).
  assert (Hti2 : currentTaskIndex (st w2) = currentTaskIndex (st w))
    by (cbn; done).
  assert (Hrem2 : reminders (st w2) = reminders (st w)) by (cbn; done).
  destruct (derived_ext p _ _ Hsi2 Hti2 Hrem2) as (Hcur2 & Hrmd2 & Htask2).
  assert (Hans2 : selectedAnswer (st w2) = None) by done.
  assert (Hpress2 : pressable p (st w2) (OptionButton j) = true).
  { apply pressable_option. split; [|split; [done|]].
    - apply view_page. rewrite Hrmd2.
      change (isLoading (st w2)) with (isLoading (st w1)).
      change (error (st w2)) with (error (st w1)).
      by rewrite Hloading1, Herr1.
    - exists tk. by rewrite Htask2. }
  (* second submission *)
  assert (Hout3 : submitAnswer p j w2
                  = handleAnswerSelect p (st w2) (Z.of_nat j) w2).
  { unfold submitAnswer, press. by rewrite Hpress2. }
  assert (Htask2' : currentTask p (st w2) = Some tk) by by rewrite Htask2.
  assert (Hsubj2 : whenTruthy (currentSubject p (st w2)) = Some subj)
    by by rewrite Hcur2.
  pose proof (handleAnswerSelect_accepted p w2 (Z.of_nat j) tk subj
                Hans2 Htask2' Hsubj2) as (_ & _ & Hcnt3 & _ & Hrew3).
  cbn zeta in Hcnt3, Hrew3.
  rewrite Hout3.
  set (w3 := (handleAnswerSelect p (st w2) (Z.of_nat j) w2).2) in *.
  rewrite Hti2 in Hrew3.
  set (key := questionKey subj (currentTaskIndex (st w)) (question tk)) in *.
  assert (Hc2 : correctAnswers (st w2) = correctAnswers (st w1)) by done.
  assert (Ht2 : totalQuestions (st w2) = totalQuestions (st w1)) by done.
  assert (Hsc2 : subjectCorrectAnswers (st w2) = subjectCorrectAnswers (st w1))
    by done.
  assert (Hst2 : subjectTotalQuestions (st w2) = subjectTotalQuestions (st w1))
    by done.
  assert (Hco2 : totalCoinsEarned (st w2) = totalCoinsEarned (st w1)) by done.
  assert (Haq2 : awardedQuestions (st w2) = awardedQuestions (st w1)) by done.
  split; [unfold position; by rewrite Hsi2, Hti2, Hans2|].
  split; [done|].
  (* the counters *)
  unfold counters in Hcnt1, Hcnt3.
  injection Hcnt1 as Hc1 Ht1 Hsc1 Hst1.
  injection Hcnt3 as Hc3 Ht3 Hsc3 Hst3.
  split; [lia|]. split; [lia|].
  split.
  { rewrite Hst3, lookup_insert_eq, ?Hst2, Hst1, lookup_insert_eq. cbn. lia. }
  split.
  { rewrite Hsc3, ?Hsc2, Hsc1.
    destruct (bool_decide (Z.of_nat j = correctAnswer tk));
      destruct (bool_decide (Z.of_nat i = correctAnswer tk));
      rewrite ?lookup_insert_eq; cbn; lia. }
  (* the coins *)
  destruct (signedIn p) as [user|].
  - assert (Hin : key ∈ awardedQuestions (st w2)).
    { rewrite Haq2. destruct (decide (key ∈ awardedQuestions (st w))) as [Hin|Hout].
      - destruct Hrew1 as (Hrew1 & _). unfold rewards in Hrew1.
        injection Hrew1 as _ -> _ _ _. done.
      - destruct Hrew1 as (Hrew1 & _). unfold rewards in Hrew1.
        injection Hrew1 as _ -> _ _ _. set_solver. }
    rewrite decide_True in Hrew3 by done.
    destruct Hrew3 as (Hrew3 & _ & Htr3).
    split; [done|]. split.
    + rewrite Htr3, drop_app_length. done.
    + unfold rewards in Hrew3. injection Hrew3 as -> _ _ _ _. done.
  - destruct Hrew3 as (Hrew3 & _ & Htr3).
    split; [by intros [? ?]|]. split.
    + rewrite Htr3, drop_all. done.
    + unfold rewards in Hrew3. injection Hrew3 as -> _ _ _ _. done.
Qed.

(** The first question of the demo session, answered, left and answered
    again. *)
Lemma resubmission_after_retreat_witness :
  totalQuestions
    (st (after (submitAnswer demoProps 1)
           (after (press demoProps BackButton)
              (after (submitAnswer demoProps 1) onFirstTask)))) = 2
  ∧ totalCoinsEarned
      (st (after (submitAnswer demoProps 1)
             (after (press demoProps BackButton)
                (after (submitAnswer demoProps 1) onFirstTask))))
    = totalCoinsEarned (st (after (submitAnswer demoProps 1) onFirstTask)).
Proof.
  assert (Hpress : pressable demoProps (st onFirstTask) (OptionButton 1) = true)
    by (vm_compute; reflexivity).
  assert (Htask : currentTask demoProps (st onFirstTask) = Some (mkTask "q1" 1))
    by (vm_compute; reflexivity).
  assert (Hsubj : currentSubject demoProps (st onFirstTask) = Some "A")
    by (vm_compute; reflexivity).
  assert (Hj : 1 < length (options (mkTask "q1" 1))) by (cbn; lia).
  destruct (proj1 resubmission_after_retreat DayLedger _ demoProps onFirstTask
              1 1 (mkTask "q1" 1) "A" Hpress Htask Hsubj Hj)
    as (_ & _ & Htotal & _ & _ & _ & _ & _ & Hcoins).
  split; [exact Htotal|exact Hcoins].
Defined.

(** ** Awards are issued once *)

Lemma perfectScore_spec (p : Props) (s : State) (subj : string) :
  perfectScore p s subj = true ↔
  default 0 (subjectTotalQuestions s !! subj) = 3
  ∧ default 0 (subjectCorrectAnswers s !! subj) = 3
  ∧ currentTaskCount p s = 3
  ∧ is_Some (currentReminder p s)
  ∧ perfectScoreBonusKey subj ∉ awardedBonuses s.
Proof.
  unfold perfectScore, currentTaskCount.
  rewrite !andb_true_iff, !bool_decide_eq_true.
  destruct (currentReminder p s) as [r|]; cbn.
  - split.
    + intros [[[? ?] [= ?]] ?]. eauto 10.
    + intros (? & ? & ? & _ & ?). split; [split; [split|]|]; try done.
      by f_equal.
  - split; [by intros [[_ ?] _]|]. by intros (_ & _ & _ & [? ?] & _).
Qed.

Lemma stepSummary_refl {L} (w : World L) : stepSummary w w.
Proof.
  exists []. rewrite app_nil_r.
  split; [done|]. split; [done|]. split; [done|].
  split; intros k; rewrite count_nil; (split; [lia|lia]).
Qed.

(** Closes the two counting clauses when no event is an award. *)
Ltac no_counts :=
  split; intros ?; cbn [app]; rewrite ?count_cons, ?count_nil;
  cbn [isQuestionAward isPerfectScoreAward];
  (split; [lia|intros ?; lia]).

(** A guard set only grows. *)
Ltac grows := first [reflexivity | apply union_subseteq_l].

(** Closes a [stepSummary] goal whose events carry no award. *)
Ltac no_award :=
  eexists; split;
    [rewrite <- ?app_assoc; first [reflexivity | symmetry; apply app_nil_r]|];
  (split; [cbn; grows|]); (split; [cbn; grows|]); no_counts.

Lemma handleAnswerSelect_summary `{!RewardLedger L} (p : Props) (w : World L)
    (i : Z) :
  stepSummary w (after (invoke p (Answer i)) w).
Proof.
  unfold after, invoke.
  destruct (selectedAnswer (st w)) as [a|] eqn:Hans.
  { rewrite handleAnswerSelect_ignored by (left; congruence).
    apply stepSummary_refl. }
  destruct (currentTask p (st w)) as [tk|] eqn:Htask.
  2: { rewrite handleAnswerSelect_ignored by (by right). apply stepSummary_refl. }
  destruct (currentTask_subject _ _ _ Htask) as (subj & Hsubj & _).
  pose proof (handleAnswerSelect_accepted p w i tk subj Hans Htask Hsubj)
    as (_ & _ & _ & _ & Hrew).
  cbn zeta in Hrew.
  set (out := handleAnswerSelect p (st w) i w) in *.
  set (key := questionKey subj (currentTaskIndex (st w)) (question tk)) in *.
  destruct (signedIn p) as [user|].
  - destruct (decide (key ∈ awardedQuestions (st w))) as [Hin|Hfresh].
    + destruct Hrew as (Hrew & _ & Htr). unfold rewards in Hrew.
      injection Hrew as _ Haq Hab _ _.
      eexists. split; [exact Htr|]. rewrite Haq, Hab.
      split; [done|]. split; [done|]. no_counts.
    + cbn zeta in Hrew. destruct Hrew as (Hrew & _ & Htr). unfold rewards in Hrew.
      injection Hrew as _ Haq Hab _ _.
      eexists. split; [exact Htr|]. rewrite Haq, Hab.
      split; [apply union_subseteq_l|]. split; [done|]. split.
      * intros k. rewrite count_cons. cbn [isQuestionAward].
        assert (Hrest : count (isQuestionAward k)
                  match (addCoins user
                           (coinsFor (bool_decide (i = correctAnswer tk)))
                           (ledger w)).1 with
                  | Resolved newCoins =>
                      if onCoinsUpdated p then [NotifyCoinsUpdated newCoins] else []
                  | Rejected => [ConsoleError "Error awarding coins:"]
                  end = 0).
        { destruct (addCoins user _ (ledger w)).1; [destruct (onCoinsUpdated p)|];
            done. }
        rewrite Hrest. destruct (bool_decide (key = k)) eqn:Hk.
        -- apply bool_decide_eq_true in Hk.
           split; [cbn; lia|]. intros _. rewrite <- Hk.
           split; [done|]. apply elem_of_union_r. by apply elem_of_singleton.
        -- split; [cbn; lia|]. cbn. intros ?; lia.
      * intros bk. rewrite count_cons. cbn [isPerfectScoreAward].
        assert (Hrest : count (isPerfectScoreAward bk)
                  match (addCoins user
                           (coinsFor (bool_decide (i = correctAnswer tk)))
                           (ledger w)).1 with
                  | Resolved newCoins =>
                      if onCoinsUpdated p then [NotifyCoinsUpdated newCoins] else []
                  | Rejected => [ConsoleError "Error awarding coins:"]
                  end = 0).
        { destruct (addCoins user _ (ledger w)).1; [destruct (onCoinsUpdated p)|];
            done. }
        rewrite Hrest. split; [cbn; lia|]. cbn. intros ?; lia.
  - destruct Hrew as (Hrew & _ & Htr). unfold rewards in Hrew.
    injection Hrew as _ Haq Hab _ _.
    exists []. rewrite app_nil_r. split; [exact Htr|]. rewrite Haq, Hab.
    split; [done|]. split; [done|]. no_counts.
Qed.

Lemma handleBack_summary `{!RewardLedger L} (p : Props) (w : World L) :
  stepSummary w (after (invoke p Back) w).
Proof.
  destruct w as [s l tr]. unfold after, invoke, handleBack. cbn [st].
  repeat split_decide;
    try (destruct (subjectsToDisplay p !! (currentSubjectIndex s - 1)
                     ≫= λ subj, reminders s !! subj) as [r|];
         [destruct (decide (0 < length (tasks r)))|]);
    unfold_M; cbn; no_award.
Qed.

Lemma handleClaim_summary `{!RewardLedger L} (p : Props) (w : World L) :
  stepSummary w (after (invoke p Claim) w).
Proof.
  destruct w as [s l tr]. unfold after, invoke, handleClaim.
  destruct (signedIn p) as [user|]; [|unfold_M; cbn; no_award].
  destruct (onCoinsUpdated p); unfold_M; cbn; split_call; cbn;
    try (destruct (success reply); [destruct (coins reply)|]);
    cbn; no_award.
Qed.

Lemma handleNext_summary `{!RewardLedger L} (p : Props) (w : World L) :
  stepSummary w (after (invoke p Next) w).
Proof.
  destruct w as [s l tr]. unfold after, invoke, handleNext. cbn [st].
  destruct (currentPage s); try (unfold_M; cbn; no_award).
  destruct (moreTasksRemain p s); [unfold_M; cbn; no_award|].
  unfold subjectDone, sessionDone.
  destruct (whenTruthy (currentSubject p s)) as [subj|];
    destruct (signedIn p) as [user|];
    try destruct (perfectScore p s subj) eqn:Hperfect;
    destruct (moreSubjectsRemain p s);
    try destruct (decide (0 < length (subjectsToDisplay p)));
    destruct (onCoinsUpdated p);
    unfold_M; cbn;
    repeat (split_call; cbn);
    try no_award.
  all: apply perfectScore_spec in Hperfect as (_ & _ & _ & _ & Hfresh).
  all: eexists; (split; [rewrite <- ?app_assoc; reflexivity|]);
    (split; [cbn; grows|]); (split; [cbn; grows|]);
    split; intros k; cbn [app]; rewrite ?count_cons, ?count_nil;
    cbn [isQuestionAward isPerfectScoreAward];
    [split; [lia|intros ?; lia]|].
  all: destruct (bool_decide (perfectScoreBonusKey subj = k)) eqn:Hk;
    [apply bool_decide_eq_true in Hk; rewrite <- Hk;
     split; [lia|]; intros _; split; [done|];
     cbn; apply elem_of_union_r; by apply elem_of_singleton
    |split; [lia|intros ?; lia]].
Qed.

Lemma invoke_summary `{!RewardLedger L} (p : Props) (a : Action) (w : World L) :
  stepSummary w (after (invoke p a) w).
Proof.
  destruct a.
  - apply handleAnswerSelect_summary.
  - apply handleNext_summary.
  - apply handleBack_summary.
  - apply handleClaim_summary.
Qed.

Lemma stepSummary_accounted {L} (w w' : World L) :
  stepSummary w w' →
  questionsAccounted w ∧ bonusesAccounted w →
  questionsAccounted w' ∧ bonusesAccounted w'.
Proof.
  intros (evs & Htr & Haq & Hab & Hq & Hb) [HQ HB]. split.
  - intros key. rewrite Htr, count_app.
    destruct (HQ key) as [Hle Hzero]. destruct (Hq key) as [Hle' Hnew].
    split.
    + destruct (decide (0 < count (isQuestionAward key) evs)) as [Hpos|]; [|lia].
      destruct (Hnew Hpos) as [Hfresh _]. specialize (Hzero Hfresh). lia.
    + intros Hout.
      assert (Hfresh : key ∉ awardedQuestions (st w))
        by (intros Hin; apply Hout; by apply Haq).
      specialize (Hzero Hfresh).
      destruct (decide (0 < count (isQuestionAward key) evs)) as [Hpos|]; [|lia].
      destruct (Hnew Hpos) as [_ Hin]. done.
  - intros key. rewrite Htr, count_app.
    destruct (HB key) as [Hle Hzero]. destruct (Hb key) as [Hle' Hnew].
    split.
    + destruct (decide (0 < count (isPerfectScoreAward key) evs)) as [Hpos|]; [|lia].
      destruct (Hnew Hpos) as [Hfresh _]. specialize (Hzero Hfresh). lia.
    + intros Hout.
      assert (Hfresh : key ∉ awardedBonuses (st w))
        by (intros Hin; apply Hout; by apply Hab).
      specialize (Hzero Hfresh).
      destruct (decide (0 < count (isPerfectScoreAward key) evs)) as [Hpos|]; [|lia].
      destruct (Hnew Hpos) as [_ Hin]. done.
Qed.

Lemma invokeAll_accounted `{!RewardLedger L} (p : Props) (acts : list Action)
    (w : World L) :
  questionsAccounted w ∧ bonusesAccounted w →
  questionsAccounted (invokeAll p acts w) ∧ bonusesAccounted (invokeAll p acts w).
Proof.
  revert w. induction acts as [|a acts IH]; intros w Hw; [done|].
  cbn. apply IH. eapply stepSummary_accounted; [apply invoke_summary|done].
Qed.

(** Runs a handler by value, so that no intermediate world is copied. *)
Ltac run_M :=
  cbv [after setCurrentSubjectIndex setCurrentTaskIndex setSelectedAnswer
    setCurrentPage setReminders setIsLoading setError setTotalCoinsEarned
    setCorrectAnswers setTotalQuestions setSubjectCorrectAnswers
    setSubjectTotalQuestions setAwardedQuestions setAwardedBonuses
    setCanClaimCompletionBonus setHasClaimedBonus
    when try_catch update emit mbind M_bind mret M_ret st ledger trace fst snd
    updCurrentSubjectIndex updCurrentTaskIndex updSelectedAnswer updCurrentPage
    updReminders updIsLoading updError updTotalCoinsEarned updCorrectAnswers
    updTotalQuestions updSubjectCorrectAnswers updSubjectTotalQuestions
    updAwardedQuestions updAwardedBonuses updCanClaimCompletionBonus
    updHasClaimedBonus initialState position counters rewards loaded
    currentSubjectIndex currentTaskIndex selectedAnswer currentPage reminders
    isLoading error totalCoinsEarned correctAnswers totalQuestions
    subjectCorrectAnswers subjectTotalQuestions awardedQuestions awardedBonuses
    canClaimCompletionBonus hasClaimedBonus app].

(** The effect resets the session and calls nothing but the fetch. *)
Lemma started_trace `{!RewardLedger L} (p : Props) (provider : ContentProvider)
    (l : L) :
  ledger (started p provider l) = l
  ∧ position (st (started p provider l)) = (0, 0, None, theory1)
  ∧ counters (st (started p provider l)) = (0, 0, ∅, ∅)
  ∧ rewards (st (started p provider l)) = (0, ∅, ∅, false, false)
  ∧ isLoading (st (started p provider l)) = false
  ∧ (trace (started p provider l) = []
     ∨ trace (started p provider l) = [CallFetch (subjectsToDisplay p)]
     ∨ trace (started p provider l)
       = [CallFetch (subjectsToDisplay p);
          ConsoleError "Error loading reminders:"]).
Proof.
  unfold started, startSession, loadReminders, subjectsToDisplay,
    allUniqueSubjects, mounted.
  generalize (if decide (0 < length (selectedSubjects p))
              then filter (λ s, s ∈ filter truthy
                                      (Array_from_Set (subject <$> lessons p)))
                     (selectedSubjects p)
              else filter truthy (Array_from_Set (subject <$> lessons p))).
  intros subjects.
  destruct (decide (length subjects = 0)).
  - run_M. repeat (split; [reflexivity|]). left. reflexivity.
  - destruct (provider subjects _); run_M;
      repeat (split; [reflexivity|]); right; [left|right]; reflexivity.
Qed.

Lemma started_accounted `{!RewardLedger L} (p : Props)
    (provider : ContentProvider) (l : L) :
  questionsAccounted (started p provider l)
  ∧ bonusesAccounted (started p provider l).
Proof.
  destruct (started_trace p provider l) as (_ & _ & _ & _ & _ & Htr).
  split; intros key; destruct Htr as [->|[->| ->]];
    rewrite ?count_cons, ?count_nil; cbn; split; lia.
Qed.

Lemma press_summary `{!RewardLedger L} (p : Props) (b : Button) (w : World L) :
  stepSummary w (after (press p b) w).
Proof.
  unfold after, press. destruct (pressable p (st w) b); [|apply stepSummary_refl].
  destruct b.
  - destruct w as [s l tr]. unfold_M. cbn. no_award.
  - apply (invoke_summary p (Answer (Z.of_nat index))).
  - apply (invoke_summary p Next).
  - apply (invoke_summary p Back).
  - apply (invoke_summary p Claim).
Qed.

Lemma pressAll_accounted `{!RewardLedger L} (p : Props) (bs : list Button)
    (w : World L) :
  questionsAccounted w ∧ bonusesAccounted w →
  questionsAccounted (pressAll p bs w) ∧ bonusesAccounted (pressAll p bs w).
Proof.
  revert w. induction bs as [|b bs IH]; intros w Hw; [done|].
  cbn. apply IH. eapply stepSummary_accounted; [apply press_summary|done].
Qed.

(** C1.  In a session, whatever handlers are invoked and in whatever order
    (and likewise whatever buttons are pressed), the trace holds at most one
    [addCoins] call for any question key.  [awardCoins] itself never throws;
    it looks the key up in [awardedQuestions] before anything else, and then
    calls nothing and changes nothing; when it does issue the call, the key
    is in [awardedQuestions] whatever the call replies, the set having been
    extended before the call. *)
Theorem question_awarded_at_most_once :
  (∀ `{!RewardLedger L} (p : Props) (provider : ContentProvider) (l : L)
     (acts : list Action) (key : string),
     count (isQuestionAward key)
       (trace (invokeAll p acts (started p provider l))) ≤ 1)
  ∧ (∀ `{!RewardLedger L} (p : Props) (provider : ContentProvider) (l : L)
       (bs : list Button) (key : string),
       count (isQuestionAward key)
         (trace (pressAll p bs (started p provider l))) ≤ 1)
  ∧ (∀ `{!RewardLedger L} (p : Props) (s : State) (isCorrect : bool)
       (key : string) (w : World L),
       let out := awardCoins p s isCorrect key w in
       let calls := count isAddCoins (emitted (awardCoins p s isCorrect key) w) in
       out.1 = Some tt
       ∧ calls = count (isQuestionAward key)
                   (emitted (awardCoins p s isCorrect key) w)
       ∧ calls ≤ 1
       ∧ (key ∈ awardedQuestions s → calls = 0 ∧ st out.2 = st w)
       ∧ (0 < calls → key ∈ awardedQuestions (st out.2))).
Proof.
  split; [|split].
  - intros L R p provider l acts key.
    destruct (invokeAll_accounted p acts (started p provider l)
                (started_accounted p provider l)) as [HQ _].
    apply HQ.
  - intros L R p provider l bs key.
    destruct (pressAll_accounted p bs (started p provider l)
                (started_accounted p provider l)) as [HQ _].
    apply HQ.
  - intros L R p s isCorrect key [s0 l tr]. cbn zeta.
    unfold awardCoins, emitted.
    destruct (signedIn p) as [user|].
    2: { unfold_M. cbn. rewrite drop_all, count_nil.
         split; [done|]. split; [done|]. split; [lia|]. split; [done|lia]. }
    destruct (decide (key ∈ awardedQuestions s)) as [Hin|Hfresh].
    { unfold_M. cbn. rewrite drop_app_length, !count_cons, !count_nil. cbn.
      split; [done|]. split; [done|]. split; [lia|]. split; [done|lia]. }
    destruct (onCoinsUpdated p); unfold_M; cbn; split_call; cbn;
      rewrite <- ?app_assoc, drop_app_length; cbn [app];
      rewrite !count_cons, !count_nil; cbn [isAddCoins isQuestionAward];
      rewrite bool_decide_eq_true_2 by done;
      (split; [done|]); (split; [done|]); (split; [lia|]);
      (split; [done|]); intros _; apply elem_of_union_r;
      by apply elem_of_singleton.
Qed.

(** The demo session: the first question answered, left and answered
    again leaves no more than one award for its key. *)
Lemma question_awarded_at_most_once_witness :
  count (isQuestionAward "A-0-q1")
    (trace (invokeAll demoProps [Next; Next; Answer 1; Back; Answer 1]
              (started demoProps demoProvider emptyLedger))) ≤ 1.
Proof.
  exact (proj1 question_awarded_at_most_once DayLedger _ demoProps
           demoProvider emptyLedger [Next; Next; Answer 1; Back; Answer 1]
           "A-0-q1").
Defined.

(** ** Leaving a subject *)

(** No subject on display is the empty string. *)
Lemma subjectsToDisplay_truthy (p : Props) (subj : string) :
  subj ∈ subjectsToDisplay p → truthy subj.
Proof.
  unfold subjectsToDisplay, allUniqueSubjects.
  destruct (decide (0 < length (selectedSubjects p))).
  - intros [Hin _]%list_elem_of_filter.
    by apply list_elem_of_filter in Hin as [? _].
  - by intros [? _]%list_elem_of_filter.
Qed.

Lemma currentSubject_truthy (p : Props) (s : State) (subj : string) :
  currentSubject p s = Some subj →
  whenTruthy (currentSubject p s) = Some subj.
Proof.
  intros Hcur. rewrite Hcur. unfold whenTruthy.
  rewrite decide_True; [done|].
  apply (subjectsToDisplay_truthy p). by eapply list_elem_of_lookup_2.
Qed.





(** ** A failed fetch *)

Lemma orElse_truthy (o : option string) (d : string) :
  truthy d → truthy (orElse o d).
Proof.
  unfold orElse, whenTruthy. intros Hd.
  destruct o as [s|]; [|done]. by destruct (decide (truthy s)).
Qed.

Lemma whenTruthy_Some (s : string) : truthy s → whenTruthy (Some s) = Some s.
Proof. intros Hs. unfold whenTruthy. by rewrite decide_True. Qed.

(** The world a rejected fetch leaves. *)
Lemma started_rejected `{!RewardLedger L} (p : Props)
    (provider : ContentProvider) (l : L) (msg : option string) :
  subjectsToDisplay p ≠ [] →
  provider (subjectsToDisplay p) (subjectLessons p) = FetchRejected msg →
  started p provider l
  = {| st := updError (λ _, Some (orElse msg fetchFailedMessage))
               (updIsLoading (λ _, false) initialState);
       ledger := l;
       trace := [CallFetch (subjectsToDisplay p);
                 ConsoleError "Error loading reminders:"] |}.
Proof.
  unfold started, startSession, loadReminders, subjectLessons,
    subjectsToDisplay, allUniqueSubjects, mounted.
  generalize (if decide (0 < length (selectedSubjects p))
              then filter (λ s, s ∈ filter truthy
                                      (Array_from_Set (subject <$> lessons p)))
                     (selectedSubjects p)
              else filter truthy (Array_from_Set (subject <$> lessons p))).
  intros subjects Hne Hrej.
  destruct (decide (length subjects = 0)) as [Hlen|_].
  { by destruct subjects. }
  rewrite Hrej. run_M. reflexivity.
Qed.

(** C8.  When the fetch of the reminders rejects, the session shows the
    error view with a non-empty message (the error's own, or the default
    one), exactly one fetch has been issued, and the only button on the
    screen is the one that closes it.  Whatever is pressed from then on, the
    session state and the ledger stay as they are and no further fetch is
    issued: the trace only gains [Closed] events.  The accumulators are at
    their reset values and the session is at its first page. *)
Theorem fetchFailure_is_terminal `{!RewardLedger L} (p : Props)
    (provider : ContentProvider) (l : L) (msg : option string) :
  subjectsToDisplay p ≠ [] →
  provider (subjectsToDisplay p) (subjectLessons p) = FetchRejected msg →
  let w := started p provider l in
  view p (st w) = ErrorView (orElse msg fetchFailedMessage)
  ∧ truthy (orElse msg fetchFailedMessage)
  ∧ count isFetch (trace w) = 1
  ∧ (∀ b, pressable p (st w) b = true ↔ b = CloseButton)
  ∧ counters (st w) = (0, 0, ∅, ∅)
  ∧ rewards (st w) = (0, ∅, ∅, false, false)
  ∧ position (st w) = (0, 0, None, theory1)
  ∧ ∀ bs : list Button,
      let w' := pressAll p bs w in
      st w' = st w ∧ ledger w' = ledger w
      ∧ count isFetch (trace w') = 1
      ∧ count isRejectedCall (trace w') = 0
      ∧ ∃ n, trace w' = trace w ++ replicate n Closed.
Proof.
  intros Hne Hrej. cbn zeta.
  rewrite (started_rejected p provider l msg Hne Hrej).
  set (text := orElse msg fetchFailedMessage).
  assert (Htext : truthy text) by (by apply orElse_truthy).
  set (s := updError (λ _, Some text) (updIsLoading (λ _, false) initialState)).
  assert (Hview : view p s = ErrorView text).
  { unfold view. cbn [s isLoading updError updIsLoading error].
    by rewrite whenTruthy_Some. }
  assert (Hpress : ∀ b, pressable p s b = true ↔ b = CloseButton).
  { intros b. unfold pressable. rewrite Hview. by destruct b. }
  cbn [st trace ledger].
  split; [done|]. split; [done|].
  split; [by rewrite !count_cons, count_nil|].
  split; [done|]. split; [done|]. split; [done|]. split; [done|].
  intros bs.
  assert (Hall : ∀ (tr : list Event),
    ∃ n, pressAll p bs {| st := s; ledger := l; trace := tr |}
         = {| st := s; ledger := l; trace := tr ++ replicate n Closed |}).
  { induction bs as [|b bs IH]; intros tr.
    - exists 0. cbn. by rewrite app_nil_r.
    - change (pressAll p (b :: bs) {| st := s; ledger := l; trace := tr |})
        with (pressAll p bs
                (after (press p b) {| st := s; ledger := l; trace := tr |})).
      unfold after, press. cbn [st].
      destruct (pressable p s b) eqn:Hb.
      + apply Hpress in Hb as ->. unfold emit. cbn [snd st ledger trace].
        destruct (IH (tr ++ [Closed])) as [n Hn]. exists (S n).
        rewrite Hn. by rewrite <- app_assoc.
      + cbn [snd]. apply IH. }
  destruct (Hall [CallFetch (subjectsToDisplay p);
                  ConsoleError "Error loading reminders:"]) as [n Hn].
  rewrite Hn. cbn [st ledger trace].
  split; [done|]. split; [done|].
  assert (Hclosed : ∀ f m, f Closed = false → count f (replicate m Closed) = 0).
  { intros f m Hf. induction m as [|m IHm]; [done|].
    cbn [replicate]. by rewrite count_cons, Hf. }
  split; [by rewrite count_app, !count_cons, count_nil, Hclosed|].
  split; [by rewrite count_app, !count_cons, count_nil, Hclosed|].
  by exists n.
Qed.

(** The demo session with a provider that rejects. *)
Lemma fetchFailure_is_terminal_witness :
  view demoProps (st failedStart) = ErrorView "Network request failed"
  ∧ count isFetch (trace failedStart) = 1
  ∧ st (pressAll demoProps [NextButton; OptionButton 0; CloseButton] failedStart)
    = st failedStart.
Proof.
  assert (Hne : subjectsToDisplay demoProps ≠ []) by (vm_compute; discriminate).
  assert (Hrej : failingProvider (subjectsToDisplay demoProps)
                   (subjectLessons demoProps)
                 = FetchRejected (Some "Network request failed")) by reflexivity.
  destruct (fetchFailure_is_terminal demoProps failingProvider emptyLedger
              (Some "Network request failed") Hne Hrej)
    as (Hview & _ & Hone & _ & _ & _ & _ & Hterm).
  split; [exact Hview|]. split; [exact Hone|].
  exact (proj1 (Hterm [NextButton; OptionButton 0; CloseButton])).
Defined.

(** ** The completion bonus *)

(** Membership in a trace that has been computed. *)
Ltac in_trace :=
  repeat match goal with
  | H : _ ∈ _ :: _ |- _ => apply elem_of_cons in H as [H|H]; try discriminate H
  | H : _ ∈ [] |- _ => by apply elem_of_nil in H
  end.

Lemma handleNext_flagSound `{!RewardLedger L} (p : Props) (w : World L) :
  flagSound p w → flagSound p (after (invoke p Next) w).
Proof.
  destruct w as [s l tr]. unfold flagSound, after, invoke, handleNext. cbn [st].
  intros Hw Hno. specialize (Hw Hno).
  destruct (currentPage s); try (unfold_M; cbn; done).
  destruct (moreTasksRemain p s); [unfold_M; cbn; done|].
  unfold subjectDone, sessionDone.
  destruct (signedIn p) as [user|].
  2: { destruct (whenTruthy (currentSubject p s));
         destruct (moreSubjectsRemain p s); unfold_M; cbn; done. }
  destruct Hno as [Hno|Hno]; [done|].
  rewrite (decide_False (P := 0 < length (subjectsToDisplay p))) by lia.
  destruct (whenTruthy (currentSubject p s)) as [subj|];
    try destruct (perfectScore p s subj);
    destruct (moreSubjectsRemain p s);
    destruct (onCoinsUpdated p);
    unfold_M; cbn; repeat (split_call; cbn); done.
Qed.

Lemma invoke_flagSound `{!RewardLedger L} (p : Props) (a : Action)
    (w : World L) :
  flagSound p w → flagSound p (after (invoke p a) w).
Proof.
  destruct a as [i| | |].
  - unfold flagSound, after, invoke. intros Hw Hno. specialize (Hw Hno).
    destruct (selectedAnswer (st w)) as [a|] eqn:Hans.
    { by rewrite handleAnswerSelect_ignored by (left; congruence). }
    destruct (currentTask p (st w)) as [tk|] eqn:Htask.
    2: { by rewrite handleAnswerSelect_ignored by (by right). }
    destruct (currentTask_subject _ _ _ Htask) as (subj & Hsubj & _).
    pose proof (handleAnswerSelect_accepted p w i tk subj Hans Htask Hsubj)
      as (_ & _ & _ & _ & Hrew).
    cbn zeta in Hrew.
    destruct (signedIn p) as [user|];
      [destruct (decide (_ ∈ awardedQuestions (st w)))|];
      cbn zeta in Hrew; destruct Hrew as [Hrew _];
      unfold rewards in Hrew; injection Hrew as _ _ _ Hflag _;
      by rewrite Hflag.
  - apply handleNext_flagSound.
  - destruct w as [s l tr]. unfold flagSound, after, invoke, handleBack. cbn [st].
    intros Hw Hno. specialize (Hw Hno).
    repeat split_decide;
      try (destruct (subjectsToDisplay p !! (currentSubjectIndex s - 1)
                       ≫= λ subj, reminders s !! subj) as [r|];
           [destruct (decide (0 < length (tasks r)))|]);
      unfold_M; cbn; done.
  - destruct w as [s l tr]. unfold flagSound, after, invoke, handleClaim.
    intros Hw Hno. specialize (Hw Hno).
    destruct (signedIn p) as [user|]; [|unfold_M; cbn; done].
    destruct (onCoinsUpdated p); unfold_M; cbn; split_call; cbn;
      try (destruct (success reply); [destruct (coins reply)|]);
      cbn; done.
Qed.

Lemma invokeAll_flagSound `{!RewardLedger L} (p : Props) (acts : list Action)
    (w : World L) :
  flagSound p w → flagSound p (invokeAll p acts w).
Proof.
  revert w. induction acts as [|a acts IH]; intros w Hw; [done|].
  cbn. apply IH. by apply invoke_flagSound.
Qed.

Lemma started_flagSound `{!RewardLedger L} (p : Props)
    (provider : ContentProvider) (l : L) :
  flagSound p (started p provider l).
Proof.
  intros _. destruct (started_trace p provider l) as (_ & _ & _ & Hrew & _).
  unfold rewards in Hrew. by injection Hrew as _ _ _ -> _.
Qed.

(** The flag when [handleNext] reaches the completion page. *)
Lemma completion_reached `{!RewardLedger L} (p : Props) (w : World L) :
  flagSound p w →
  currentPage (st w) ≠ completion →
  currentPage (st (invoke p Next w).2) = completion →
  (canClaimCompletionBonus (st (invoke p Next w).2) = true ↔
   ∃ user,
     CallAreAllDailyTasksCompleted user (length (subjectsToDisplay p))
       (Resolved true) ∈ emitted (invoke p Next) w
     ∧ CallHasClaimedCompletionBonusToday user (Resolved false)
       ∈ emitted (invoke p Next) w).
Proof.
  destruct w as [s l tr]. unfold flagSound, emitted, invoke, handleNext.
  cbn [st trace]. intros Hw Hpage.
  destruct (currentPage s) eqn:Hp; try (unfold_M; cbn; rewrite ?Hp; done).
  destruct (moreTasksRemain p s); [unfold_M; cbn; done|].
  unfold subjectDone, sessionDone.
  destruct (signedIn p) as [user|].
  2: { assert (Hfalse : canClaimCompletionBonus s = false) by (apply Hw; by left).
       destruct (whenTruthy (currentSubject p s));
         destruct (moreSubjectsRemain p s); unfold_M; cbn;
         rewrite ?drop_all, ?Hp, ?Hfalse; try done; intros _;
         (split; [done|]); intros (u & Hin & _); in_trace. }
  destruct (decide (0 < length (subjectsToDisplay p))) as [Hlen|Hlen].
  2: { assert (Hfalse : canClaimCompletionBonus s = false)
         by (apply Hw; right; lia).
       destruct (whenTruthy (currentSubject p s)) as [subj|];
         try destruct (perfectScore p s subj);
         destruct (moreSubjectsRemain p s);
         destruct (onCoinsUpdated p);
         unfold_M; cbn; repeat (split_call; cbn);
         rewrite <- ?app_assoc, ?drop_app_length, ?drop_all, ?Hp, ?Hfalse;
         cbn [app]; try done; intros _;
         (split; [done|]); intros (u & Hin & _); in_trace. }
  destruct (whenTruthy (currentSubject p s)) as [subj|];
    try destruct (perfectScore p s subj);
    destruct (moreSubjectsRemain p s);
    destruct (onCoinsUpdated p);
    unfold_M; cbn; repeat (split_call; cbn);
    rewrite <- ?app_assoc, ?drop_app_length, ?drop_all, ?Hp; cbn [app];
    try done; intros _;
    first
      [ split; [intros _; exists user; split;
                rewrite !elem_of_cons; auto 10
               |done]
      | split; [done|]; intros (u & Hin & Hin'); in_trace ].
Qed.

(** Only the claim handler calls [claimCompletionBonus]; the others add at
    most 20 coins to the session. *)
Lemma invoke_no_claim `{!RewardLedger L} (p : Props) (a : Action)
    (w : World L) :
  a ≠ Claim →
  count isClaimCall (emitted (invoke p a) w) = 0
  ∧ totalCoinsEarned (st (invoke p a w).2) ≤ totalCoinsEarned (st w) + 20.
Proof.
  intros Ha. destruct a as [i| | |]; [| | |done].
  - unfold emitted, invoke.
    destruct (selectedAnswer (st w)) as [a|] eqn:Hans.
    { rewrite handleAnswerSelect_ignored by (left; congruence).
      cbn. rewrite drop_all, count_nil. lia. }
    destruct (currentTask p (st w)) as [tk|] eqn:Htask.
    2: { rewrite handleAnswerSelect_ignored by (by right).
         cbn. rewrite drop_all, count_nil. lia. }
    destruct (currentTask_subject _ _ _ Htask) as (subj & Hsubj & _).
    pose proof (handleAnswerSelect_accepted p w i tk subj Hans Htask Hsubj)
      as (_ & _ & _ & _ & Hrew).
    cbn zeta in Hrew.
    destruct (signedIn p) as [user|];
      [destruct (decide (_ ∈ awardedQuestions (st w)))|];
      cbn zeta in Hrew; destruct Hrew as (Hrew & _ & Htr);
      unfold rewards in Hrew; injection Hrew as Hcoins _ _ _ _;
      rewrite Htr, Hcoins, ?drop_app_length, ?drop_all,
        ?count_cons, ?count_nil; cbn [isClaimCall].
    + lia.
    + split; [|unfold coinsFor; destruct (bool_decide _); lia].
      destruct (addCoins user _ (ledger w)).1; [destruct (onCoinsUpdated p)|];
        rewrite ?count_cons, ?count_nil; done.
    + lia.
  - destruct w as [s l tr]. unfold emitted, invoke, handleNext. cbn [st trace].
    destruct (currentPage s);
      try (unfold_M; cbn; rewrite ?drop_all, ?count_nil; lia).
    destruct (moreTasksRemain p s);
      [unfold_M; cbn; rewrite ?drop_all, ?count_nil; lia|].
    unfold subjectDone, sessionDone.
    destruct (whenTruthy (currentSubject p s)) as [subj|];
      destruct (signedIn p) as [user|];
      try destruct (perfectScore p s subj);
      destruct (moreSubjectsRemain p s);
      try destruct (decide (0 < length (subjectsToDisplay p)));
      destruct (onCoinsUpdated p);
      unfold_M; cbn; repeat (split_call; cbn);
      rewrite <- ?app_assoc, ?drop_app_length, ?drop_all; cbn [app];
      rewrite ?count_cons, ?count_nil; cbn [isClaimCall]; lia.
  - destruct w as [s l tr]. unfold emitted, invoke, handleBack. cbn [st trace].
    repeat split_decide;
      try (destruct (subjectsToDisplay p !! (currentSubjectIndex s - 1)
                       ≫= λ subj, reminders s !! subj) as [r|];
           [destruct (decide (0 < length (tasks r)))|]);
      unfold_M; cbn; rewrite ?drop_all, ?count_nil; lia.
Qed.

(** What the claim handler does with the reply of the ledger. *)
Lemma handleClaim_run `{!RewardLedger L} (p : Props) (w : World L)
    (user : string) :
  signedIn p = Some user →
  let call := claimCompletionBonus user (ledger w) in
  let granted :=
    match call.1 with
    | Resolved r => success r && bool_decide (is_Some (coins r))
    | Rejected => false
    end in
  let out := invoke p Claim w in
  out.1 = Some tt
  ∧ ledger out.2 = call.2
  ∧ head (emitted (invoke p Claim) w)
    = Some (CallClaimCompletionBonus user call.1)
  ∧ count isClaimCall (emitted (invoke p Claim) w) = 1
  ∧ count (isGrantedClaim user) (emitted (invoke p Claim) w)
    = (if granted then 1 else 0)
  ∧ position (st out.2) = position (st w)
  ∧ counters (st out.2) = counters (st w)
  ∧ loaded (st out.2) = loaded (st w)
  ∧ rewards (st out.2)
    = (if granted
       then (totalCoinsEarned (st w) + 100, awardedQuestions (st w),
             awardedBonuses (st w), false, true)
       else rewards (st w)).
Proof.
  destruct w as [s l tr]. intros Huser. cbn zeta.
  unfold emitted, invoke, handleClaim. rewrite Huser. cbn [ledger st trace].
  destruct (claimCompletionBonus user l) as [[reply|] l'] eqn:Hcall;
    cbn [fst snd];
    [destruct (success reply) eqn:Hs; [destruct (coins reply) eqn:Hc|]|];
    destruct (onCoinsUpdated p);
    unfold_M; cbn; rewrite ?Hcall; cbn; rewrite ?Hs, ?Hc; cbn;
    rewrite <- ?app_assoc, ?drop_app_length; cbn [app head];
    rewrite ?count_cons, ?count_nil; cbn [isClaimCall isGrantedClaim];
    rewrite ?Hs, ?Hc, ?bool_decide_eq_true_2 by (done || eauto);
    cbn; repeat split; try done.
Qed.

(** With the flag down the claim button is not on the screen. *)
Lemma press_claim_disabled `{!RewardLedger L} (p : Props) (w : World L) :
  canClaimCompletionBonus (st w) = false ∨ hasClaimedBonus (st w) = true
  ∨ currentPage (st w) ≠ completion →
  press p ClaimButton w = (Some tt, w).
Proof.
  intros H. unfold press.
  assert (Hoff : pressable p (st w) ClaimButton = false); [|by rewrite Hoff].
  unfold pressable. destruct (view p (st w)) as [| | |pg] eqn:Hview; try done.
  apply view_page in Hview as (_ & _ & _ & Hpage).
  destruct H as [->|[->|Hne]].
  - by rewrite andb_false_r.
  - by rewrite andb_false_r.
  - rewrite bool_decide_eq_false_2; [done|]. congruence.
Qed.

(** *** On the ledger of the specification *)

Lemma count_le (f g : Event → bool) (tr : list Event) :
  (∀ e, f e = true → g e = true) → count f tr ≤ count g tr.
Proof.
  intros Hfg. induction tr as [|e tr IH]; [done|].
  rewrite !count_cons. destruct (f e) eqn:Hf.
  - rewrite (Hfg e Hf). lia.
  - destruct (g e); lia.
Qed.

Lemma isGrantedClaim_isClaimCall (user : string) (e : Event) :
  isGrantedClaim user e = true → isClaimCall e = true.
Proof. by destruct e. Qed.

(** The claim of the ledger: granted once a day. *)
Lemma dayLedger_claim (user : string) (l : DayLedger) :
  let call := claimCompletionBonus user l in
  (user ∈ claimedToday l →
   call.2 = l ∧ ∃ r, call.1 = Resolved r ∧ success r = false)
  ∧ (user ∉ claimedToday l →
     call.1 = Resolved {| success := true;
                          coins := Some (coinsOf user l + 100);
                          message := None |}
     ∧ coinsOf user call.2 = coinsOf user l + 100
     ∧ claimedToday call.2 = claimedToday l ∪ {[user]}
     ∧ (hasClaimedCompletionBonusToday user call.2).1 = Resolved true
     ∧ ∃ r, (claimCompletionBonus user call.2).1 = Resolved r
            ∧ success r = false).
Proof.
  cbn. unfold ledger_claimCompletionBonus. split; intros Hin.
  - rewrite decide_True by done. cbn. eauto.
  - rewrite decide_False by done. cbn.
    split; [done|]. split.
    { unfold coinsOf. cbn. by rewrite lookup_insert_eq. }
    split; [done|]. split.
    { unfold ledger_hasClaimedCompletionBonusToday. cbn.
      rewrite bool_decide_eq_true_2; [done|].
      apply elem_of_union_r. by apply elem_of_singleton. }
    rewrite decide_True; [cbn; eauto|].
    apply elem_of_union_r. by apply elem_of_singleton.
Qed.

(** The other handlers leave the day's claims alone. *)
Lemma invoke_claimedToday (p : Props) (a : Action) (w : World DayLedger) :
  a ≠ Claim →
  claimedToday (ledger (invoke p a w).2) = claimedToday (ledger w).
Proof.
  intros Ha. destruct a as [i| | |]; [| | |done].
  - unfold invoke.
    destruct (selectedAnswer (st w)) as [a|] eqn:Hans.
    { by rewrite handleAnswerSelect_ignored by (left; congruence). }
    destruct (currentTask p (st w)) as [tk|] eqn:Htask.
    2: { by rewrite handleAnswerSelect_ignored by (by right). }
    destruct (currentTask_subject _ _ _ Htask) as (subj & Hsubj & _).
    pose proof (handleAnswerSelect_accepted p w i tk subj Hans Htask Hsubj)
      as (_ & _ & _ & _ & Hrew).
    cbn zeta in Hrew.
    destruct (signedIn p) as [user|];
      [destruct (decide (_ ∈ awardedQuestions (st w)))|];
      cbn zeta in Hrew; destruct Hrew as (_ & -> & _); done.
  - destruct w as [s l tr]. unfold invoke, handleNext. cbn [st].
    destruct (currentPage s); try (unfold_M; cbn; done).
    destruct (moreTasksRemain p s); [unfold_M; cbn; done|].
    unfold subjectDone, sessionDone.
    destruct (whenTruthy (currentSubject p s)) as [subj|];
      destruct (signedIn p) as [user|];
      try destruct (perfectScore p s subj);
      destruct (moreSubjectsRemain p s);
      try destruct (decide (0 < length (subjectsToDisplay p)));
      destruct (onCoinsUpdated p);
      unfold_M; cbn;
      repeat (match goal with
              | |- context [bool_decide ?P] => destruct (bool_decide P)
              end; cbn);
      done.
  - destruct w as [s l tr]. unfold invoke, handleBack. cbn [st].
    repeat split_decide;
      try (destruct (subjectsToDisplay p !! (currentSubjectIndex s - 1)
                       ≫= λ subj, reminders s !! subj) as [r|];
           [destruct (decide (0 < length (tasks r)))|]);
      unfold_M; cbn; done.
Qed.

Lemma handleClaim_claimSummary (p : Props) (w : World DayLedger)
    (user : string) :
  claimSummary user w (after (invoke p Claim) w).
Proof.
  destruct w as [s l tr]. unfold after, invoke, handleClaim.
  destruct (signedIn p) as [u|].
  2: { exists []. cbn. rewrite app_nil_r, count_nil.
       split; [done|]. split; [done|]. split; [lia|]. intros ?; lia. }
  destruct (onCoinsUpdated p); unfold_M; cbn;
    unfold ledger_claimCompletionBonus;
    (destruct (decide (u ∈ claimedToday l)) as [Hin|Hout]; cbn;
     eexists; (split; [rewrite <- ?app_assoc; reflexivity|]);
     cbn [app]; rewrite ?count_cons, ?count_nil; cbn [isGrantedClaim];
     rewrite ?andb_false_r, ?andb_true_r;
     rewrite ?(bool_decide_eq_true_2 (is_Some (Some _))) by eauto;
     rewrite ?andb_true_r;
     [split; [done|]; split; [cbn; lia|]; cbn; intros ?; lia
     |split; [apply union_subseteq_l|];
      destruct (bool_decide (u = user)) eqn:Hu;
      [apply bool_decide_eq_true in Hu; subst u;
       split; [cbn; lia|]; intros _; split; [done|];
       apply elem_of_union_r; by apply elem_of_singleton
      |split; [cbn; lia|]; cbn; intros ?; lia]]).
Qed.

Lemma invoke_claimSummary (p : Props) (a : Action) (w : World DayLedger)
    (user : string) :
  claimSummary user w (after (invoke p a) w).
Proof.
  destruct (decide (a = Claim)) as [->|Ha];
    [apply handleClaim_claimSummary|].
  destruct (invoke_summary p a w) as (evs & Htr & _).
  assert (Hev : emitted (invoke p a) w = evs) by (by apply emitted_app).
  exists evs. split; [done|]. unfold after.
  rewrite (invoke_claimedToday p a w Ha).
  destruct (invoke_no_claim p a w Ha) as [Hnone _]. rewrite Hev in Hnone.
  pose proof (count_le (isGrantedClaim user) isClaimCall evs
                (isGrantedClaim_isClaimCall user)) as Hle.
  split; [done|]. split; [lia|]. intros ?; lia.
Qed.

Lemma invokeAll_claims (p : Props) (acts : list Action) (w : World DayLedger)
    (user : string) (before : list Event) :
  count (isGrantedClaim user) (before ++ trace w) ≤ 1
  ∧ (user ∉ claimedToday (ledger w)
     → count (isGrantedClaim user) (before ++ trace w) = 0) →
  let w' := invokeAll p acts w in
  count (isGrantedClaim user) (before ++ trace w') ≤ 1
  ∧ (user ∉ claimedToday (ledger w')
     → count (isGrantedClaim user) (before ++ trace w') = 0).
Proof.
  revert w. induction acts as [|a acts IH]; intros w Hw; [done|].
  cbn zeta. cbn [invokeAll foldl]. apply IH. clear IH.
  destruct (invoke_claimSummary p a w user) as (evs & -> & Hsub & Hle & Hnew).
  destruct Hw as [Hone Hzero].
  rewrite app_assoc, count_app. split.
  - destruct (decide (0 < count (isGrantedClaim user) evs)) as [Hpos|]; [|lia].
    destruct (Hnew Hpos) as [Hfresh _]. specialize (Hzero Hfresh). lia.
  - intros Hout.
    assert (Hfresh : user ∉ claimedToday (ledger w))
      by (intros Hin; apply Hout; by apply Hsub).
    specialize (Hzero Hfresh).
    destruct (decide (0 < count (isGrantedClaim user) evs)) as [Hpos|]; [|lia].
    destruct (Hnew Hpos) as [_ Hin]. done.
Qed.

Lemma runDay_claims (sessions : list (Props * ContentProvider * list Action))
    (l : DayLedger) (tr : list Event) (user : string) :
  count (isGrantedClaim user) tr ≤ 1
  ∧ (user ∉ claimedToday l → count (isGrantedClaim user) tr = 0) →
  count (isGrantedClaim user) (runDay sessions l tr).1 ≤ 1
  ∧ (user ∉ claimedToday (runDay sessions l tr).2
     → count (isGrantedClaim user) (runDay sessions l tr).1 = 0).
Proof.
  revert l tr. induction sessions as [|[[p provider] acts] rest IH];
    intros l tr Hinv; [done|].
  cbn [runDay]. apply IH. apply invokeAll_claims.
  destruct (started_trace p provider l) as (-> & _ & _ & _ & _ & Htr).
  assert (Hsame : count (isGrantedClaim user)
                    (tr ++ trace (started p provider l))
                  = count (isGrantedClaim user) tr).
  { rewrite count_app.
    destruct Htr as [->|[->| ->]]; rewrite ?count_cons, ?count_nil; cbn; lia. }
  by rewrite Hsame.
Qed.

Lemma press_flagSound `{!RewardLedger L} (p : Props) (b : Button)
    (w : World L) :
  flagSound p w → flagSound p (after (press p b) w).
Proof.
  intros Hw. unfold after, press.
  destruct (pressable p (st w) b); [|done].
  destruct b.
  - done.
  - apply (invoke_flagSound p (Answer (Z.of_nat index)) w Hw).
  - apply (invoke_flagSound p Next w Hw).
  - apply (invoke_flagSound p Back w Hw).
  - apply (invoke_flagSound p Claim w Hw).
Qed.

Lemma pressAll_flagSound `{!RewardLedger L} (p : Props) (bs : list Button)
    (w : World L) :
  flagSound p w → flagSound p (pressAll p bs w).
Proof.
  revert w. induction bs as [|b bs IH]; intros w Hw; [done|].
  cbn. apply IH. by apply press_flagSound.
Qed.

(** C5.  In a session, when [handleNext] reaches the completion page, the
    claim flag is up exactly when the ledger has answered
    [areAllDailyTasksCompleted] (asked with the number of subjects on
    display) with true and [hasClaimedCompletionBonusToday] with false.  No
    handler but the claim handler calls [claimCompletionBonus], and the
    others add at most 20 coins to the session: the 100 coins come with the
    claim only.  The claim handler never throws; when the ledger grants the
    claim it adds 100 to the session's coins, raises [hasClaimedBonus] and
    lowers the flag, and otherwise it leaves the session as it is.  With the
    flag down, or [hasClaimedBonus] up, the claim button is off the screen
    and a press on it does nothing.  On the ledger of the specification a
    granted claim adds 100 coins and marks the day's bonus as claimed, a
    claim on a day already claimed fails and changes nothing, and over the
    sessions of one day, whatever handlers are invoked, no user is granted
    more than one claim. *)
Theorem completion_bonus_once :
  (∀ `{!RewardLedger L} (p : Props) (provider : ContentProvider) (l : L)
     (acts : list Action) (bs : list Button) (w : World L),
     w = invokeAll p acts (started p provider l)
     ∨ w = pressAll p bs (started p provider l) →
     currentPage (st w) ≠ completion →
     currentPage (st (invoke p Next w).2) = completion →
     (canClaimCompletionBonus (st (invoke p Next w).2) = true ↔
      ∃ user,
        CallAreAllDailyTasksCompleted user (length (subjectsToDisplay p))
          (Resolved true) ∈ emitted (invoke p Next) w
        ∧ CallHasClaimedCompletionBonusToday user (Resolved false)
          ∈ emitted (invoke p Next) w))
  ∧ (∀ `{!RewardLedger L} (p : Props) (a : Action) (w : World L),
       a ≠ Claim →
       count isClaimCall (emitted (invoke p a) w) = 0
       ∧ totalCoinsEarned (st (invoke p a w).2) ≤ totalCoinsEarned (st w) + 20)
  ∧ (∀ `{!RewardLedger L} (p : Props) (w : World L) (user : string),
       signedIn p = Some user →
       let call := claimCompletionBonus user (ledger w) in
       let granted :=
         match call.1 with
         | Resolved r => success r && bool_decide (is_Some (coins r))
         | Rejected => false
         end in
       let out := invoke p Claim w in
       out.1 = Some tt
       ∧ count isClaimCall (emitted (invoke p Claim) w) = 1
       ∧ count (isGrantedClaim user) (emitted (invoke p Claim) w)
         = (if granted then 1 else 0)
       ∧ position (st out.2) = position (st w)
       ∧ counters (st out.2) = counters (st w)
       ∧ rewards (st out.2)
         = (if granted
            then (totalCoinsEarned (st w) + 100, awardedQuestions (st w),
                  awardedBonuses (st w), false, true)
            else rewards (st w)))
  ∧ (∀ `{!RewardLedger L} (p : Props) (w : World L),
       canClaimCompletionBonus (st w) = false ∨ hasClaimedBonus (st w) = true
       ∨ currentPage (st w) ≠ completion →
       press p ClaimButton w = (Some tt, w))
  ∧ (∀ (user : string) (l : DayLedger),
       let call := claimCompletionBonus user l in
       (user ∈ claimedToday l →
        call.2 = l ∧ ∃ r, call.1 = Resolved r ∧ success r = false)
       ∧ (user ∉ claimedToday l →
          call.1 = Resolved {| success := true;
                               coins := Some (coinsOf user l + 100);
                               message := None |}
          ∧ coinsOf user call.2 = coinsOf user l + 100
          ∧ claimedToday call.2 = claimedToday l ∪ {[user]}
          ∧ (hasClaimedCompletionBonusToday user call.2).1 = Resolved true
          ∧ ∃ r, (claimCompletionBonus user call.2).1 = Resolved r
                 ∧ success r = false))
  ∧ (∀ (sessions : list (Props * ContentProvider * list Action))
       (l : DayLedger) (user : string),
       count (isGrantedClaim user) (runDay sessions l []).1 ≤ 1).
Proof.
  split; [|split; [|split; [|split; [|split]]]].
  - intros L R p provider l acts bs w Hw Hpage Hreach.
    apply completion_reached; [|done|done].
    destruct Hw as [-> | ->].
    + apply invokeAll_flagSound, started_flagSound.
    + apply pressAll_flagSound, started_flagSound.
  - intros L R p a w Ha. by apply invoke_no_claim.
  - intros L R p w user Huser.
    pose proof (handleClaim_run p w user Huser) as H. cbn zeta in H.
    cbn zeta. tauto.
  - intros L R p w H. by apply press_claim_disabled.
  - intros user l. apply dayLedger_claim.
  - intros sessions l user.
    apply (runDay_claims sessions l [] user).
    rewrite count_nil. split; [lia|done].
Qed.


Lemma rewards_inv (s : State) (c : nat) (aq ab : gset string) (cc hc : bool) :
  rewards s = (c, aq, ab, cc, hc) →
  totalCoinsEarned s = c ∧ awardedQuestions s = aq ∧ awardedBonuses s = ab
  ∧ canClaimCompletionBonus s = cc ∧ hasClaimedBonus s = hc.
Proof. unfold rewards. by intros [= -> -> -> -> ->]. Qed.

(** The demo session: the press that reaches the completion page raises
    the flag, the first claim is granted and the second finds the button
    gone; over two such sessions in one day one claim is granted. *)
Lemma completion_bonus_once_witness :
  canClaimCompletionBonus (st (invoke demoProps Next demoFinalExplanation).2)
  = true
  ∧ totalCoinsEarned (st (invoke demoProps Claim demoCompleted).2)
    = totalCoinsEarned (st demoCompleted) + 100
  ∧ press demoProps ClaimButton (invoke demoProps Claim demoCompleted).2
    = (Some tt, (invoke demoProps Claim demoCompleted).2)
  ∧ count (isGrantedClaim "juris") (runDay demoDay emptyLedger []).1 ≤ 1.
Proof.
  destruct completion_bonus_once as (Hflag & _ & Hclaim & Hoff & _ & Hday).
  split; [|split; [|split]].
  - apply (Hflag DayLedger _ demoProps demoProvider emptyLedger []
             [NextButton; NextButton; OptionButton 1; NextButton;
              OptionButton 0; NextButton; OptionButton 2; NextButton;
              NextButton; NextButton; OptionButton 1; NextButton;
              OptionButton 1; NextButton; OptionButton 1; NextButton;
              NextButton; NextButton; OptionButton 3]
             demoFinalExplanation).
    + right. reflexivity.
    + vm_compute. discriminate.
    + vm_compute. reflexivity.
    + exists "juris".
      assert (Hev : emitted (invoke demoProps Next) demoFinalExplanation
                    = [CallMarkSubjectCompleted "juris" "C" (Resolved tt);
                       CallAreAllDailyTasksCompleted "juris" 3 (Resolved true);
                       CallHasClaimedCompletionBonusToday "juris"
                         (Resolved false)])
        by (vm_compute; reflexivity).
      rewrite Hev.
      assert (Hlen : length (subjectsToDisplay demoProps) = 3)
        by (vm_compute; reflexivity).
      rewrite Hlen. split; rewrite !elem_of_cons; auto.
  - assert (Huser : signedIn demoProps = Some "juris")
      by (vm_compute; reflexivity).
    destruct (Hclaim DayLedger _ demoProps demoCompleted "juris" Huser)
      as (_ & _ & _ & _ & _ & Hrew).
    match type of Hrew with
    | _ = (if ?b then _ else _) =>
        assert (Hgranted : b = true) by (vm_compute; reflexivity);
        rewrite Hgranted in Hrew
    end.
    exact (proj1 (rewards_inv _ _ _ _ _ _ Hrew)).
  - apply Hoff. left. vm_compute. reflexivity.
  - apply Hday.
Defined.

(** * Further properties of the screen *)

(** ** Starting a session *)

(** Runs a handler by value on a world whose trace is not known. *)
Ltac run_M_open :=
  cbv [after setCurrentSubjectIndex setCurrentTaskIndex setSelectedAnswer
    setCurrentPage setReminders setIsLoading setError setTotalCoinsEarned
    setCorrectAnswers setTotalQuestions setSubjectCorrectAnswers
    setSubjectTotalQuestions setAwardedQuestions setAwardedBonuses
    setCanClaimCompletionBonus setHasClaimedBonus
    when try_catch update emit mbind M_bind mret M_ret st ledger trace fst snd
    updCurrentSubjectIndex updCurrentTaskIndex updSelectedAnswer updCurrentPage
    updReminders updIsLoading updError updTotalCoinsEarned updCorrectAnswers
    updTotalQuestions updSubjectCorrectAnswers updSubjectTotalQuestions
    updAwardedQuestions updAwardedBonuses updCanClaimCompletionBonus
    updHasClaimedBonus position counters rewards loaded
    currentSubjectIndex currentTaskIndex selectedAnswer currentPage reminders
    isLoading error totalCoinsEarned correctAnswers totalQuestions
    subjectCorrectAnswers subjectTotalQuestions awardedQuestions awardedBonuses
    canClaimCompletionBonus hasClaimedBonus].

(** X1.  The effect that starts a session, run on any state of the screen
    (it runs again whenever the selection or the lessons change): it never
    throws and leaves the ledger alone; it puts every accumulator back to
    zero or empty and lowers both bonus flags, but it keeps the position
    (subject index, task index, answer and page) the screen was at.  With no
    subject to display it issues no fetch and sets the no-subjects message;
    otherwise it issues exactly one fetch and either installs the reminders
    that came back, with no error, or logs the rejection and sets its message,
    keeping the reminders it had. *)
Theorem startSession_resets `{!RewardLedger L} (p : Props)
    (provider : ContentProvider) (w : World L) :
  let out := startSession p provider w in
  let s' := st out.2 in
  out.1 = Some tt
  ∧ ledger out.2 = ledger w
  ∧ position s' = position (st w)
  ∧ counters s' = (0, 0, ∅, ∅)
  ∧ rewards s' = (0, ∅, ∅, false, false)
  ∧ isLoading s' = false
  ∧ match subjectsToDisplay p with
    | [] =>
        emitted (startSession p provider) w = []
        ∧ error s' = Some noSubjectsMessage
        ∧ reminders s' = reminders (st w)
    | _ :: _ =>
        match provider (subjectsToDisplay p) (subjectLessons p) with
        | FetchResolved rs =>
            emitted (startSession p provider) w
            = [CallFetch (subjectsToDisplay p)]
            ∧ error s' = None
            ∧ reminders s' = rs
        | FetchRejected msg =>
            emitted (startSession p provider) w
            = [CallFetch (subjectsToDisplay p);
               ConsoleError "Error loading reminders:"]
            ∧ error s' = Some (orElse msg fetchFailedMessage)
            ∧ reminders s' = reminders (st w)
        end
    end.
Proof.
  destruct w as [s l tr]. cbn zeta.
  unfold emitted, startSession, loadReminders, subjectLessons,
    subjectsToDisplay, allUniqueSubjects.
  generalize (if decide (0 < length (selectedSubjects p))
              then filter (λ s, s ∈ filter truthy
                                      (Array_from_Set (subject <$> lessons p)))
                     (selectedSubjects p)
              else filter truthy (Array_from_Set (subject <$> lessons p))).
  intros subjects.
  destruct (decide (length subjects = 0)) as [Hlen|Hlen].
  - destruct subjects; [|done]. run_M_open.
    rewrite drop_all. repeat (split; [reflexivity|]). done.
  - destruct subjects as [|subj rest]; [done|].
    destruct (provider (subj :: rest) _); run_M_open;
      rewrite <- ?app_assoc, drop_app_length;
      repeat (split; [reflexivity|]); done.
Qed.

Lemma started_eq `{!RewardLedger L} (p : Props) (provider : ContentProvider)
    (l : L) :
  started p provider l = (startSession p provider (mounted l)).2.
Proof. reflexivity. Qed.

Lemma pressable_close_only (p : Props) (s : State) :
  (∃ msg, view p s = ErrorView msg) ∨ view p s = NoReminderView →
  ∀ b, pressable p s b = true ↔ b = CloseButton.
Proof.
  intros Hview b. unfold pressable.
  destruct Hview as [[msg ->]| ->]; by destruct b.
Qed.

(** X2.  What the screen shows once a freshly mounted session has started.
    With no subject to display it is the error view with the no-subjects
    message; when the fetch rejects, the error view with the rejection's
    message or the default one; when the fetch resolves, the first theory
    page if the reminders hold an entry for the first subject, and the
    no-reminder view if they do not.  On the first theory page the buttons
    are Close and Next; on every other of these views Close is the only
    one. *)
Theorem started_view `{!RewardLedger L} (p : Props)
    (provider : ContentProvider) (l : L) :
  let s := st (started p provider l) in
  view p s
  = match subjectsToDisplay p with
    | [] => ErrorView noSubjectsMessage
    | first :: _ =>
        match provider (subjectsToDisplay p) (subjectLessons p) with
        | FetchRejected msg => ErrorView (orElse msg fetchFailedMessage)
        | FetchResolved rs =>
            if decide (is_Some (rs !! first)) then PageView theory1
            else NoReminderView
        end
    end
  ∧ ∀ b, pressable p s b = true ↔
         b = CloseButton ∨ (view p s = PageView theory1 ∧ b = NextButton).
Proof.
  cbn zeta. rewrite started_eq.
  pose proof (startSession_resets p provider (mounted l))
    as (_ & _ & Hpos & _ & _ & Hload & Hcase).
  cbn zeta in Hpos, Hload, Hcase.
  set (s := st (startSession p provider (mounted l)).2) in *.
  apply position_inv in Hpos as (Hsi & _ & Hans & Hpage).
  cbn in Hsi, Hans, Hpage.
  assert (Hview : view p s
    = match subjectsToDisplay p with
      | [] => ErrorView noSubjectsMessage
      | first :: _ =>
          match provider (subjectsToDisplay p) (subjectLessons p) with
          | FetchRejected msg => ErrorView (orElse msg fetchFailedMessage)
          | FetchResolved rs =>
              if decide (is_Some (rs !! first)) then PageView theory1
              else NoReminderView
          end
      end).
  { unfold view. rewrite Hload.
    destruct (subjectsToDisplay p) as [|first rest] eqn:Hsubjects.
    - destruct Hcase as (_ & -> & _). by rewrite whenTruthy_Some.
    - destruct (provider (first :: rest) (subjectLessons p)) as [rs|msg].
      + destruct Hcase as (_ & -> & Hrs). cbn [whenTruthy].
        assert (Hcur : currentSubject p s = Some first).
        { unfold currentSubject. by rewrite Hsi, Hsubjects. }
        unfold currentReminder.
        rewrite (currentSubject_truthy _ _ _ Hcur), Hrs, Hpage.
        destruct (rs !! first) as [r|] eqn:Hr.
        * rewrite decide_True by eauto. done.
        * rewrite decide_False; [done|]. by intros [? ?].
      + destruct Hcase as (_ & -> & _).
        rewrite whenTruthy_Some; [done|]. by apply orElse_truthy. }
  split; [exact Hview|].
  intros b. destruct (view p s) as [|msg| |pg] eqn:Hv.
  - exfalso. revert Hview.
    destruct (subjectsToDisplay p); [done|].
    destruct (provider _ _); [|done]. by destruct (decide _).
  - rewrite (pressable_close_only p s) by (left; eauto; by rewrite Hv).
    split; [by left|]. by intros [?|[? _]].
  - rewrite (pressable_close_only p s) by (by right).
    split; [by left|]. by intros [?|[? _]].
  - assert (pg = theory1) as ->.
    { revert Hview. destruct (subjectsToDisplay p); [done|].
      destruct (provider _ _); [|done]. destruct (decide _); congruence. }
    unfold pressable. rewrite Hv.
    destruct b; cbn; rewrite ?andb_false_r; try (split; [by left|done]).
    + split; [done|]. by intros [?|[_ ?]].
    + split; [by right|done].
    + split; [done|]. by intros [?|[_ ?]].
    + split; [done|]. by intros [?|[_ ?]].
Qed.

(** ** The subjects on display *)

Lemma NoDup_firstOccurrences (xs : list string) : NoDup (firstOccurrences xs).
Proof.
  induction xs as [|x rest IH]; [constructor|]. cbn. constructor.
  - intros [Hne _]%list_elem_of_filter. done.
  - by apply NoDup_filter.
Qed.

Lemma filter_all (P : string → Prop) `{!∀ x, Decision (P x)}
    (l : list string) :
  (∀ x, x ∈ l → P x) → filter P l = l.
Proof.
  induction l as [|x l IH]; intros Hl; [done|].
  rewrite filter_cons_True by (apply Hl; left).
  f_equal. apply IH. intros y Hy. apply Hl. by right.
Qed.

(** X3.  The subjects on display.  Each of them is a non-empty string, is
    the subject of some lesson and, when something was selected, is one of
    the selected subjects; with a selection they come in the order of the
    selection (they are a sub-list of it).  With nothing selected they are
    free of duplicates and every non-empty lesson subject is among them.  A
    non-empty selection made of non-empty subjects that all occur in the
    lessons is displayed as it is. *)
Theorem subjectsToDisplay_sound (p : Props) :
  (∀ s, s ∈ subjectsToDisplay p →
        truthy s ∧ s ∈ subject <$> lessons p
        ∧ (selectedSubjects p ≠ [] → s ∈ selectedSubjects p))
  ∧ (selectedSubjects p ≠ [] → sublist (subjectsToDisplay p) (selectedSubjects p))
  ∧ (selectedSubjects p = [] →
     NoDup (subjectsToDisplay p)
     ∧ ∀ s, truthy s → s ∈ subject <$> lessons p → s ∈ subjectsToDisplay p)
  ∧ (selectedSubjects p ≠ [] →
     (∀ s, s ∈ selectedSubjects p → truthy s ∧ s ∈ subject <$> lessons p) →
     subjectsToDisplay p = selectedSubjects p).
Proof.
  assert (Hall : ∀ s, s ∈ allUniqueSubjects (lessons p)
                      ↔ truthy s ∧ s ∈ subject <$> lessons p).
  { intros s. unfold allUniqueSubjects.
    rewrite list_elem_of_filter, Array_from_Set_firstOccurrences.
    by rewrite elem_of_firstOccurrences. }
  unfold subjectsToDisplay.
  destruct (selectedSubjects p) as [|s0 sel] eqn:Hsel.
  - rewrite decide_False by (cbn; lia).
    split; [|split; [done|split; [|done]]].
    + intros s Hs. apply Hall in Hs as [? ?]. done.
    + intros _. split.
      * unfold allUniqueSubjects. apply NoDup_filter.
        rewrite Array_from_Set_firstOccurrences. apply NoDup_firstOccurrences.
      * intros s ? ?. by apply Hall.
  - rewrite decide_True by (cbn; lia).
    split; [|split; [|split; [done|]]].
    + intros s [Hin Hs]%list_elem_of_filter. apply Hall in Hin as [? ?]. done.
    + intros _. apply sublist_filter.
    + intros _ Hok. apply filter_all. intros s Hs. apply Hall. by apply Hok.
Qed.

Lemma subjectsToDisplay_sound_witness :
  NoDup (subjectsToDisplay demoProps).
Proof.
  exact (proj1 (proj1 (proj2 (proj2 (subjectsToDisplay_sound demoProps)))
                  eq_refl)).
Defined.

(** ** The home page *)

Lemma indexOf_not_in (x : string) (l : list string) :
  x ∉ l → indexOf x l = (-1)%Z.
Proof.
  induction l as [|y l IH]; [done|]. intros Hx. cbn.
  rewrite decide_False by (intros ->; apply Hx; left).
  rewrite IH by (intros ?; apply Hx; by right). done.
Qed.

Lemma indexOf_in (x : string) (l : list string) :
  x ∈ l → (0 ≤ indexOf x l < Z.of_nat (length l))%Z.
Proof.
  induction l as [|y l IH]; [by intros ?%elem_of_nil|]. intros Hx. cbn.
  destruct (decide (y = x)) as [->|Hne]; [lia|].
  apply elem_of_cons in Hx as [->|Hx]; [done|]. specialize (IH Hx).
  rewrite decide_False by lia. lia.
Qed.

Lemma indexOf_app_l (x : string) (pre rest : list string) :
  x ∈ pre → indexOf x (pre ++ rest) = indexOf x pre.
Proof.
  induction pre as [|y pre IH]; [by intros ?%elem_of_nil|]. intros Hx. cbn.
  destruct (decide (y = x)) as [->|Hne]; [done|].
  apply elem_of_cons in Hx as [->|Hx]; [done|]. by rewrite IH.
Qed.

Lemma indexOf_app_r (x : string) (pre rest : list string) :
  x ∉ pre → indexOf x (pre ++ x :: rest) = Z.of_nat (length pre).
Proof.
  induction pre as [|y pre IH]; intros Hx; cbn.
  - by rewrite decide_True.
  - rewrite decide_False by (intros ->; apply Hx; left).
    rewrite IH by (intros ?; apply Hx; by right).
    rewrite decide_False by lia. lia.
Qed.

Lemma filterFrom_firstOccurrences (self pre l : list string) :
  self = pre ++ l →
  filterFrom (length pre)
    (λ subj index, bool_decide (indexOf subj self = Z.of_nat index)) l
  = filter (λ y, y ∉ pre) (firstOccurrences l).
Proof.
  revert pre. induction l as [|x l IH]; intros pre Hself; [done|].
  cbn [filterFrom firstOccurrences].
  assert (Hnext : self = (pre ++ [x]) ++ l) by (by rewrite <- app_assoc).
  specialize (IH (pre ++ [x]) Hnext).
  rewrite length_app in IH. cbn [length] in IH.
  rewrite Nat.add_1_r in IH. rewrite IH.
  destruct (decide (x ∈ pre)) as [Hin|Hout].
  - rewrite bool_decide_eq_false_2.
    2: { rewrite Hself, indexOf_app_l by done.
         pose proof (indexOf_in x pre Hin). lia. }
    rewrite filter_cons_False by (intros H; by apply H).
    rewrite list_filter_filter. apply list_filter_iff. intros y.
    rewrite elem_of_app, list_elem_of_singleton. split; [tauto|].
    intros [Hy Hne]. tauto.
  - rewrite bool_decide_eq_true_2 by (by rewrite Hself, indexOf_app_r).
    rewrite filter_cons_True by done. f_equal.
    rewrite list_filter_filter. apply list_filter_iff. intros y.
    rewrite elem_of_app, list_elem_of_singleton. tauto.
Qed.

Lemma getUniqueSubjects_firstOccurrences (ls : list Lesson) :
  getUniqueSubjects ls = firstOccurrences (subject <$> ls).
Proof.
  unfold getUniqueSubjects.
  rewrite (filterFrom_firstOccurrences (subject <$> ls) [] (subject <$> ls))
    by done.
  apply filter_all. intros y _. apply not_elem_of_nil.
Qed.

(** X4.  The home page and the reminder screen remove duplicate subjects
    alike: [getUniqueSubjects], which keeps the elements found at their own
    first index, gives the list that passing through a [Set] gives, first
    occurrences in order.  So the reminder screen, given the same lessons and
    no selection, displays the subjects the home page lists, without the
    empty ones. *)
Theorem getUniqueSubjects_Array_from_Set (ls : list Lesson) :
  getUniqueSubjects ls = Array_from_Set (subject <$> ls)
  ∧ NoDup (getUniqueSubjects ls)
  ∧ (∀ s, s ∈ getUniqueSubjects ls ↔ s ∈ subject <$> ls)
  ∧ ∀ (user : option string) (cb : bool),
      subjectsToDisplay {| selectedSubjects := []; lessons := ls;
                           username := user; onCoinsUpdated := cb |}
      = filter truthy (getUniqueSubjects ls).
Proof.
  pose proof (getUniqueSubjects_firstOccurrences ls) as Heq.
  split; [by rewrite Array_from_Set_firstOccurrences|].
  split; [rewrite Heq; apply NoDup_firstOccurrences|].
  split; [intros s; rewrite Heq; apply elem_of_firstOccurrences|].
  intros user cb. unfold subjectsToDisplay, allUniqueSubjects. cbn.
  by rewrite Array_from_Set_firstOccurrences, Heq.
Qed.

(** ** The selection of the home page *)

Lemma Set_add_elem_of (acc : list string) (x y : string) :
  y ∈ Set_add acc x ↔ y ∈ acc ∨ y = x.
Proof.
  unfold Set_add. destruct (decide (x ∈ acc)) as [Hin|Hout].
  - split; [by left|]. intros [?| ->]; done.
  - rewrite elem_of_app, list_elem_of_singleton. tauto.
Qed.

Lemma Set_delete_elem_of (acc : list string) (x y : string) :
  y ∈ Set_delete acc x ↔ y ∈ acc ∧ y ≠ x.
Proof. unfold Set_delete. rewrite list_elem_of_filter. tauto. Qed.

Lemma Set_delete_fresh (acc : list string) (x : string) :
  x ∉ acc → Set_delete acc x = acc.
Proof.
  intros Hout. unfold Set_delete. apply filter_all.
  intros y Hy ->. done.
Qed.

Lemma Set_delete_length (acc : list string) (x : string) :
  NoDup acc → x ∈ acc → S (length (Set_delete acc x)) = length acc.
Proof.
  unfold Set_delete. induction 1 as [|y acc Hy Hnd IH]; intros Hin.
  - by apply elem_of_nil in Hin.
  - destruct (decide (y = x)) as [->|Hne].
    + rewrite filter_cons_False by (intros ?; done).
      fold (Set_delete acc x). rewrite Set_delete_fresh by done. done.
    + rewrite filter_cons_True by done. cbn. f_equal. apply IH.
      apply elem_of_cons in Hin as [->|?]; done.
Qed.

(** X5.  Toggling a subject of the home page's selection, a [Set] kept as
    the duplicate-free list of its elements: the result is again
    duplicate-free, the toggled subject is in it exactly when it was not
    before, every other subject stays in or out, the size changes by one, and
    a second toggle gives back the same set. *)
Theorem toggleSubjectSelection_flips (sel : list string) (subj : string)
    (Hset : NoDup sel) :
  NoDup (toggleSubjectSelection sel subj)
  ∧ (subj ∈ toggleSubjectSelection sel subj ↔ subj ∉ sel)
  ∧ (∀ other, other ≠ subj →
       (other ∈ toggleSubjectSelection sel subj ↔ other ∈ sel))
  ∧ length (toggleSubjectSelection sel subj)
    = (if decide (subj ∈ sel) then length sel - 1 else length sel + 1)
  ∧ toggleSubjectSelection (toggleSubjectSelection sel subj) subj ≡ₚ sel.
Proof.
  unfold toggleSubjectSelection. cbn zeta.
  destruct (decide (subj ∈ sel)) as [Hin|Hout].
  - split; [by apply NoDup_filter|].
    split; [rewrite Set_delete_elem_of; tauto|].
    split; [intros other ?; rewrite Set_delete_elem_of; tauto|].
    split; [pose proof (Set_delete_length sel subj Hset Hin); lia|].
    rewrite decide_False by (rewrite Set_delete_elem_of; tauto).
    unfold Set_add.
    rewrite decide_False by (rewrite Set_delete_elem_of; tauto).
    apply NoDup_Permutation; [|done|].
    + apply NoDup_app. split; [by apply NoDup_filter|].
      split; [|apply NoDup_singleton].
      intros y Hy ->%list_elem_of_singleton.
      apply Set_delete_elem_of in Hy. tauto.
    + intros y. rewrite elem_of_app, Set_delete_elem_of, list_elem_of_singleton.
      destruct (decide (y = subj)) as [->|]; tauto.
  - unfold Set_add. rewrite !decide_False by done.
    split.
    { apply NoDup_app. split; [done|]. split; [|apply NoDup_singleton].
      by intros y Hy ->%list_elem_of_singleton. }
    split; [rewrite elem_of_app, list_elem_of_singleton; tauto|].
    split.
    { intros other ?. rewrite elem_of_app, list_elem_of_singleton. tauto. }
    split; [rewrite length_app; cbn; lia|].
    rewrite decide_True by (rewrite elem_of_app, list_elem_of_singleton; tauto).
    unfold Set_delete. rewrite filter_app.
    fold (Set_delete sel subj). rewrite Set_delete_fresh by done.
    rewrite filter_cons_False by (intros ?; done).
    rewrite filter_nil. by rewrite app_nil_r.
Qed.

Lemma toggleSubjectSelection_flips_witness :
  toggleSubjectSelection (toggleSubjectSelection ["Maths"; "Physics"] "Maths")
    "Maths" ≡ₚ ["Maths"; "Physics"].
Proof.
  apply (toggleSubjectSelection_flips ["Maths"; "Physics"] "Maths").
  apply NoDup_cons. split.
  - intros Hin%list_elem_of_singleton. discriminate.
  - apply NoDup_singleton.
Defined.

Lemma filter_iff_in (P Q : string → Prop) `{!∀ x, Decision (P x)}
    `{!∀ x, Decision (Q x)} (l : list string) :
  (∀ x, x ∈ l → (P x ↔ Q x)) → filter P l = filter Q l.
Proof.
  induction l as [|x l IH]; intros Hl; [done|].
  assert (Hx : P x ↔ Q x) by (apply Hl, elem_of_cons; by left).
  assert (Hrest : filter P l = filter Q l).
  { apply IH. intros y Hy. apply Hl, elem_of_cons. by right. }
  destruct (decide (P x)) as [HP|HP].
  - rewrite !filter_cons_True by tauto. by rewrite Hrest.
  - rewrite !filter_cons_False by tauto. done.
Qed.

(** X6.  The hand-over from the home page to the reminder screen.
    [handleReminderButton] hands nothing over exactly when the callback is
    missing or when nothing is selected and there is no lesson for tomorrow;
    what it hands over is never empty: the selection, or without one the
    unique subjects of tomorrow's lessons.  The reminder screen, which [App]
    opens with that list and all the lessons of the user, displays the
    entries of the list that are non-empty and subjects of those lessons, in
    the order of the list; when nothing was selected and tomorrow's lessons
    are among the user's lessons, these are tomorrow's unique subjects
    without the empty ones. *)
Theorem handleReminderButton_handover (cb : bool) (sel : list string)
    (ls : list Lesson) :
  match handleReminderButton cb sel ls with
  | None => cb = false ∨ (sel = [] ∧ ls = [])
  | Some handed =>
      cb = true ∧ handed ≠ []
      ∧ handed = (if decide (sel = []) then getUniqueSubjects ls else sel)
      ∧ ∀ (allLessons : list Lesson) (user : string),
          subjectsToDisplay (reminderProps allLessons user handed)
          = filter (λ s, truthy s ∧ s ∈ subject <$> allLessons) handed
          ∧ (sel = [] → ls ⊆ allLessons →
             subjectsToDisplay (reminderProps allLessons user handed)
             = filter truthy (getUniqueSubjects ls))
  end.
Proof.
  pose proof (getUniqueSubjects_firstOccurrences ls) as Heq.
  assert (Hmem : ∀ s, s ∈ getUniqueSubjects ls ↔ s ∈ subject <$> ls).
  { intros s. rewrite Heq. apply elem_of_firstOccurrences. }
  unfold handleReminderButton. cbn zeta.
  set (handed := if decide (0 < length sel) then sel
                 else getUniqueSubjects ls).
  assert (Hhanded : handed = if decide (sel = []) then getUniqueSubjects ls
                             else sel).
  { subst handed. destruct sel; cbn; [done|].
    rewrite decide_True by lia. done. }
  destruct (decide (length handed = 0)) as [Hempty|Hfull].
  - right. apply length_zero_iff_nil in Hempty. rewrite Hhanded in Hempty.
    destruct (decide (sel = [])) as [->|]; [|done].
    split; [done|]. destruct ls as [|l ls]; [done|].
    assert (Hin : subject l ∈ getUniqueSubjects (l :: ls)).
    { apply Hmem. cbn. apply elem_of_cons. by left. }
    rewrite Hempty in Hin. by apply elem_of_nil in Hin.
  - destruct cb; [|by left].
    assert (Hne : handed ≠ []) by (by intros ->).
    split; [done|]. split; [done|]. split; [done|].
    intros allLessons user.
    assert (Hshown : subjectsToDisplay (reminderProps allLessons user handed)
                     = filter (λ s, truthy s ∧ s ∈ subject <$> allLessons)
                         handed).
    { unfold subjectsToDisplay, reminderProps. cbn.
      rewrite decide_True by (destruct handed; [done|cbn; lia]).
      apply list_filter_iff. intros s. unfold allUniqueSubjects.
      rewrite list_elem_of_filter, Array_from_Set_firstOccurrences,
        elem_of_firstOccurrences. tauto. }
    split; [done|].
    intros -> Hsub. rewrite Hshown, Hhanded. cbn.
    apply filter_iff_in. intros s Hs. split; [tauto|].
    intros Ht. split; [done|].
    apply Hmem in Hs. apply list_elem_of_fmap in Hs as (l & -> & Hl).
    apply list_elem_of_fmap. exists l. split; [done|]. by apply Hsub.
Qed.

(** ** The daily progress of the home page *)

(** X7.  The progress of the home page, when no subject is recorded as
    completed twice: the count of completed subjects never exceeds the
    number of subjects, and the day counts as completed exactly when there
    is a lesson and every lesson subject is among the completed ones. *)
Theorem isAllCompleted_sound (completedTasks : list string) (ls : list Lesson)
    (Hset : NoDup completedTasks) :
  completedCount completedTasks ls ≤ totalTasks ls
  ∧ (isAllCompleted completedTasks ls = true ↔
     ls ≠ [] ∧ ∀ s, s ∈ subject <$> ls → s ∈ completedTasks).
Proof.
  pose proof (getUniqueSubjects_firstOccurrences ls) as Heq.
  assert (Hmem : ∀ s, s ∈ getUniqueSubjects ls ↔ s ∈ subject <$> ls).
  { intros s. rewrite Heq. apply elem_of_firstOccurrences. }
  assert (Hnd : NoDup (getUniqueSubjects ls))
    by (rewrite Heq; apply NoDup_firstOccurrences).
  unfold isAllCompleted, completedCount, totalTasks.
  set (unique := getUniqueSubjects ls) in *.
  set (done_ := filter (λ t, t ∈ unique) completedTasks).
  assert (Hsub : done_ ⊆+ unique).
  { apply NoDup_submseteq; [by apply NoDup_filter|].
    intros s Hs. apply list_elem_of_filter in Hs. tauto. }
  split; [by apply submseteq_length|].
  rewrite andb_true_iff, !bool_decide_eq_true. split.
  - intros [Hpos Hle]. split.
    { intros ->. subst unique. cbn in Hpos. lia. }
    intros s Hs%Hmem.
    assert (Hperm : done_ ≡ₚ unique)
      by (by apply submseteq_length_Permutation).
    rewrite <- Hperm in Hs. apply list_elem_of_filter in Hs. tauto.
  - intros [Hne Hall]. split.
    + destruct ls as [|l ls]; [done|].
      assert (Hin : subject l ∈ unique).
      { apply Hmem. cbn. apply elem_of_cons. by left. }
      destruct unique; [by apply elem_of_nil in Hin|cbn; lia].
    + apply submseteq_length, NoDup_submseteq; [done|].
      intros s Hs. apply list_elem_of_filter. split; [done|].
      by apply Hall, Hmem.
Qed.

Lemma isAllCompleted_sound_witness :
  completedCount ["A"; "B"; "C"] demoLessons ≤ totalTasks demoLessons.
Proof.
  apply (isAllCompleted_sound ["A"; "B"; "C"] demoLessons).
  repeat (apply NoDup_cons; split;
          [rewrite ?elem_of_cons, elem_of_nil; intros H;
           repeat (destruct H as [H|H]; [discriminate H|]); exact H|]).
  apply NoDup_nil_2.
Defined.

(** ** The two theory pages *)

Lemma append_String (c : Ascii.ascii) (s t : string) :
  String c s +:+ t = String c (s +:+ t).
Proof. reflexivity. Qed.

Lemma append_nil_r (s : string) : s +:+ EmptyString = s.
Proof. induction s as [|c s IH]; [done|]. by rewrite append_String, IH. Qed.

Lemma append_assoc (a b c : string) : (a +:+ b) +:+ c = a +:+ (b +:+ c).
Proof. induction a as [|x a IH]; [done|]. by rewrite !append_String, IH. Qed.

Lemma splitOnSpace_cons (s : string) :
  ∃ word words, splitOnSpace s = word :: words.
Proof.
  induction s as [|c s (word & words & IH)]; [by eexists _, _|].
  cbn. destruct (decide (c = space)); [by eexists _, _|].
  rewrite IH. by eexists _, _.
Qed.

Lemma joinWithSpace_cons (word : string) (w1 : string) (words : list string) :
  joinWithSpace (word :: w1 :: words)
  = word +:+ String space (joinWithSpace (w1 :: words)).
Proof. done. Qed.

Lemma joinWithSpace_splitOnSpace (s : string) :
  joinWithSpace (splitOnSpace s) = s.
Proof.
  induction s as [|c s IH]; [done|].
  cbn [splitOnSpace].
  destruct (splitOnSpace_cons s) as (word & words & Hs).
  rewrite Hs in *. destruct (decide (c = space)) as [->|Hc].
  - rewrite joinWithSpace_cons, IH. done.
  - destruct words as [|w1 words].
    + cbn [joinWithSpace] in *. by rewrite IH.
    + rewrite joinWithSpace_cons in *. rewrite <- IH. done.
Qed.

Lemma joinWithSpace_app (xs ys : list string) :
  xs ≠ [] → ys ≠ [] →
  joinWithSpace (xs ++ ys)
  = joinWithSpace xs +:+ String space (joinWithSpace ys).
Proof.
  intros Hxs Hys. induction xs as [|x xs IH]; [done|].
  destruct xs as [|x1 xs].
  - destruct ys as [|y ys]; [done|]. done.
  - change ((x :: x1 :: xs) ++ ys) with (x :: x1 :: (xs ++ ys)).
    rewrite !joinWithSpace_cons.
    change (x1 :: xs ++ ys) with ((x1 :: xs) ++ ys).
    rewrite IH by done. by rewrite append_assoc.
Qed.

Lemma splitOnSpace_no_space (s : string) :
  Forall (λ word, hasChar space word = false) (splitOnSpace s).
Proof.
  induction s as [|c s IH]; [by repeat constructor|].
  cbn [splitOnSpace]. destruct (decide (c = space)) as [->|Hc].
  - by constructor.
  - destruct (splitOnSpace s) as [|word words].
    + constructor; [|done]. cbn. by rewrite bool_decide_eq_false_2.
    + apply Forall_cons in IH as [Hword Hwords]. constructor; [|done].
      cbn. rewrite Hword. by rewrite bool_decide_eq_false_2.
Qed.

(** X8.  The theory is cut into two pages at the middle word.  The words
    are the pieces between the spaces (none contains a space, there is at
    least one); the first page takes half of them, rounded up, so it is
    never empty-handed and has as many words as the second page or one more.
    A theory of one word is the first page as it is, and the second page is
    empty; otherwise the first page, a space and the second page give back
    the theory. *)
Theorem theory_pages_rejoin (theoryContent : string) :
  let words := theoryWords theoryContent in
  let first := take (midPoint theoryContent) words in
  let second := drop (midPoint theoryContent) words in
  0 < length words
  ∧ Forall (λ word, hasChar space word = false) words
  ∧ 0 < length first
  ∧ (length first = length second ∨ length first = length second + 1)
  ∧ (if decide (length words = 1)
     then theoryPage1 theoryContent = theoryContent
          ∧ theoryPage2 theoryContent = EmptyString
     else theoryPage1 theoryContent
            +:+ String space (theoryPage2 theoryContent)
          = theoryContent).
Proof.
  cbn zeta. unfold theoryPage1, theoryPage2, midPoint, theoryWords.
  pose proof (joinWithSpace_splitOnSpace theoryContent) as Hjoin.
  pose proof (splitOnSpace_no_space theoryContent) as Hwords.
  destruct (splitOnSpace_cons theoryContent) as (word & rest & Hs).
  set (words := splitOnSpace theoryContent) in *.
  assert (Hlen : 0 < length words) by (rewrite Hs; cbn; lia).
  set (mid := (length words + 1) / 2).
  assert (Hmid : 2 * mid = length words ∨ 2 * mid = length words + 1).
  { subst mid. pose proof (Nat.div_mod_eq (length words + 1) 2) as Hdm.
    pose proof (Nat.mod_upper_bound (length words + 1) 2). lia. }
  split; [done|]. split; [done|].
  rewrite length_take, length_drop.
  split; [lia|]. split; [lia|].
  destruct (decide (length words = 1)) as [Hone|Hmore].
  - assert (mid = 1) as -> by lia.
    rewrite take_ge, drop_ge by lia. by rewrite Hjoin.
  - rewrite <- joinWithSpace_app.
    + by rewrite take_drop.
    + intros Hnil%(f_equal length). rewrite length_take in Hnil.
      change (length []) with 0 in Hnil. lia.
    + intros Hnil%(f_equal length). rewrite length_drop in Hnil.
      change (length []) with 0 in Hnil. lia.
Qed.

(** ** How the handlers move the session *)

Lemma handleNext_moves `{!RewardLedger L} (p : Props) (w : World L) :
  let s := st w in
  let s' := st (after (invoke p Next) w) in
  counters s' = counters s ∧ loaded s' = loaded s
  ∧ match currentPage s with
    | theory1 =>
        position s' = (currentSubjectIndex s, currentTaskIndex s,
                       selectedAnswer s, theory2)
    | theory2 => position s' = (currentSubjectIndex s, 0, None, task)
    | explanation =>
        if decide (currentTaskIndex s + 1 < currentTaskCount p s) then
          position s' = (currentSubjectIndex s, currentTaskIndex s + 1, None, task)
        else
          position s' = position s
          ∨ position s'
            = (if decide (currentSubjectIndex s + 1
                          < length (subjectsToDisplay p))
               then (currentSubjectIndex s + 1, 0, None, theory1)
               else (currentSubjectIndex s, currentTaskIndex s,
                     selectedAnswer s, completion))
    | task | completion => position s' = position s
    end.
Proof.
  destruct w as [s l tr]. cbn zeta. unfold after, invoke, handleNext. cbn [st].
  rewrite moreTasksRemain_nat, moreSubjectsRemain_nat.
  destruct (currentPage s) eqn:Hpage.
  1-3,5: unfold_M; cbn; rewrite ?Hpage; done.
  destruct (decide (currentTaskIndex s + 1 < currentTaskCount p s)) as [Hmore|Hlast].
  { rewrite bool_decide_eq_true_2 by done.
    unfold_M; cbn; rewrite ?Hpage; done. }
  rewrite (bool_decide_eq_false_2 (currentTaskIndex s + 1 < _)) by done.
  unfold subjectDone, sessionDone.
  destruct (decide (currentSubjectIndex s + 1 < length (subjectsToDisplay p)));
    [rewrite bool_decide_eq_true_2 by done
    |rewrite (bool_decide_eq_false_2 (currentSubjectIndex s + 1 < _)) by done];
    destruct (whenTruthy (currentSubject p s)) as [subj|];
    destruct (signedIn p) as [user|];
    try destruct (perfectScore p s subj);
    try destruct (decide (0 < length (subjectsToDisplay p)));
    destruct (onCoinsUpdated p);
    unfold_M; cbn;
    repeat (split_call; cbn);
    cbn; rewrite ?Hpage;
    (split; [done|]); (split; [done|]); first [by left | by right].
Qed.

Lemma handleBack_moves `{!RewardLedger L} (p : Props) (w : World L) :
  let s := st w in
  let out := invoke p Back w in
  out.1 = Some tt ∧ ledger out.2 = ledger w ∧ trace out.2 = trace w
  ∧ counters (st out.2) = counters s
  ∧ rewards (st out.2) = rewards s
  ∧ loaded (st out.2) = loaded s
  ∧ position (st out.2) =
      match currentPage s with
      | task =>
          if decide (0 < currentTaskIndex s)
          then (currentSubjectIndex s, currentTaskIndex s - 1, None, explanation)
          else position s
      | explanation => (currentSubjectIndex s, currentTaskIndex s, None, task)
      | theory2 =>
          (currentSubjectIndex s, currentTaskIndex s, selectedAnswer s, theory1)
      | theory1 =>
          if decide (0 < currentSubjectIndex s) then
            if decide (0 < taskCountOf p s (currentSubjectIndex s - 1))
            then (currentSubjectIndex s - 1,
                  taskCountOf p s (currentSubjectIndex s - 1) - 1,
                  selectedAnswer s, explanation)
            else (currentSubjectIndex s - 1, currentTaskIndex s,
                  selectedAnswer s, theory2)
          else position s
      | completion => position s
      end.
Proof.
  destruct w as [s l tr]. cbn zeta. unfold invoke, handleBack, taskCountOf. cbn [st].
  destruct (currentPage s) eqn:Hpage;
    repeat split_decide; try solve [exfalso; intuition (discriminate || lia)];
    try (destruct (subjectsToDisplay p !! (currentSubjectIndex s - 1)
                     ≫= λ subj, reminders s !! subj) as [r|] eqn:Hprev;
         [destruct (tasks r) as [|tk0 rest] eqn:Htasks; cbn [length]|]);
    repeat split_decide; try solve [exfalso; intuition (discriminate || lia)];
    unfold_M; cbn; rewrite ?Hpage, ?Nat.sub_0_r; done.
Qed.

Lemma handleClaim_moves `{!RewardLedger L} (p : Props) (w : World L) :
  let s := st w in
  let s' := st (after (invoke p Claim) w) in
  position s' = position s ∧ counters s' = counters s ∧ loaded s' = loaded s.
Proof.
  destruct w as [s l tr]. cbn zeta. unfold after, invoke, handleClaim.
  destruct (signedIn p) as [user|]; [|done].
  destruct (onCoinsUpdated p); unfold_M; cbn; split_call; cbn;
    try (destruct (success reply); [destruct (coins reply)|]); done.
Qed.

(** A press runs a handler, closes the screen or does nothing. *)
Lemma press_cases `{!RewardLedger L} (p : Props) (b : Button) (w : World L) :
  after (press p b) w = w
  ∨ (b = CloseButton
     ∧ after (press p b) w
       = {| st := st w; ledger := ledger w; trace := trace w ++ [Closed] |})
  ∨ pressable p (st w) b = true
    ∧ match b with
      | CloseButton => False
      | OptionButton i =>
          after (press p b) w = after (invoke p (Answer (Z.of_nat i))) w
      | NextButton => after (press p b) w = after (invoke p Next) w
      | BackButton => after (press p b) w = after (invoke p Back) w
      | ClaimButton => after (press p b) w = after (invoke p Claim) w
      end.
Proof.
  unfold after, press. destruct (pressable p (st w) b) eqn:Hp; [|by left].
  destruct b; [right; left; done|..]; right; right; done.
Qed.

(** ** The position stays within the subjects and the tasks *)

Lemma taskCountOf_current (p : Props) (s : State) :
  currentTaskCount p s = taskCountOf p s (currentSubjectIndex s).
Proof.
  unfold currentTaskCount, taskCountOf, currentReminder.
  destruct (currentSubject p s) as [subj|] eqn:Hsubj.
  - pose proof (currentSubject_truthy p s subj Hsubj) as Ht.
    rewrite Hsubj in Ht. rewrite Ht.
    unfold currentSubject in Hsubj. rewrite Hsubj. done.
  - unfold currentSubject in Hsubj. rewrite Hsubj. done.
Qed.

Lemma taskCountOf_ext (p : Props) (s s' : State) (i : nat) :
  reminders s' = reminders s → taskCountOf p s' i = taskCountOf p s i.
Proof. unfold taskCountOf. by intros ->. Qed.

Lemma currentTask_is_Some (p : Props) (s : State) :
  is_Some (currentTask p s) ↔ currentTaskIndex s < currentTaskCount p s.
Proof.
  unfold currentTask, currentTaskCount.
  destruct (currentReminder p s) as [r|].
  - apply lookup_lt_is_Some.
  - split; [by intros [? ?]|lia].
Qed.

(** [wellPlaced] read on the components of the position. *)
Lemma wellPlaced_position (p : Props) (s : State) (a b : nat)
    (c : option Z) (d : Page) :
  position s = (a, b, c, d) →
  wellPlaced p s ↔
  (a = 0 ∨ a < length (subjectsToDisplay p))
  ∧ (b = 0 ∨ b < taskCountOf p s a)
  ∧ (d = theory1 ∨ d = theory2 → b = 0)
  ∧ (d = explanation → b < taskCountOf p s a).
Proof.
  intros (Ha & Hb & _ & Hd)%position_inv. unfold wellPlaced.
  rewrite currentTask_is_Some, taskCountOf_current, Ha, Hb, Hd. done.
Qed.

Lemma wellPlaced_moved (p : Props) (s s' : State) (a b : nat)
    (c : option Z) (d : Page) :
  position s' = (a, b, c, d) → reminders s' = reminders s →
  (a = 0 ∨ a < length (subjectsToDisplay p))
  ∧ (b = 0 ∨ b < taskCountOf p s a)
  ∧ (d = theory1 ∨ d = theory2 → b = 0)
  ∧ (d = explanation → b < taskCountOf p s a) →
  wellPlaced p s'.
Proof.
  intros Hpos Hrem Hw. apply (wellPlaced_position p s' _ _ _ _ Hpos).
  by rewrite !(taskCountOf_ext p s s') by done.
Qed.

Lemma wellPlaced_ext (p : Props) (s s' : State) :
  position s' = position s → reminders s' = reminders s →
  wellPlaced p s → wellPlaced p s'.
Proof.
  intros Hpos Hrem.
  rewrite (wellPlaced_position p s _ _ _ _ eq_refl).
  rewrite (wellPlaced_position p s' _ _ _ _ Hpos).
  by rewrite !(taskCountOf_ext p s s') by done.
Qed.

Lemma invoke_wellPlaced `{!RewardLedger L} (p : Props) (a : Action)
    (w : World L) :
  wellPlaced p (st w) → wellPlaced p (st (after (invoke p a) w)).
Proof.
  intros Hw. pose proof Hw as Hw0.
  rewrite (wellPlaced_position p (st w) _ _ _ _ eq_refl) in Hw.
  destruct Hw as (Hsubj & Htask & Htheory & Hexpl).
  destruct a as [i| | |].
  - unfold after, invoke.
    destruct (selectedAnswer (st w)) as [a|] eqn:Hans.
    { by rewrite handleAnswerSelect_ignored by (left; congruence). }
    destruct (currentTask p (st w)) as [tk|] eqn:Htk.
    2: { by rewrite handleAnswerSelect_ignored by (by right). }
    destruct (currentTask_subject _ _ _ Htk) as (subj & Hsubj' & _).
    pose proof (handleAnswerSelect_accepted p w i tk subj Hans Htk Hsubj')
      as (_ & Hpos & _ & Hload & _).
    cbn zeta in Hpos, Hload. apply loaded_inv in Hload as (Hrem & _ & _).
    apply (wellPlaced_moved p (st w) _ _ _ _ _ Hpos Hrem).
    assert (Hlt : currentTaskIndex (st w) < currentTaskCount p (st w))
      by (apply currentTask_is_Some; by rewrite Htk).
    rewrite taskCountOf_current in Hlt.
    split; [done|]. split; [by right|]. split; [|done].
    intros [?|?]; discriminate.
  - pose proof (handleNext_moves p w) as (_ & Hload & Hpos).
    cbn zeta in Hload, Hpos. apply loaded_inv in Hload as (Hrem & _ & _).
    destruct (currentPage (st w)) eqn:Hpage.
    + apply (wellPlaced_moved p (st w) _ _ _ _ _ Hpos Hrem).
      split; [done|]. split; [done|]. split; [intros _; by apply Htheory; left|].
      discriminate.
    + apply (wellPlaced_moved p (st w) _ _ _ _ _ Hpos Hrem).
      split; [done|]. split; [by left|]. split; [|discriminate].
      intros [?|?]; discriminate.
    + by apply (wellPlaced_ext p (st w)).
    + rewrite taskCountOf_current in Hpos.
      destruct (decide (currentTaskIndex (st w) + 1
                        < taskCountOf p (st w) (currentSubjectIndex (st w)))).
      * apply (wellPlaced_moved p (st w) _ _ _ _ _ Hpos Hrem).
        split; [done|]. split; [by right|]. split; [|discriminate].
        intros [?|?]; discriminate.
      * destruct Hpos as [Hpos|Hpos]; [by apply (wellPlaced_ext p (st w))|].
        destruct (decide (currentSubjectIndex (st w) + 1
                          < length (subjectsToDisplay p))).
        -- apply (wellPlaced_moved p (st w) _ _ _ _ _ Hpos Hrem).
           split; [by right|]. split; [by left|]. split; [done|discriminate].
        -- apply (wellPlaced_moved p (st w) _ _ _ _ _ Hpos Hrem).
           split; [done|]. split; [done|]. split; [|discriminate].
           intros [?|?]; discriminate.
    + by apply (wellPlaced_ext p (st w)).
  - pose proof (handleBack_moves p w) as (_ & _ & _ & _ & _ & Hload & Hpos).
    cbn zeta in Hload, Hpos. apply loaded_inv in Hload as (Hrem & _ & _).
    unfold after.
    destruct (currentPage (st w)) eqn:Hpage.
    + destruct (decide (0 < currentSubjectIndex (st w)));
        [|by apply (wellPlaced_ext p (st w))].
      destruct (decide (0 < taskCountOf p (st w)
                             (currentSubjectIndex (st w) - 1))).
      * apply (wellPlaced_moved p (st w) _ _ _ _ _ Hpos Hrem).
        split; [right; lia|]. split; [right; lia|].
        split; [intros [?|?]; discriminate|]. intros _. lia.
      * apply (wellPlaced_moved p (st w) _ _ _ _ _ Hpos Hrem).
        assert (currentTaskIndex (st w) = 0) as -> by (apply Htheory; by left).
        split; [right; lia|]. split; [by left|]. split; [done|discriminate].
    + apply (wellPlaced_moved p (st w) _ _ _ _ _ Hpos Hrem).
      split; [done|]. split; [done|]. split; [|discriminate].
      intros _. apply Htheory. by right.
    + destruct (decide (0 < currentTaskIndex (st w)));
        [|by apply (wellPlaced_ext p (st w))].
      apply (wellPlaced_moved p (st w) _ _ _ _ _ Hpos Hrem).
      split; [done|]. split; [right; lia|].
      split; [intros [?|?]; discriminate|]. intros _. lia.
    + apply (wellPlaced_moved p (st w) _ _ _ _ _ Hpos Hrem).
      split; [done|]. split; [done|]. split; [|discriminate].
      intros [?|?]; discriminate.
    + by apply (wellPlaced_ext p (st w)).
  - pose proof (handleClaim_moves p w) as (Hpos & _ & Hload).
    cbn zeta in Hload, Hpos. apply loaded_inv in Hload as (Hrem & _ & _).
    by apply (wellPlaced_ext p (st w)).
Qed.

Lemma started_position `{!RewardLedger L} (p : Props)
    (provider : ContentProvider) (l : L) :
  position (st (started p provider l)) = (0, 0, None, theory1)
  ∧ counters (st (started p provider l)) = (0, 0, ∅, ∅)
  ∧ rewards (st (started p provider l)) = (0, ∅, ∅, false, false).
Proof.
  destruct (started_trace p provider l) as (_ & Hpos & Hcnt & Hrew & _).
  done.
Qed.

Lemma started_wellPlaced `{!RewardLedger L} (p : Props)
    (provider : ContentProvider) (l : L) :
  wellPlaced p (st (started p provider l)).
Proof.
  destruct (started_position p provider l) as (Hpos & _).
  apply (wellPlaced_position p _ _ _ _ _ Hpos).
  split; [by left|]. split; [by left|]. split; [done|discriminate].
Qed.

Lemma press_wellPlaced `{!RewardLedger L} (p : Props) (b : Button)
    (w : World L) :
  wellPlaced p (st w) → wellPlaced p (st (after (press p b) w)).
Proof.
  intros Hw.
  destruct (press_cases p b w) as [->|[[_ ->]|[_ Hrun]]]; [done|done|].
  destruct b; [done|..]; rewrite Hrun; by apply invoke_wellPlaced.
Qed.

(** X9.  Wherever a session that was started goes, by any sequence of
    handler runs and so by any sequence of presses, its position is within
    bounds: the subject index is 0 or the index of a displayed subject; the
    task index is 0 or the index of a task of the current subject; on the
    theory pages the task index is 0; on the explanation page there is a
    current task. *)
Theorem session_wellPlaced `{!RewardLedger L} (p : Props)
    (provider : ContentProvider) (l : L) :
  (∀ acts, wellPlaced p (st (invokeAll p acts (started p provider l))))
  ∧ (∀ presses, wellPlaced p (st (pressAll p presses (started p provider l)))).
Proof.
  pose proof (started_wellPlaced p provider l) as Hstart.
  revert Hstart. generalize (started p provider l). intros w Hw. split.
  - intros acts. revert w Hw.
    induction acts as [|a acts IH]; intros w Hw; [done|].
    cbn. apply IH. by apply invoke_wellPlaced.
  - intros presses. revert w Hw.
    induction presses as [|b presses IH]; intros w Hw; [done|].
    cbn. apply IH. by apply press_wellPlaced.
Qed.

(** ** The counters agree with each other *)

Lemma sumValues_insert (m : gmap string nat) (k : string) :
  sumValues (<[k := default 0 (m !! k) + 1]> m) = sumValues m + 1.
Proof.
  unfold sumValues.
  assert (Hcomm : ∀ (m' : gmap string nat) (j1 j2 : string) (z1 z2 y : nat),
            j1 ≠ j2 → m' !! j1 = Some z1 → m' !! j2 = Some z2 →
            z1 + (z2 + y) = z2 + (z1 + y)) by (intros; lia).
  destruct (m !! k) as [v|] eqn:Hk; cbn [from_option id].
  - rewrite <- (insert_delete_eq m k (v + 1)).
    rewrite <- (insert_delete_id m k v Hk) at 2.
    rewrite !map_fold_insert_L; [lia|..];
      first [by apply lookup_delete_eq | by apply Hcomm].
  - rewrite map_fold_insert_L; [lia|by apply Hcomm|done].
Qed.

Lemma counters_inv (s : State) (a b : nat) (c d : gmap string nat) :
  counters s = (a, b, c, d) →
  correctAnswers s = a ∧ totalQuestions s = b
  ∧ subjectCorrectAnswers s = c ∧ subjectTotalQuestions s = d.
Proof. unfold counters. by intros [= -> -> -> ->]. Qed.

Lemma wellCounted_ext (p : Props) (s s' : State) :
  counters s' = counters s → wellCounted p s → wellCounted p s'.
Proof.
  intros (Ha & Hb & Hc & Hd)%counters_inv. unfold wellCounted.
  by rewrite Ha, Hb, Hc, Hd.
Qed.

Lemma invoke_wellCounted `{!RewardLedger L} (p : Props) (a : Action)
    (w : World L) :
  wellCounted p (st w) → wellCounted p (st (after (invoke p a) w)).
Proof.
  intros Hw. destruct a as [i| | |].
  - unfold after, invoke.
    destruct (selectedAnswer (st w)) as [a|] eqn:Hans.
    { by rewrite handleAnswerSelect_ignored by (left; congruence). }
    destruct (currentTask p (st w)) as [tk|] eqn:Htk.
    2: { by rewrite handleAnswerSelect_ignored by (by right). }
    destruct (currentTask_subject _ _ _ Htk) as (subj & Hsubj' & Hsubj).
    pose proof (handleAnswerSelect_accepted p w i tk subj Hans Htk Hsubj')
      as (_ & _ & Hcnt & _).
    cbn zeta in Hcnt. apply counters_inv in Hcnt as (Ha & Hb & Hc & Hd).
    destruct Hw as (Hle & Hsub & Htot & Hcor & Hkeys).
    unfold wellCounted. rewrite Ha, Hb, Hc, Hd.
    split; [destruct (bool_decide (i = correctAnswer tk)); lia|].
    split.
    { intros subj0. specialize (Hsub subj0).
      destruct (decide (subj = subj0)) as [<-|Hne].
      - rewrite lookup_insert_eq.
        destruct (bool_decide (i = correctAnswer tk));
          rewrite ?lookup_insert_eq; cbn [from_option id] in *; lia.
      - rewrite lookup_insert_ne by done.
        destruct (bool_decide (i = correctAnswer tk));
          rewrite ?lookup_insert_ne by done; done. }
    split; [rewrite sumValues_insert; lia|].
    split.
    { destruct (bool_decide (i = correctAnswer tk));
        rewrite ?sumValues_insert; lia. }
    intros subj0 [->|Hold]%lookup_insert_is_Some'.
    + unfold currentSubject in Hsubj. by eapply list_elem_of_lookup_2.
    + by apply Hkeys.
  - pose proof (handleNext_moves p w) as (Hcnt & _).
    by apply (wellCounted_ext p (st w)).
  - pose proof (handleBack_moves p w) as (_ & _ & _ & Hcnt & _).
    by apply (wellCounted_ext p (st w)).
  - pose proof (handleClaim_moves p w) as (_ & Hcnt & _).
    by apply (wellCounted_ext p (st w)).
Qed.

Lemma press_wellCounted `{!RewardLedger L} (p : Props) (b : Button)
    (w : World L) :
  wellCounted p (st w) → wellCounted p (st (after (press p b) w)).
Proof.
  intros Hw.
  destruct (press_cases p b w) as [->|[[_ ->]|[_ Hrun]]]; [done|done|].
  destruct b; [done|..]; rewrite Hrun; by apply invoke_wellCounted.
Qed.

(** X10.  Wherever a session that was started goes, its counters agree:
    the right answers are not more than the answers, in all and for every
    subject; the two totals are the sums of the per-subject counters; and
    only displayed subjects have a counter. *)
Theorem session_wellCounted `{!RewardLedger L} (p : Props)
    (provider : ContentProvider) (l : L) :
  (∀ acts, wellCounted p (st (invokeAll p acts (started p provider l))))
  ∧ (∀ presses, wellCounted p (st (pressAll p presses (started p provider l)))).
Proof.
  assert (Hstart : wellCounted p (st (started p provider l))).
  { destruct (started_position p provider l) as (_ & Hcnt & _).
    apply counters_inv in Hcnt as (Ha & Hb & Hc & Hd).
    unfold wellCounted. rewrite Ha, Hb, Hc, Hd.
    split; [done|]. split; [intros subj; by rewrite !lookup_empty|].
    split; [done|]. split; [done|].
    intros subj [? Hin]. by rewrite lookup_empty in Hin. }
  revert Hstart. generalize (started p provider l). intros w Hw. split.
  - intros acts. revert w Hw.
    induction acts as [|a acts IH]; intros w Hw; [done|].
    cbn. apply IH. by apply invoke_wellCounted.
  - intros presses. revert w Hw.
    induction presses as [|b presses IH]; intros w Hw; [done|].
    cbn. apply IH. by apply press_wellCounted.
Qed.

(** ** The coins of the session are those of its events *)

Lemma earnedIn_app (l k : list Event) :
  earnedIn (l ++ k) = earnedIn l + earnedIn k.
Proof.
  unfold earnedIn. induction l as [|e l IH]; [done|].
  cbn [app foldr]. rewrite IH. lia.
Qed.

(** Closes a goal on the events and the coins of one handler run. *)
Ltac coins_step :=
  eexists;
  (split; [rewrite <- ?app_assoc;
           first [reflexivity | symmetry; apply app_nil_r]|]);
  cbn; lia.

Lemma invoke_coins `{!RewardLedger L} (p : Props) (a : Action) (w : World L) :
  ∃ evs, trace (after (invoke p a) w) = trace w ++ evs
         ∧ totalCoinsEarned (st (after (invoke p a) w))
           = totalCoinsEarned (st w) + earnedIn evs.
Proof.
  destruct a as [i| | |].
  - unfold after, invoke.
    destruct (selectedAnswer (st w)) as [a|] eqn:Hans.
    { rewrite handleAnswerSelect_ignored by (left; congruence).
      exists []. by rewrite app_nil_r, Nat.add_0_r. }
    destruct (currentTask p (st w)) as [tk|] eqn:Htk.
    2: { rewrite handleAnswerSelect_ignored by (by right).
         exists []. by rewrite app_nil_r, Nat.add_0_r. }
    destruct (currentTask_subject _ _ _ Htk) as (subj & Hsubj' & _).
    pose proof (handleAnswerSelect_accepted p w i tk subj Hans Htk Hsubj')
      as (_ & _ & _ & _ & Hrew).
    cbn zeta in Hrew.
    destruct (signedIn p) as [user|].
    + destruct (decide (_ ∈ awardedQuestions (st w))).
      * destruct Hrew as (Hrew & _ & Htr).
        apply rewards_inv in Hrew as (Hcoins & _).
        eexists. split; [exact Htr|]. rewrite Hcoins. cbn. lia.
      * cbn zeta in Hrew. destruct Hrew as (Hrew & _ & Htr).
        apply rewards_inv in Hrew as (Hcoins & _).
        eexists. split; [exact Htr|]. rewrite Hcoins.
        destruct (addCoins user _ (ledger w)).1;
          [destruct (onCoinsUpdated p)|]; cbn; lia.
    + destruct Hrew as (Hrew & _ & Htr).
      apply rewards_inv in Hrew as (Hcoins & _).
      exists []. rewrite app_nil_r. split; [exact Htr|].
      rewrite Hcoins. cbn. lia.
  - destruct w as [s l tr]. unfold after, invoke, handleNext. cbn [st].
    destruct (currentPage s); try (unfold_M; cbn; coins_step).
    destruct (moreTasksRemain p s); [unfold_M; cbn; coins_step|].
    unfold subjectDone, sessionDone.
    destruct (whenTruthy (currentSubject p s)) as [subj|];
      destruct (signedIn p) as [user|];
      try destruct (perfectScore p s subj);
      destruct (moreSubjectsRemain p s);
      try destruct (decide (0 < length (subjectsToDisplay p)));
      destruct (onCoinsUpdated p);
      unfold_M; cbn;
      repeat (split_call; cbn);
      coins_step.
  - pose proof (handleBack_moves p w) as (_ & _ & Htr & _ & Hrew & _).
    cbn zeta in Htr, Hrew. unfold after. exists [].
    rewrite app_nil_r. split; [done|].
    apply rewards_inv in Hrew as (Hcoins & _).
    rewrite Hcoins. cbn. lia.
  - destruct w as [s l tr]. unfold after, invoke, handleClaim.
    destruct (signedIn p) as [user|]; [|unfold_M; cbn; coins_step].
    destruct (onCoinsUpdated p); unfold_M; cbn; split_call; cbn;
      try (destruct reply as [[|] [total|] msg]);
      cbn; coins_step.
Qed.

Lemma invoke_coinsAccounted `{!RewardLedger L} (p : Props) (a : Action)
    (w : World L) :
  coinsAccounted w → coinsAccounted (after (invoke p a) w).
Proof.
  unfold coinsAccounted. intros Hw.
  destruct (invoke_coins p a w) as (evs & -> & ->).
  rewrite earnedIn_app. lia.
Qed.

Lemma press_coinsAccounted `{!RewardLedger L} (p : Props) (b : Button)
    (w : World L) :
  coinsAccounted w → coinsAccounted (after (press p b) w).
Proof.
  intros Hw.
  destruct (press_cases p b w) as [->|[[_ ->]|[_ Hrun]]]; [done|..].
  - unfold coinsAccounted in *. cbn [st trace].
    rewrite earnedIn_app, Hw. cbn. lia.
  - destruct b; [done|..]; rewrite Hrun; by apply invoke_coinsAccounted.
Qed.

(** X11.  The coins the session shows as earned are accounted for by the
    calls it made.  Wherever a started session goes, the counter is the sum
    of: the amount of every question award it issued, whether the ledger
    resolved or rejected the call (the counter is raised before the call);
    20 for every perfect-score award the ledger resolved (the counter is
    raised after the call); 100 for every claim the ledger granted. *)
Theorem session_coinsAccounted `{!RewardLedger L} (p : Props)
    (provider : ContentProvider) (l : L) :
  (∀ acts, coinsAccounted (invokeAll p acts (started p provider l)))
  ∧ (∀ presses, coinsAccounted (pressAll p presses (started p provider l))).
Proof.
  assert (Hstart : coinsAccounted (started p provider l)).
  { destruct (started_trace p provider l) as (_ & _ & _ & Hrew & _ & Htr).
    apply rewards_inv in Hrew as (Hcoins & _).
    unfold coinsAccounted. rewrite Hcoins.
    by destruct Htr as [->|[->| ->]]. }
  revert Hstart. generalize (started p provider l). intros w Hw. split.
  - intros acts. revert w Hw.
    induction acts as [|a acts IH]; intros w Hw; [done|].
    cbn. apply IH. by apply invoke_coinsAccounted.
  - intros presses. revert w Hw.
    induction presses as [|b presses IH]; intros w Hw; [done|].
    cbn. apply IH. by apply press_coinsAccounted.
Qed.

(** ** What the buttons allow *)

(** The page a button is pressed on. *)
Lemma pressable_handler (p : Props) (s : State) (b : Button) :
  pressable p s b = true →
  match b with
  | CloseButton => True
  | OptionButton i =>
      currentPage s = task ∧ selectedAnswer s = None
      ∧ is_Some (currentTask p s)
  | NextButton => currentPage s ≠ completion ∧ currentPage s ≠ task
  | BackButton => currentPage s = theory2 ∨ currentPage s = explanation
  | ClaimButton => currentPage s = completion
  end.
Proof.
  destruct b as [|i| | |]; [done|..].
  - intros (Hview & Hsel & tk & Htk & _)%pressable_option.
    apply view_page in Hview as (_ & _ & _ & Hpage). by rewrite Htk.
  - unfold pressable. destruct (view p s) as [| | |pg] eqn:Hview; try done.
    apply view_page in Hview as (_ & _ & _ & ->).
    rewrite andb_true_iff, !bool_decide_eq_true. done.
  - unfold pressable. destruct (view p s) as [| | |pg] eqn:Hview; try done.
    apply view_page in Hview as (_ & _ & _ & ->).
    rewrite andb_true_iff, orb_true_iff, !bool_decide_eq_true. tauto.
  - unfold pressable. destruct (view p s) as [| | |pg] eqn:Hview; try done.
    apply view_page in Hview as (_ & _ & _ & ->).
    rewrite !andb_true_iff, !bool_decide_eq_true. tauto.
Qed.

Lemma pressAll_preserves `{!RewardLedger L} (p : Props)
    (P : World L → Prop) :
  (∀ b w, P w → P (after (press p b) w)) →
  ∀ presses w, P w → P (pressAll p presses w).
Proof.
  intros Hstep presses.
  induction presses as [|b presses IH]; intros w Hw; [done|].
  cbn. apply IH. by apply Hstep.
Qed.





(** X13.  A dead end.  On the task page of a subject without a task at the
    current index there is no option to choose, no Next and no Back: the
    only button is Close, and whatever is pressed the session stays as it
    is. *)
Theorem task_page_without_task `{!RewardLedger L} (p : Props) (w : World L)
    (Hview : view p (st w) = PageView task)
    (Htask : currentTask p (st w) = None) :
  (∀ b, pressable p (st w) b = true ↔ b = CloseButton)
  ∧ ∀ presses,
      st (pressAll p presses w) = st w
      ∧ ledger (pressAll p presses w) = ledger w.
Proof.
  assert (Hclose : ∀ s, view p s = PageView task → currentTask p s = None →
                        ∀ b, pressable p s b = true ↔ b = CloseButton).
  { intros s Hv Ht b. split.
    - intros Hp. pose proof (pressable_handler p s b Hp) as Hb.
      apply view_page in Hv as (_ & _ & _ & Hpage).
      destruct b; [done|..]; exfalso.
      + destruct Hb as (_ & _ & [tk Htk]). congruence.
      + destruct Hb as [_ Hb]. done.
      + destruct Hb as [Hb|Hb]; congruence.
      + congruence.
    - intros ->. unfold pressable. by rewrite Hv. }
  split; [by apply Hclose|].
  intros presses. revert w Hview Htask.
  induction presses as [|b presses IH]; intros w Hview Htask; [done|].
  cbn [pressAll foldl].
  assert (Hstep : st (after (press p b) w) = st w
                  ∧ ledger (after (press p b) w) = ledger w).
  { destruct (press_cases p b w) as [->|[[_ ->]|[Hp Hrun]]]; [done|done|].
    apply (Hclose _ Hview Htask) in Hp. by subst b. }
  destruct Hstep as [Hst Hled].
  change (foldl (λ w0 b0, after (press p b0) w0) (after (press p b) w) presses)
    with (pressAll p presses (after (press p b) w)).
  rewrite <- Hst, <- Hled. apply IH; by rewrite Hst.
Qed.

Lemma task_page_without_task_witness :
  st (pressAll demoProps [OptionButton 0; NextButton; BackButton]
        (pressAll demoProps [NextButton; NextButton]
           (started demoProps emptyTasksProvider offline)))
  = st (pressAll demoProps [NextButton; NextButton]
          (started demoProps emptyTasksProvider offline)).
Proof.
  apply (task_page_without_task demoProps
           (pressAll demoProps [NextButton; NextButton]
              (started demoProps emptyTasksProvider offline))).
  - vm_compute. reflexivity.
  - vm_compute. reflexivity.
Defined.

(** X14.  The completion page is final for the buttons: whatever is pressed
    there, the position, the counters and the reminders stay as they are
    (the claim button changes the coin side only). *)
Theorem completion_is_final `{!RewardLedger L} (p : Props) (w : World L)
    (Hpage : currentPage (st w) = completion) (presses : list Button) :
  position (st (pressAll p presses w)) = position (st w)
  ∧ counters (st (pressAll p presses w)) = counters (st w)
  ∧ loaded (st (pressAll p presses w)) = loaded (st w).
Proof.
  apply (pressAll_preserves p
           (λ w', position (st w') = position (st w)
                  ∧ counters (st w') = counters (st w)
                  ∧ loaded (st w') = loaded (st w))); [|done].
  intros b w' (Hpos & Hcnt & Hload).
  destruct (press_cases p b w') as [->|[[_ ->]|[Hp Hrun]]]; [done|done|].
  apply pressable_handler in Hp.
  assert (Hpage' : currentPage (st w') = completion).
  { apply position_inv in Hpos as (_ & _ & _ & Hpg).
    unfold position in Hpg. congruence. }
  destruct b; [done|..]; try (exfalso; intuition congruence).
  rewrite Hrun.
  pose proof (handleClaim_moves p w') as (Hpos' & Hcnt' & Hload').
  cbn zeta in Hpos', Hcnt', Hload'. by rewrite Hpos', Hcnt', Hload'.
Qed.

Lemma completion_is_final_witness :
  position (st (pressAll demoProps [ClaimButton; BackButton; NextButton]
                  demoCompleted))
  = position (st demoCompleted).
Proof.
  apply (completion_is_final demoProps demoCompleted).
  vm_compute. reflexivity.
Defined.

(** X15.  Through the buttons the session never goes back to an earlier
    subject or question: a press leaves the subject index and the task index
    as they are or moves one of them forward (the first and the last branch of
    [handleBack], which step back to the previous explanation, are on pages
    that show no Back button). *)
Theorem press_never_retreats `{!RewardLedger L} (p : Props)
    (provider : ContentProvider) (l : L) (presses : list Button) (b : Button) :
  let w := pressAll p presses (started p provider l) in
  let s' := st (after (press p b) w) in
  currentSubjectIndex (st w) < currentSubjectIndex s'
  ∨ (currentSubjectIndex s' = currentSubjectIndex (st w)
     ∧ currentTaskIndex (st w) ≤ currentTaskIndex s').
Proof.
  cbn zeta.
  assert (Hplaced : wellPlaced p (st (pressAll p presses (started p provider l)))).
  { apply (pressAll_preserves p (λ w, wellPlaced p (st w))).
    - intros ? ?. apply press_wellPlaced.
    - apply started_wellPlaced. }
  revert Hplaced. generalize (pressAll p presses (started p provider l)).
  intros w (_ & _ & Htheory & _).
  destruct (press_cases p b w) as [->|[[_ ->]|[Hp Hrun]]];
    [right; done|right; done|].
  apply pressable_handler in Hp.
  destruct b as [|i| | |]; [done|..]; rewrite Hrun.
  - destruct Hp as (Hpage & Hsel & tk & Htk).
    destruct (currentTask_subject _ _ _ Htk) as (subj & Hsubj' & _).
    pose proof (handleAnswerSelect_accepted p w (Z.of_nat i) tk subj
                  Hsel Htk Hsubj') as (_ & Hpos & _).
    cbn zeta in Hpos. unfold after, invoke.
    apply position_inv in Hpos as (-> & -> & _). right. done.
  - pose proof (handleNext_moves p w) as (_ & _ & Hpos). cbn zeta in Hpos.
    destruct Hp as [Hnc Hnt].
    destruct (currentPage (st w)) eqn:Hpage; try done.
    + apply position_inv in Hpos as (-> & -> & _). right. done.
    + apply position_inv in Hpos as (-> & -> & _). right.
      split; [done|]. rewrite Htheory by (by right). done.
    + destruct (decide (_ < currentTaskCount p (st w))).
      { apply position_inv in Hpos as (-> & -> & _). right. lia. }
      destruct Hpos as [Hpos|Hpos].
      { apply position_inv in Hpos as (-> & -> & _). right. done. }
      destruct (decide (_ < length (subjectsToDisplay p)));
        apply position_inv in Hpos as (-> & -> & _); [left; lia|right; done].
  - pose proof (handleBack_moves p w) as (_ & _ & _ & _ & _ & _ & Hpos).
    cbn zeta in Hpos. unfold after.
    destruct Hp as [Hpage|Hpage]; rewrite Hpage in *;
      apply position_inv in Hpos as (-> & -> & _); right; done.
  - pose proof (handleClaim_moves p w) as (Hpos & _). cbn zeta in Hpos.
    apply position_inv in Hpos as (-> & -> & _). right. done.
Qed.

(** ** The keys of the award guard *)

Lemma hyphen_string (s : string) : "-" +:+ s = String hyphen s.
Proof. reflexivity. Qed.

Lemma pretty_N_char_hyphen (x : N) :
  bool_decide (pretty_N_char x = hyphen) = false.
Proof. unfold pretty_N_char. by repeat case_match. Qed.

Lemma pretty_N_go_hyphen (x : N) (s : string) :
  hasChar hyphen (pretty_N_go x s) = hasChar hyphen s.
Proof.
  revert s. induction (N.lt_wf_0 x) as [x _ IH]; intros s.
  destruct (decide (x = 0)%N) as [->|Hx]; [by rewrite pretty_N_go_0|].
  rewrite pretty_N_go_step by lia.
  rewrite IH by (apply N.div_lt; lia).
  cbn [hasChar]. by rewrite pretty_N_char_hyphen.
Qed.

Lemma pretty_nat_hyphen (n : nat) : hasChar hyphen (pretty n) = false.
Proof.
  unfold pretty, pretty_nat, pretty, pretty_N.
  destruct (decide (N.of_nat n = 0)%N); [done|].
  by rewrite pretty_N_go_hyphen.
Qed.

(** Two strings cut at their first occurrence of a character. *)
Lemma cut_at_first (c : Ascii.ascii) (a a' b b' : string) :
  hasChar c a = false → hasChar c a' = false →
  a +:+ String c b = a' +:+ String c b' → a = a' ∧ b = b'.
Proof.
  revert a'. induction a as [|x a IH]; intros [|x' a'] Ha Ha' Heq.
  - by injection Heq as ->.
  - rewrite append_String in Heq. injection Heq as <- _.
    cbn in Ha'. by rewrite bool_decide_eq_true_2 in Ha'.
  - rewrite append_String in Heq. injection Heq as -> _.
    cbn in Ha. by rewrite bool_decide_eq_true_2 in Ha.
  - rewrite !append_String in Heq. injection Heq as -> Heq.
    cbn in Ha, Ha'.
    apply orb_false_iff in Ha as [_ Ha]. apply orb_false_iff in Ha' as [_ Ha'].
    destruct (IH a' Ha Ha' Heq) as [-> ->]. done.
Qed.

(** X16.  The keys that guard the question awards tell the questions
    apart: two questions with the same key have the same task index and the
    same text, and the same subject, when they are of one subject or when no
    subject name contains a hyphen. *)
Theorem questionKey_inj (subj subj' : string) (i i' : nat) (q q' : string)
    (Hsubj : subj = subj'
             ∨ (hasChar hyphen subj = false ∧ hasChar hyphen subj' = false))
    (Hkey : questionKey subj i q = questionKey subj' i' q') :
  subj = subj' ∧ i = i' ∧ q = q'.
Proof.
  unfold questionKey in Hkey. rewrite !hyphen_string in Hkey.
  assert (Hrest : subj = subj'
                  ∧ pretty i +:+ String hyphen q
                    = pretty i' +:+ String hyphen q').
  { destruct Hsubj as [->|[Hs Hs']].
    - split; [done|]. apply (inj (String.append subj')) in Hkey.
      by injection Hkey.
    - by apply (cut_at_first hyphen). }
  destruct Hrest as [-> Hrest]. split; [done|].
  apply cut_at_first in Hrest as [Hi ->]; try apply pretty_nat_hyphen.
  by apply (inj pretty) in Hi.
Qed.

Lemma questionKey_inj_witness :
  "Maths" = "Maths" ∧ 1 = 1 ∧ "2+2?" = "2+2?".
Proof.
  apply (questionKey_inj "Maths" "Maths" 1 1 "2+2?" "2+2?").
  - right. split; reflexivity.
  - reflexivity.
Defined.

(** X17.  With a hyphen in a subject name the keys can collide: the
    question [q] at index [i'] of the subject named [subj-i] has the key of
    the question of subject [subj] at index [i] whose text is [i'-q].  The
    second of the two to be answered is then taken for awarded already. *)
Theorem questionKey_collides (subj : string) (i i' : nat) (q : string) :
  questionKey (subj +:+ "-" +:+ pretty i) i' q
  = questionKey subj i (pretty i' +:+ "-" +:+ q)
  ∧ subj +:+ "-" +:+ pretty i ≠ subj.
Proof.
  split.
  - unfold questionKey. by rewrite !append_assoc.
  - intros Heq. apply (f_equal String.length) in Heq.
    rewrite hyphen_string in Heq.
    assert (Hlen : ∀ a b, String.length (a +:+ b)
                          = String.length a + String.length b).
    { intros a b. induction a as [|x a IH]; [done|].
      rewrite append_String. cbn. by rewrite IH. }
    rewrite Hlen in Heq. cbn in Heq. lia.
Qed.

(** ** The explanation page *)

(** X18.  The coin badge of the explanation page.  After an answer was
    chosen on the screen, the page says "correct" exactly when the chosen
    option is the right one of the task, and the badge shows 10 coins then
    and 5 otherwise.  The session's coins grew by what the badge shows when
    somebody is signed in and the question was not awarded before; for a
    guest or a question answered again they did not grow, and the badge
    shows the same. *)
Theorem coin_badge `{!RewardLedger L} (p : Props) (w : World L) (i : nat)
    (Hpress : pressable p (st w) (OptionButton i) = true) :
  let s := st w in
  let s' := st (after (press p (OptionButton i)) w) in
  ∃ tk subj,
    currentTask p s = Some tk ∧ currentSubject p s = Some subj
    ∧ isCorrectShown p s' = bool_decide (Z.of_nat i = correctAnswer tk)
    ∧ coinsForThisAnswer p s'
      = coinsFor (bool_decide (Z.of_nat i = correctAnswer tk))
    ∧ totalCoinsEarned s'
      = totalCoinsEarned s
        + match signedIn p with
          | Some _ =>
              if decide (questionKey subj (currentTaskIndex s) (question tk)
                         ∈ awardedQuestions s)
              then 0 else coinsForThisAnswer p s'
          | None => 0
          end.
Proof.
  cbn zeta. unfold after, press. rewrite Hpress.
  apply pressable_option in Hpress as (_ & Hsel & tk & Htk & _).
  destruct (currentTask_subject _ _ _ Htk) as (subj & Hsubj' & Hsubj).
  pose proof (handleAnswerSelect_accepted p w (Z.of_nat i) tk subj
                Hsel Htk Hsubj') as (_ & Hpos & _ & Hload & Hrew).
  cbn zeta in Hpos, Hload, Hrew.
  set (s' := st (handleAnswerSelect p (st w) (Z.of_nat i) w).2) in *.
  apply position_inv in Hpos as (Hsi & Hti & Hans & _).
  apply loaded_inv in Hload as (Hrem & _ & _).
  destruct (derived_ext p s' (st w) Hsi Hti Hrem) as (_ & _ & Htk').
  exists tk, subj. split; [done|]. split; [done|].
  assert (Hshown : isCorrectShown p s'
                   = bool_decide (Z.of_nat i = correctAnswer tk)).
  { unfold isCorrectShown. by rewrite Hans, Htk', Htk. }
  assert (Hbadge : coinsForThisAnswer p s'
                   = coinsFor (bool_decide (Z.of_nat i = correctAnswer tk))).
  { unfold coinsForThisAnswer, coinsFor. rewrite Hshown, Hans. done. }
  split; [done|]. split; [done|].
  rewrite Hbadge.
  destruct (signedIn p) as [user|].
  - destruct (decide (_ ∈ awardedQuestions (st w))).
    + destruct Hrew as (Hrew & _).
      apply rewards_inv in Hrew as (-> & _). lia.
    + cbn zeta in Hrew. destruct Hrew as (Hrew & _).
      apply rewards_inv in Hrew as (-> & _). done.
  - destruct Hrew as (Hrew & _).
    apply rewards_inv in Hrew as (-> & _). lia.
Qed.

Lemma coin_badge_witness :
  coinsForThisAnswer demoProps
    (st (after (press demoProps (OptionButton 1)) onFirstTask)) = 10.
Proof.
  assert (Hpress : pressable demoProps (st onFirstTask) (OptionButton 1) = true)
    by (vm_compute; reflexivity).
  destruct (coin_badge demoProps onFirstTask 1 Hpress)
    as (tk & subj & Htk & _ & _ & Hbadge & _).
  rewrite Hbadge.
  assert (Hdemo : currentTask demoProps (st onFirstTask)
                  = Some (mkTask "q1" 1)) by (vm_compute; reflexivity).
  rewrite Hdemo in Htk. injection Htk as <-. reflexivity.
Defined.

(** ** The text of the Next button *)

Lemma handleNext_returned `{!RewardLedger L} (p : Props) (w : World L) :
  let s := st w in
  let out := invoke p Next w in
  out.1 = Some tt →
  currentPage s = explanation →
  moreTasksRemain p s = false →
  position (st out.2)
  = (if moreSubjectsRemain p s
     then (currentSubjectIndex s + 1, 0, None, theory1)
     else (currentSubjectIndex s, currentTaskIndex s,
           selectedAnswer s, completion)).
Proof.
  destruct w as [s l tr]. cbn zeta. unfold invoke, handleNext. cbn [st].
  intros Hret Hpage Hlast. revert Hret. rewrite Hpage, Hlast.
  unfold subjectDone, sessionDone.
  destruct (whenTruthy (currentSubject p s)) as [subj|];
    destruct (signedIn p) as [user|];
    try destruct (perfectScore p s subj);
    destruct (moreSubjectsRemain p s);
    try destruct (decide (0 < length (subjectsToDisplay p)));
    destruct (onCoinsUpdated p);
    unfold_M; cbn;
    repeat (split_call; cbn);
    intros Hret; try discriminate Hret; done.
Qed.

(** X19.  The Next button says what it does.  When the handler runs to
    its end (no ledger call is rejected): under "Next" it goes to the next
    page of the theory or to the first task; under "Next Question" to the
    next task of the subject; under "Next Subject" to the first theory page
    of the next subject; under "Finish" to the completion page; where the
    button has no text the handler does nothing. *)
Theorem nextButtonText_announces `{!RewardLedger L} (p : Props) (w : World L)
    (Hret : (invoke p Next w).1 = Some tt) :
  let s := st w in
  let s' := st (after (invoke p Next) w) in
  match nextButtonText p s with
  | TextNext =>
      currentSubjectIndex s' = currentSubjectIndex s
      ∧ (currentPage s' = theory2
         ∨ (currentPage s' = task ∧ currentTaskIndex s' = 0))
  | TextNextQuestion =>
      currentSubjectIndex s' = currentSubjectIndex s
      ∧ currentTaskIndex s' = currentTaskIndex s + 1
      ∧ currentPage s' = task
  | TextNextSubject =>
      currentSubjectIndex s' = currentSubjectIndex s + 1
      ∧ currentTaskIndex s' = 0
      ∧ currentPage s' = theory1
  | TextFinish => currentPage s' = completion
  | TextNone => position s' = position s
  end.
Proof.
  cbn zeta.
  pose proof (handleNext_moves p w) as (_ & _ & Hpos). cbn zeta in Hpos.
  pose proof (handleNext_returned p w Hret) as Hlast. cbn zeta in Hlast.
  unfold nextButtonText. unfold after in *.
  destruct (currentPage (st w)) eqn:Hpage.
  - apply position_inv in Hpos as (-> & _ & _ & ->). split; [done|by left].
  - apply position_inv in Hpos as (-> & -> & _ & ->). split; [done|by right].
  - done.
  - rewrite moreTasksRemain_nat in *.
    destruct (decide (_ < currentTaskCount p (st w))) as [Hmore|Hno].
    + rewrite bool_decide_eq_true_2 by done.
      apply position_inv in Hpos as (-> & -> & _ & ->). done.
    + rewrite bool_decide_eq_false_2 in * by done.
      specialize (Hlast eq_refl eq_refl).
      destruct (moreSubjectsRemain p (st w));
        apply position_inv in Hlast as (Hsi & Hti & _ & Hpg);
        rewrite ?Hsi, ?Hti, ?Hpg; done.
  - done.
Qed.

Lemma nextButtonText_announces_witness :
  currentPage (st (after (invoke demoProps Next) lastExplanation)) = theory1.
Proof.
  assert (Hret : (invoke demoProps Next lastExplanation).1 = Some tt)
    by (vm_compute; reflexivity).
  pose proof (nextButtonText_announces demoProps lastExplanation Hret) as Hsays.
  cbn zeta in Hsays.
  assert (Htext : nextButtonText demoProps (st lastExplanation)
                  = TextNextSubject) by (vm_compute; reflexivity).
  rewrite Htext in Hsays. exact (proj2 (proj2 Hsays)).
Defined.

(** ** A session with nobody signed in *)

Lemma invoke_guest `{!RewardLedger L} (p : Props) (a : Action) (w : World L) :
  signedIn p = None →
  ledger (after (invoke p a) w) = ledger w
  ∧ trace (after (invoke p a) w) = trace w
  ∧ rewards (st (after (invoke p a) w)) = rewards (st w).
Proof.
  intros Hguest. destruct a as [i| | |].
  - unfold after, invoke.
    destruct (selectedAnswer (st w)) as [a|] eqn:Hans.
    { by rewrite handleAnswerSelect_ignored by (left; congruence). }
    destruct (currentTask p (st w)) as [tk|] eqn:Htk.
    2: { by rewrite handleAnswerSelect_ignored by (by right). }
    destruct (currentTask_subject _ _ _ Htk) as (subj & Hsubj' & _).
    pose proof (handleAnswerSelect_accepted p w i tk subj Hans Htk Hsubj')
      as (_ & _ & _ & _ & Hrew).
    cbn zeta in Hrew. rewrite Hguest in Hrew. tauto.
  - destruct w as [s l tr]. unfold after, invoke, handleNext. cbn [st].
    destruct (currentPage s); try (unfold_M; cbn; done).
    destruct (moreTasksRemain p s); [unfold_M; cbn; done|].
    unfold subjectDone, sessionDone. rewrite Hguest.
    destruct (whenTruthy (currentSubject p s)) as [subj|];
      destruct (moreSubjectsRemain p s);
      unfold_M; cbn; done.
  - pose proof (handleBack_moves p w) as (_ & Hled & Htr & _ & Hrew & _).
    done.
  - destruct w as [s l tr]. unfold after, invoke, handleClaim.
    rewrite Hguest. done.
Qed.

(** X20.  With nobody signed in the session keeps off the ledger.
    Whatever handlers run after the start, and so whatever is pressed, the
    ledger is the one the session started with, no call and no log line is
    added to the trace (a press adds at most the closing of the screen), no
    coin is counted, no award is recorded and the claim button never
    appears. *)
Theorem guest_session_silent `{!RewardLedger L} (p : Props)
    (provider : ContentProvider) (l : L) (Hguest : signedIn p = None) :
  (∀ acts,
     let w := invokeAll p acts (started p provider l) in
     ledger w = l
     ∧ trace w = trace (started p provider l)
     ∧ rewards (st w) = (0, ∅, ∅, false, false))
  ∧ (∀ presses,
       let w := pressAll p presses (started p provider l) in
       ledger w = l
       ∧ (∃ n, trace w = trace (started p provider l) ++ replicate n Closed)
       ∧ rewards (st w) = (0, ∅, ∅, false, false)).
Proof.
  destruct (started_trace p provider l) as (Hled & _ & _ & Hrew & _).
  revert Hled Hrew. generalize (started p provider l). intros w0 Hled Hrew.
  split.
  - intros acts. cbn zeta. rewrite <- Hled, <- Hrew. clear Hled Hrew.
    revert w0. induction acts as [|a acts IH]; intros w0; [done|].
    cbn [invokeAll foldl].
    change (foldl (λ w a0, after (invoke p a0) w) (after (invoke p a) w0) acts)
      with (invokeAll p acts (after (invoke p a) w0)).
    destruct (invoke_guest p a w0 Hguest) as (Hl & Ht & Hr).
    destruct (IH (after (invoke p a) w0)) as (IHl & IHt & IHr).
    rewrite IHl, IHt, IHr. done.
  - intros presses. cbn zeta. rewrite <- Hled, <- Hrew. clear Hled Hrew.
    revert w0. induction presses as [|b presses IH]; intros w0.
    { split; [done|]. split; [|done]. exists 0. by rewrite app_nil_r. }
    cbn [pressAll foldl].
    change (foldl (λ w b0, after (press p b0) w) (after (press p b) w0) presses)
      with (pressAll p presses (after (press p b) w0)).
    destruct (IH (after (press p b) w0)) as (IHl & [n IHt] & IHr).
    rewrite IHl, IHt, IHr.
    destruct (press_cases p b w0) as [->|[[_ ->]|[_ Hrun]]].
    + split; [done|]. split; [|done]. by exists n.
    + split; [done|]. split; [|done]. exists (S n). cbn [st ledger trace].
      by rewrite <- app_assoc.
    + assert (Hstep : ledger (after (press p b) w0) = ledger w0
                      ∧ trace (after (press p b) w0) = trace w0
                      ∧ rewards (st (after (press p b) w0)) = rewards (st w0)).
      { destruct b; [done|..]; rewrite Hrun; by apply invoke_guest. }
      destruct Hstep as (-> & -> & ->).
      split; [done|]. split; [|done]. by exists n.
Qed.

Lemma guest_session_silent_witness :
  rewards (st (invokeAll guestProps [Next; Next; Answer 1; Next]
                 (started guestProps demoProvider emptyLedger)))
  = (0, ∅, ∅, false, false).
Proof.
  exact (proj2 (proj2 (proj1 (guest_session_silent guestProps demoProvider
                                emptyLedger eq_refl)
                         [Next; Next; Answer 1; Next]))).
Defined.

(** ** Where the screen offers nothing but Close *)



